(** * Open-LLM-webchat: transcript synthesis

    A shallow embedding of the two transcript builders of the chat
    application and of its stop button:

    - [load_sessions_history] (utils/process_session.py) rebuilds a
      transcript from the runs stored for a session;
    - [get_response] (utils/process_chat.py) builds the transcript of one
      user turn, either from the agent's event stream or from its final
      response;
    - [stop_agent_running_stream] (utils/process_chat.py) cancels the run
      named by the two module globals.

    Python values are modelled as follows.  A [str] is a Rocq [string]
    holding its UTF-8 bytes.  A JSON number is an [int] (a [Z]) or a
    [float] (a binary64 primitive float).  A dictionary keyed by strings is
    a [gmap string _]; a set of tuples is a [gset].  Code that can raise
    runs in the [result] monad; the [try]/[except] blocks of the source are
    the places where a [Raise] is turned back into a value. *)

From Stdlib Require Import ZArith Floats Ascii String.
From stdpp Require Import gmap strings list pretty.

Open Scope Z_scope.

(** ** Exceptions *)

Inductive exn : Type :=
  | KeyError
  | AttributeError
  | TypeError
  | OverflowError
  | IndexError
  | Sqlite3Error
  | JSONDecodeError
  | AgentError.

Inductive result (A : Type) : Type :=
  | Return (a : A)
  | Raise (e : exn).
Arguments Return {A} a.
Arguments Raise {A} e.

#[global] Instance exn_eq_dec : EqDecision exn.
Proof. solve_decision. Defined.

#[global] Instance result_eq_dec {A} `{EqDecision A} : EqDecision (result A).
Proof. solve_decision. Defined.

#[global] Instance result_ret : MRet result := @Return.
#[global] Instance result_bind : MBind result := λ A B f m,
  match m with
  | Return a => f a
  | Raise e => Raise e
  end.

(** ** Strings *)

Module Py.

(** [str.strip()] removes the characters for which [str.isspace()] holds
    from both ends.  They are listed here by their UTF-8 encodings:
    U+0009..U+000D, U+001C..U+0020, U+0085, U+00A0, U+1680,
    U+2000..U+200A, U+2028, U+2029, U+202F, U+205F and U+3000. *)
Definition whitespace : list (list N) :=
  ([ [9]; [10]; [11]; [12]; [13]; [28]; [29]; [30]; [31]; [32];
     [194; 133]; [194; 160];
     [225; 154; 128];
     [226; 128; 128]; [226; 128; 129]; [226; 128; 130]; [226; 128; 131];
     [226; 128; 132]; [226; 128; 133]; [226; 128; 134]; [226; 128; 135];
     [226; 128; 136]; [226; 128; 137]; [226; 128; 138];
     [226; 128; 168]; [226; 128; 169]; [226; 128; 175];
     [226; 129; 159];
     [227; 128; 128] ])%N.

Definition codes (s : string) : list N :=
  N_of_ascii <$> list_ascii_of_string s.

Definition of_codes (l : list N) : string :=
  string_of_list_ascii (ascii_of_N <$> l).

Fixpoint drop_prefix (p l : list N) : option (list N) :=
  match p, l with
  | [], _ => Some l
  | a :: p', b :: l' => if (a =? b)%N then drop_prefix p' l' else None
  | _ :: _, [] => None
  end.

Fixpoint drop_any (ps : list (list N)) (l : list N) : option (list N) :=
  match ps with
  | [] => None
  | p :: ps' =>
      match drop_prefix p l with
      | Some l' => Some l'
      | None => drop_any ps' l
      end
  end.

Fixpoint lstrip_codes (ps : list (list N)) (fuel : nat) (l : list N) : list N :=
  match fuel with
  | O => l
  | S fuel' =>
      match drop_any ps l with
      | Some l' => lstrip_codes ps fuel' l'
      | None => l
      end
  end.

Definition strip (s : string) : string :=
  let l := codes s in
  let l := lstrip_codes whitespace (length l) l in
  let r := reverse l in
  let r := lstrip_codes (reverse <$> whitespace) (length r) r in
  of_codes (reverse r).

(** ["sep".join(parts)] *)
Definition join (sep : string) (parts : list string) : string :=
  String.concat sep parts.

(** Truth value of a [str]: empty strings are false. *)
Definition truthy (s : string) : bool :=
  negb (String.eqb s "").

(** Rendering of an optional string inside an f-string: [None] prints as
    the word None. *)
Definition fmt (o : option string) : string :=
  default "None" o.

(** ** Numbers *)

Inductive number : Type :=
  | Int (z : Z)
  | Float (f : float).

(** [float(z)]: the nearest binary64 value, [OverflowError] beyond the
    range. *)
Definition float_of_int (z : Z) : result float :=
  let f := SF2Prim (binary_normalize prec emax z 0 false) in
  if PrimFloat.is_infinity f then Raise OverflowError else Return f.

Definition to_float (x : number) : result float :=
  match x with
  | Int z => float_of_int z
  | Float f => Return f
  end.

(** [a - b] on numbers: exact on two ints, binary64 otherwise. *)
Definition sub (a b : number) : result number :=
  match a, b with
  | Int x, Int y => Return (Int (x - y))
  | _, _ =>
      fa ← to_float a;
      fb ← to_float b;
      Return (Float (PrimFloat.sub fa fb))
  end.

(** Nearest integer to [n / d] for [0 <= n] and [0 < d], ties to even. *)
Definition round_half_even (n d : Z) : Z :=
  let q := n / d in
  let r := n mod d in
  match 2 * r ?= d with
  | Lt => q
  | Gt => q + 1
  | Eq => if Z.even q then q else q + 1
  end.

Fixpoint zeros (n : nat) : string :=
  match n with
  | O => ""
  | S n' => "0" +:+ zeros n'
  end.

(** The digits of the non-negative integer [n], read as a count of units
    of [10^-p], with [p] decimals. *)
Definition fixed_digits (p : nat) (n : Z) : string :=
  let scale := 10 ^ Z.of_nat p in
  let whole := pretty (n / scale) in
  match p with
  | O => whole
  | _ =>
      let frac := pretty (n mod scale) in
      whole +:+ "." +:+ zeros (p - String.length frac) +:+ frac
  end.

(** [format(f, ".pf")] for a float: the exact binary value is rounded to
    [p] decimals, ties to even. *)
Definition format_float (p : nat) (f : float) : string :=
  match Prim2SF f with
  | S754_nan => "nan"
  | S754_infinity s => if s then "-inf" else "inf"
  | S754_zero s => (if s then "-" else "") +:+ fixed_digits p 0
  | S754_finite s m e =>
      let n := Z.pos m * 10 ^ Z.of_nat p in
      let units := if (0 <=? e) then n * 2 ^ e else round_half_even n (2 ^ (- e)) in
      (if s then "-" else "") +:+ fixed_digits p units
  end.

(** [format(x, ".pf")] for a number: an int is converted to float first. *)
Definition format_f (p : nat) (x : number) : result string :=
  f ← to_float x;
  Return (format_float p f).

End Py.

(** ** Data model *)

(** A slot of a JSON object: the key is missing, holds [null], or holds a
    value. *)
Inductive field (A : Type) : Type :=
  | Absent
  | Null
  | Value (a : A).
Arguments Absent {A}.
Arguments Null {A}.
Arguments Value {A} a.

(** [d[key]]: a missing key raises [KeyError]; [null] reads as [None]. *)
Definition subscript {A} (f : field A) : result (option A) :=
  match f with
  | Absent => Raise KeyError
  | Null => Return None
  | Value a => Return (Some a)
  end.

(** [gradio.ChatMessage]: [metadata] holds the title when there is one. *)
Record ChatMessage : Type := {
  role : string;
  content : string;
  metadata : option string;
}.

#[global] Instance ChatMessage_eq_dec : EqDecision ChatMessage.
Proof. solve_decision. Defined.

Definition assistant (text : string) : ChatMessage :=
  {| role := "assistant"; content := text; metadata := None |}.

(** [gr.update(min_height=.., max_height=.., latex_delimiters=..)] *)
Record delimiter : Type := {
  left : string;
  right : string;
  display : bool;
}.

Record update : Type := {
  min_height : Z;
  max_height : Z;
  latex_delimiters : option (list delimiter);
}.

(** ** Stored runs (utils/process_session.py) *)

Module Session.

(** The content of a stored message: text, or a list of text parts. *)
Inductive content_value : Type :=
  | Text (s : string)
  | Items (l : list string).

(** A message of a stored run.  The fields read with [.get(key)] are
    options ([None] for a missing key or [null]); [content] is read with a
    default, so a missing key and [null] differ.  [tool_args] holds the
    text that formatting the stored arguments gives. *)
Record message : Type := {
  msg_role : option string;
  msg_content : field content_value;
  msg_tool_name : option string;
  msg_tool_args : option string;
  msg_tool_call_id : option string;
}.

Record tool : Type := {
  tool_call_id : option string;
}.

Record event : Type := {
  ev_tool : field tool;
  ev_event : field string;
  ev_created_at : field Py.number;
}.

Record run : Type := {
  messages : list message;
  events : list event;
}.

(** An entry of [tool_times]: the dictionary with keys start and end. *)
Record timing : Type := {
  start : option Py.number;
  end_ : option Py.number;
}.

(** Left-to-right loop whose body may raise. *)
Fixpoint for_each {S A : Type} (body : S → A → result S) (l : list A) (s : S) : result S :=
  match l with
  | [] => Return s
  | a :: l' => s' ← body s a; for_each body l' s'
  end.

(** [event.get("tool", {}).get("tool_call_id")] *)
Definition event_tool_call_id (ev : event) : result (option string) :=
  match ev_tool ev with
  | Absent => Return None
  | Null => Raise AttributeError
  | Value t => Return (tool_call_id t)
  end.

(** Body of the loop over [events] (lines 165-175). *)
Definition record_event (tool_times : gmap string timing) (ev : event)
  : result (gmap string timing) :=
  id ← event_tool_call_id ev;
  match id with
  | None => Return tool_times
  | Some id =>
      if negb (Py.truthy id) then Return tool_times else
      let tool_times :=
        match tool_times !! id with
        | None => <[id := {| start := None; end_ := None |}]> tool_times
        | Some _ => tool_times
        end in
      kind ← subscript (ev_event ev);
      if decide (kind = Some "ToolCallStarted") then
        created_at ← subscript (ev_created_at ev);
        Return (alter (λ t, {| start := created_at; end_ := end_ t |}) id tool_times)
      else if decide (kind = Some "ToolCallCompleted") then
        created_at ← subscript (ev_created_at ev);
        Return (alter (λ t, {| start := start t; end_ := created_at |}) id tool_times)
      else Return tool_times
  end.

(** An event of kind [kind] for the tool call [id], created at [at_]. *)
Definition tool_event (kind id : string) (at_ : Py.number) : event :=
  {| ev_tool := Value {| tool_call_id := Some id |};
     ev_event := Value kind;
     ev_created_at := Value at_ |}.

(** The event carries the tool call [id]. *)
Definition of_call (id : string) (ev : event) : Prop :=
  event_tool_call_id ev = Return (Some id).

#[global] Instance of_call_dec id ev : Decision (of_call id ev).
Proof. unfold of_call. apply _. Defined.

(** The event is of kind [kind] and carries the tool call [id]. *)
Definition marks (kind id : string) (ev : event) : Prop :=
  of_call id ev ∧ ev_event ev = Value kind.

(** The keys that [record_event] reads are there. *)
Definition readable (ev : event) : Prop :=
  ev_tool ev ≠ Null ∧ ev_event ev ≠ Absent ∧ ev_created_at ev ≠ Absent.

Definition build_tool_times (evs : list event) : result (gmap string timing) :=
  for_each record_event evs ∅.

(** A bound of the tool call [id] in [tool_times], when it is set. *)
Definition bound {A} (get : timing → option A) (id : string)
    (tool_times : gmap string timing) : option A :=
  tool_times !! id ≫= get.

(** Lines 186-191: the execution time shown for a tool message. *)
Definition exec_time (tool_times : gmap string timing) (id : option string)
  : result string :=
  match id ≫= (tool_times !!.) with
  | Some {| start := Some s; end_ := Some e |} =>
      d ← Py.sub e s;
      text ← Py.format_f 3 d;
      Return (text +:+ "s")
  | _ => Return "N/A"
  end.

Definition custom_content_started (tool_name tool_args : option string) : string :=
  "
**Tool:** `" +:+ Py.fmt tool_name +:+ "`
**Arguments:** `" +:+ Py.fmt tool_args +:+ "`
".

(** Lines 206-210: the result text of a tool message. *)
Definition result_text (c : field content_value) : string :=
  let content :=
    match c with
    | Absent => ""
    | Null => "None"
    | Value (Items l) => Py.join "
" (Py.strip <$> List.filter Py.truthy l)
    | Value (Text s) => s
    end in
  if Py.truthy content then Py.strip content else "".

Definition custom_content_completed (text time : string) : string :=
  "**Results:**
" +:+ text +:+ "
**Execution time:** " +:+ time.

(** The titles of lines 201 and 218, with the bytes the file has. *)
Definition title_started : string := "ðŸ› ï¸ ToolCallStarted".
Definition title_completed : string := "ðŸ› ï¸ ToolCallCompleted".

(** Lines 230-234: the first assistant entry from the end gets a space. *)
Fixpoint touch_first_assistant (l : list ChatMessage) : list ChatMessage :=
  match l with
  | [] => []
  | m :: l' =>
      if decide (role m = "assistant")
      then {| role := role m; content := content m +:+ " "; metadata := metadata m |} :: l'
      else m :: touch_first_assistant l'
  end.

Definition trigger_latex (chat_history : list ChatMessage) : list ChatMessage :=
  reverse (touch_first_assistant (reverse chat_history)).

(** Lines 178-227: the entries that a stored message adds.  A user or
    assistant message whose content is a list becomes an entry that the
    duplicate filter cannot hash: the [TypeError] it meets there is raised
    here, every exception having the same handler. *)
Definition show_message (chat_event_metadata_radio : string)
    (tool_times : gmap string timing)
    (chat_history : list ChatMessage) (msg : message) : result (list ChatMessage) :=
  let role := msg_role msg in
  if decide (chat_event_metadata_radio = "ON" ∧ role = Some "tool") then
    time ← exec_time tool_times (msg_tool_call_id msg);
    Return (chat_history ++
      [ {| role := "assistant";
           content := custom_content_started (msg_tool_name msg) (msg_tool_args msg);
           metadata := Some title_started |};
        {| role := "assistant";
           content := custom_content_completed (result_text (msg_content msg)) time;
           metadata := Some title_completed |} ])
  else
    match role with
    | Some r =>
        if decide (r = "user" ∨ r = "assistant") then
          match msg_content msg with
          | Absent | Null =>
              Return (chat_history ++ [ {| role := r; content := ""; metadata := None |} ])
          | Value (Text s) =>
              Return (chat_history ++ [ {| role := r; content := s; metadata := None |} ])
          | Value (Items _) => Raise TypeError
          end
        else Return chat_history
    | None => Return chat_history
    end.

(** Body of the loop over [messages] (lines 178-234): the entries of the
    message, then the LaTeX trigger. *)
Definition add_message (chat_event_metadata_radio latex_mode_radio : string)
    (tool_times : gmap string timing)
    (chat_history : list ChatMessage) (msg : message) : result (list ChatMessage) :=
  chat_history ← show_message chat_event_metadata_radio tool_times chat_history msg;
  Return (if decide (latex_mode_radio = "ON") then trigger_latex chat_history else chat_history).

(** Body of the loop over [runs] (lines 159-234). *)
Definition add_run (chat_event_metadata_radio latex_mode_radio : string)
    (chat_history : list ChatMessage) (r : run) : result (list ChatMessage) :=
  tool_times ← build_tool_times (events r);
  for_each (add_message chat_event_metadata_radio latex_mode_radio tool_times)
    (messages r) chat_history.

(** Lines 236-243: the duplicate filter. *)
Definition keep_unseen (st : gset (string * string) * list ChatMessage) (msg : ChatMessage)
  : gset (string * string) * list ChatMessage :=
  let '(seen, unique_history) := st in
  let identifier := (role msg, content msg) in
  if decide (identifier ∉ seen)
  then ({[ identifier ]} ∪ seen, unique_history ++ [msg])
  else (seen, unique_history).

Definition dedupe (chat_history : list ChatMessage) : list ChatMessage :=
  (foldl keep_unseen (∅, []) chat_history).2.

(** What makes two entries the same for the filter. *)
Definition identifier (msg : ChatMessage) : string * string :=
  (role msg, content msg).

(** The filter as the specification words it: going through the
    transcript in order, an entry is retained when no entry before it has
    the same role and content. *)
Fixpoint retain_first (before l : list ChatMessage) : list ChatMessage :=
  match l with
  | [] => []
  | msg :: l' =>
      if decide (identifier msg ∈ identifier <$> before)
      then retain_first (before ++ [msg]) l'
      else msg :: retain_first (before ++ [msg]) l'
  end.

Definition first_occurrences (l : list ChatMessage) : list ChatMessage :=
  retain_first [] l.

(** The duplicate filter entry by entry, from a given set of seen
    identifiers: the loop of lines 239-243 unrolled. *)
Fixpoint unseen (seen : gset (string * string)) (l : list ChatMessage) : list ChatMessage :=
  match l with
  | [] => []
  | msg :: l' =>
      if decide (identifier msg ∉ seen)
      then msg :: unseen ({[ identifier msg ]} ∪ seen) l'
      else unseen seen l'
  end.

(** Lines 157-245: everything between the decoding and the [return];
    [collect] is the loop over the runs. *)
Definition collect (chat_event_metadata_radio latex_mode_radio : string)
    (runs : list run) : result (list ChatMessage) :=
  for_each (add_run chat_event_metadata_radio latex_mode_radio) runs [].

Definition rebuild (chat_event_metadata_radio latex_mode_radio : string)
    (runs : list run) : result (list ChatMessage) :=
  chat_history ← collect chat_event_metadata_radio latex_mode_radio runs;
  Return (dedupe chat_history).

(** The reconstruction as the specification orders it: no trigger while
    collecting, the duplicate filter, then the trigger once. *)
Definition rebuild_then_trigger (chat_event_metadata_radio : string)
    (runs : list run) : result (list ChatMessage) :=
  unique_history ← rebuild chat_event_metadata_radio "OFF" runs;
  Return (trigger_latex unique_history).

(** The content starts the way this module starts the content of a tool
    entry: with the Tool line, or with the Results line. *)
Definition tool_like (msg : ChatMessage) : Prop :=
  (∃ rest, content msg = "
**Tool:** `" +:+ rest)
  ∨ (∃ rest, content msg = "**Results:**
" +:+ rest).

(** An entry that is either untitled or starts as a tool entry of this
    module does. *)
Definition rebuilt_entry (msg : ChatMessage) : Prop :=
  metadata msg = None ∨ tool_like msg.

(** Lines 123-135. *)
Definition latex_var (latex_mode_radio : string) : list delimiter :=
  if decide (latex_mode_radio = "ON") then
    [ {| left := "$$"; right := "$$"; display := true |};
      {| left := "$"; right := "$"; display := false |};
      {| left := "\["; right := "\]"; display := true |};
      {| left := "\("; right := "\)"; display := false |} ]
  else
    [ {| left := "$$"; right := "$$"; display := true |} ].

(** What the query of lines 138-150 gives: an [sqlite3.Error] (no table,
    no database), or the result of [fetchone()], which is [None] or a row
    whose only column is [NULL] or text. *)
Inductive fetched : Type :=
  | DbError
  | Row (result : option (option string)).

Definition empty_history : list ChatMessage * update :=
  ([], {| min_height := 350; max_height := 350; latex_delimiters := None |}).

Section Load.

(** [json.loads(json.loads(text))], read as a list of runs. *)
Variable json_loads_twice : string → result (list run).

Definition load_sessions_history (db : fetched)
    (chat_event_metadata_radio latex_mode_radio : string)
  : list ChatMessage * update :=
  match db with
  | DbError => empty_history
  | Row None | Row (Some None) => empty_history
  | Row (Some (Some text)) =>
      if negb (Py.truthy text) then empty_history else
      match runs ← json_loads_twice text;
            rebuild chat_event_metadata_radio latex_mode_radio runs with
      | Return unique_history =>
          (unique_history,
           {| min_height := 650; max_height := 650;
              latex_delimiters := Some (latex_var latex_mode_radio) |})
      | Raise _ => empty_history
      end
  end.

End Load.

End Session.

(** ** The live turn (utils/process_chat.py) *)

Module Chat.

(** [agno.agent.RunEvent], as far as [get_response] tells its members
    apart. *)
Inductive RunEvent : Type :=
  | tool_call_started
  | tool_call_completed
  | run_content
  | other_event.

#[global] Instance RunEvent_eq_dec : EqDecision RunEvent.
Proof. solve_decision. Defined.

Record Metrics : Type := {
  duration : option Py.number;
}.

(** [chunk.tool]; [tool_args] holds the text that formatting the
    arguments gives. *)
Record ToolExecution : Type := {
  tool_name : option string;
  tool_args : option string;
  tool_result : option string;
  metrics : option Metrics;
}.

(** An event of the agent's stream.  [chunk_content] is [Some] exactly
    when [chunk.content] is a [str]. *)
Record chunk : Type := {
  run_id : option string;
  event : RunEvent;
  tool : option ToolExecution;
  chunk_content : option string;
}.

(** A message of the agent's final response. *)
Record Message : Type := {
  m_role : string;
  m_content : option string;
  m_tool_name : option string;
  m_tool_args : option string;
}.

(** The agent returned by [get_agent]: what [arun] gives when streamed
    (events, then the end of the stream or an exception) and what it gives
    when awaited. *)
Record Agent : Type := {
  agent_id : nat;
  streamed : list chunk;
  stream_raises : bool;
  awaited : result (list Message);
}.

(** One [yield]: the text box, the transcript and the stop button.  The
    list of sessions read from the database and the constant heights are
    left out. *)
Record output : Type := {
  placeholder : string;
  interactive : bool;
  shown : list ChatMessage;
  stop_visible : bool;
}.

(** The module globals (lines 19-20); an agent is named by its
    [agent_id]. *)
Record globals : Type := {
  running_agent : option nat;
  current_run_id : option string;
}.

(** The globals, the locals of [get_response] that outlive a statement,
    and what was yielded so far. *)
Record state : Type := {
  shared : globals;
  chat_history : list ChatMessage;
  stream_response : string;
  yielded : list output;
}.

Definition set_running_agent (a : option nat) (s : state) : state :=
  {| shared := {| running_agent := a; current_run_id := current_run_id (shared s) |};
     chat_history := chat_history s; stream_response := stream_response s;
     yielded := yielded s |}.

Definition set_current_run_id (r : option string) (s : state) : state :=
  {| shared := {| running_agent := running_agent (shared s); current_run_id := r |};
     chat_history := chat_history s; stream_response := stream_response s;
     yielded := yielded s |}.

Definition set_chat_history (h : list ChatMessage) (s : state) : state :=
  {| shared := shared s;
     chat_history := h; stream_response := stream_response s;
     yielded := yielded s |}.

Definition set_stream_response (t : string) (s : state) : state :=
  {| shared := shared s;
     chat_history := chat_history s; stream_response := t;
     yielded := yielded s |}.

Definition add_yielded (o : output) (s : state) : state :=
  {| shared := shared s;
     chat_history := chat_history s; stream_response := stream_response s;
     yielded := yielded s ++ [o] |}.

(** Statements: they read and write the state and may raise; the state
    reached when the exception is raised is kept for the handler. *)
Definition stmt (A : Type) : Type := state → result A * state.

#[global] Instance stmt_ret : MRet stmt := λ A a s, (Return a, s).
#[global] Instance stmt_bind : MBind stmt := λ A B f m s,
  match m s with
  | (Return a, s') => f a s'
  | (Raise e, s') => (Raise e, s')
  end.

Definition raise {A} (e : exn) : stmt A := λ s, (Raise e, s).
Definition get : stmt state := λ s, (Return s, s).
Definition modify (f : state → state) : stmt unit := λ s, (Return tt, f s).
Definition lift {A} (r : result A) : stmt A := λ s, (r, s).

Definition try_except (body : stmt unit) (handler : stmt unit) : stmt unit := λ s,
  match body s with
  | (Return tt, s') => (Return tt, s')
  | (Raise _, s') => handler s'
  end.

Definition try_finally (body : stmt unit) (cleanup : state → state) : stmt unit := λ s,
  let '(r, s') := body s in (r, cleanup s').

Fixpoint for_ {A} (l : list A) (body : A → stmt unit) : stmt unit :=
  match l with
  | [] => mret tt
  | a :: l' => body a ≫= λ _, for_ l' body
  end.

Definition when (b : bool) (body : stmt unit) : stmt unit :=
  if b then body else mret tt.

(** [chat_history.append(m)] *)
Definition append (m : ChatMessage) : stmt unit :=
  modify (λ s, set_chat_history (chat_history s ++ [m]) s).

(** [chat_history[-1]] *)
Definition last_entry : stmt ChatMessage := λ s,
  match last (chat_history s) with
  | Some m => (Return m, s)
  | None => (Raise IndexError, s)
  end.

(** [chat_history[-1] = m] *)
Definition set_last (m : ChatMessage) : stmt unit := λ s,
  match chat_history s with
  | [] => (Raise IndexError, s)
  | h => (Return tt, set_chat_history (<[pred (length h) := m]> h) s)
  end.

Definition yield (ph : string) (inter stop : bool) : stmt unit :=
  modify (λ s, add_yielded {| placeholder := ph; interactive := inter;
                              shown := chat_history s; stop_visible := stop |} s).

(** Lines 164-165 and 192-193 and 245-246. *)
Definition clear_loading : stmt unit :=
  m ← last_entry;
  when (bool_decide (content m = "### ...")) (set_last (assistant "")).

(** [chunk.tool.<attribute>]: no tool, no attribute. *)
Definition the_tool (c : chunk) : stmt ToolExecution :=
  match tool c with
  | Some t => mret t
  | None => raise AttributeError
  end.

(** Lines 169-172. *)
Definition started_content (t : ToolExecution) : string :=
  "
**Tool:** `" +:+ Py.fmt (tool_name t) +:+ "`
" +:+ "**Arguments:** `" +:+ Py.fmt (tool_args t) +:+ "`
".

(** Lines 195-198.  The two adjacent f-strings are one operand: the
    conditional chooses between their concatenation and the other
    literal. *)
Definition completed_content (t : ToolExecution) : result string :=
  match metrics t with
  | Some m =>
      match duration m with
      | Some d =>
          text ← Py.format_f 4 d;
          Return ("
**Results:** 
" +:+ Py.fmt (tool_result t) +:+ "
" +:+ "**Execution time:** " +:+ text +:+ "s")
      | None => Raise TypeError
      end
  | None => Return "**Execution time:** N/A
"
  end.

(** The titles of lines 177, 203, 273 and 285, with the bytes the file
    has; they are not the bytes of utils/process_session.py. *)
Definition title_started : string := "üõ†Ô∏è ToolCallStarted".
Definition title_completed : string := "üõ†Ô∏è ToolCallCompleted".

(** Body of the loop over the stream (lines 154-232); the pause of line
    156 changes nothing. *)
Definition on_chunk (chat_event_metadata_radio : string) (c : chunk) : stmt unit :=
  modify (set_current_run_id (run_id c));;
  (if decide (event c = tool_call_started) then
     modify (λ s, set_stream_response (stream_response s +:+ "
") s);;
     when (bool_decide (chat_event_metadata_radio = "ON")) (
       clear_loading;;
       modify (λ s, set_stream_response (stream_response s +:+ "
") s);;
       t ← the_tool c;
       append {| role := "assistant"; content := started_content t;
                 metadata := Some title_started |};;
       yield "..." false true)
   else if decide (event c = tool_call_completed) then
     when (bool_decide (chat_event_metadata_radio = "ON")) (
       clear_loading;;
       t ← the_tool c;
       custom_content ← lift (completed_content t);
       append {| role := "assistant"; content := custom_content;
                 metadata := Some title_completed |};;
       append (assistant "");;
       modify (set_stream_response "");;
       yield "..." false true)
   else mret tt);;
  when (bool_decide (event c = run_content)) (
    match chunk_content c with
    | Some text =>
        modify (λ s, set_stream_response (stream_response s +:+ text) s);;
        s ← get;
        set_last (assistant (stream_response s));;
        yield "..." false true
    | None => mret tt
    end).

(** Lines 252-255 and 298-301: the index of the last user message, or -1. *)
Fixpoint user_indices (i : Z) (l : list Message) : list Z :=
  match l with
  | [] => []
  | m :: l' =>
      (if decide (m_role m = "user") then [i] else []) ++ user_indices (i + 1) l'
  end.

Definition last_user_index (l : list Message) : Z :=
  foldl Z.max (-1) (user_indices 0 l).

Definition after_last_user (l : list Message) : list Message :=
  drop (Z.to_nat (last_user_index l + 1)) l.

Definition custom_content_started (m : Message) : string :=
  "
**Tool:** `" +:+ Py.fmt (m_tool_name m) +:+ "`
" +:+ "**Arguments:** `" +:+ Py.fmt (m_tool_args m) +:+ "`
".

Definition custom_content_completed (m : Message) (exec_time : string) : string :=
  let result_text :=
    match m_content m with
    | Some text => if Py.truthy text then Py.strip text else ""
    | None => ""
    end in
  "**Results:**
" +:+ result_text +:+ "
" +:+ "**Execution time:** " +:+ exec_time.

(** Lines 258-292. *)
Definition show_with_tools (m : Message) : stmt unit :=
  if decide (m_role m = "tool") then
    append {| role := "assistant"; content := custom_content_started m;
              metadata := Some title_started |};;
    append {| role := "assistant"; content := custom_content_completed m "N/A";
              metadata := Some title_completed |}
  else if decide (m_role m = "assistant") then
    append (assistant (default "" (m_content m)))
  else mret tt.

(** Lines 304-310. *)
Definition show_assistant_only (m : Message) : stmt unit :=
  when (bool_decide (m_role m = "assistant"))
    (append (assistant (default "" (m_content m)))).

Definition error_msg : string := "An error occurred while processing your request.".

(** Lines 134-339: the [try] statement. *)
Definition answer (agent : Agent) (chat_event_metadata_radio chat_stream_radio : string)
  : stmt unit :=
  try_finally
    (try_except
       (modify (set_stream_response "");;
        (if decide (chat_stream_radio = "ON") then
           for_ (streamed agent) (on_chunk chat_event_metadata_radio);;
           when (stream_raises agent) (raise AgentError)
         else if decide (chat_stream_radio = "OFF") then
           agent_response ← lift (awaited agent);
           clear_loading;;
           if decide (chat_event_metadata_radio = "ON")
           then for_ (after_last_user agent_response) show_with_tools
           else for_ (after_last_user agent_response) show_assistant_only
         else mret tt);;
        yield "Ask something..." true false)
       (set_last (assistant error_msg);;
        yield "Ask something..." true false))
    (set_running_agent None).

(** [get_response]: [got_agent] is what [get_agent] gives, an agent or
    the exception it raises, which is outside the [try]. *)
Definition get_response (user_msg : string) (history : list ChatMessage)
    (chat_event_metadata_radio chat_stream_radio : string)
    (got_agent : result Agent) : stmt unit :=
  modify (set_chat_history history);;
  append {| role := "user"; content := user_msg; metadata := None |};;
  append (assistant "### ...");;
  yield "..." false false;;
  agent ← lift got_agent;
  modify (set_running_agent (Some (agent_id agent)));;
  answer agent chat_event_metadata_radio chat_stream_radio.

(** The state in which a call starts: the globals as they are, nothing
    yielded yet. *)
Definition initial (g : globals) : state :=
  {| shared := g; chat_history := []; stream_response := ""; yielded := [] |}.

Definition idle : globals :=
  {| running_agent := None; current_run_id := None |}.

(** [stop_agent_running_stream]: the call of [cancel_run] it makes, if
    any, as the agent asked and the run named; and the globals afterwards. *)
Definition stop_agent_running_stream (g : globals) : option (nat * option string) * globals :=
  match running_agent g with
  | Some a =>
      (Some (a, current_run_id g),
       {| running_agent := None; current_run_id := current_run_id g |})
  | None => (None, g)
  end.

(** *** Several conversations

    Every conversation runs its own call of [get_response]; the calls
    share the globals and take turns at their suspension points.  What a
    call does to the globals is: assign its agent (line 125), assign the
    run of each event it receives (line 154), and drop the agent when it
    ends (line 339).  A user may press the stop button at any time. *)
Inductive action : Type :=
  | Begin (conversation : nat) (agent : nat)
  | Chunk (conversation : nat) (run : option string)
  | End_ (conversation : nat)
  | PressStop (conversation : nat).

(** The globals and the calls of [cancel_run] made so far. *)
Record world : Type := {
  now : globals;
  cancel_calls : list (nat * option string);
}.

Definition perform (w : world) (a : action) : world :=
  match a with
  | Begin _ agent =>
      {| now := {| running_agent := Some agent;
                   current_run_id := current_run_id (now w) |};
         cancel_calls := cancel_calls w |}
  | Chunk _ run =>
      {| now := {| running_agent := running_agent (now w); current_run_id := run |};
         cancel_calls := cancel_calls w |}
  | End_ _ =>
      {| now := {| running_agent := None; current_run_id := current_run_id (now w) |};
         cancel_calls := cancel_calls w |}
  | PressStop _ =>
      let '(call, g) := stop_agent_running_stream (now w) in
      {| now := g; cancel_calls := cancel_calls w ++ option_list call |}
  end.

Definition start_world : world :=
  {| now := idle; cancel_calls := [] |}.

Definition is_chunk (a : action) : Prop :=
  match a with
  | Chunk _ _ => True
  | _ => False
  end.

(** The controller as the specification wants it: one handle per
    conversation.  Every conversation has globals of its own, and the stop
    button of a conversation runs [stop_agent_running_stream] on them. *)
Record scoped_world : Type := {
  handles : gmap nat globals;
  scoped_cancel_calls : list (nat * option string);
}.

Definition handle_of (w : scoped_world) (conversation : nat) : globals :=
  default idle (handles w !! conversation).

Definition scoped_perform (w : scoped_world) (a : action) : scoped_world :=
  match a with
  | Begin c agent =>
      {| handles := <[c := {| running_agent := Some agent;
                              current_run_id := current_run_id (handle_of w c) |}]> (handles w);
         scoped_cancel_calls := scoped_cancel_calls w |}
  | Chunk c run =>
      {| handles := <[c := {| running_agent := running_agent (handle_of w c);
                              current_run_id := run |}]> (handles w);
         scoped_cancel_calls := scoped_cancel_calls w |}
  | End_ c =>
      {| handles := <[c := {| running_agent := None;
                              current_run_id := current_run_id (handle_of w c) |}]> (handles w);
         scoped_cancel_calls := scoped_cancel_calls w |}
  | PressStop c =>
      let '(call, g) := stop_agent_running_stream (handle_of w c) in
      {| handles := <[c := g]> (handles w);
         scoped_cancel_calls := scoped_cancel_calls w ++ option_list call |}
  end.

Definition scoped_start : scoped_world :=
  {| handles := ∅; scoped_cancel_calls := [] |}.

(** Two conversations in flight, each with an event received; then the
    user of the first one presses stop. *)
Definition two_in_flight : list action :=
  [ Begin 1 10; Begin 2 20;
    Chunk 1 (Some "run-of-1"); Chunk 2 (Some "run-of-2");
    PressStop 1 ].

(** The state in which the [try] statement starts (lines 93-125), for a
    call made when the globals are [g]. *)
Definition ready (user_msg : string) (history : list ChatMessage) (agent : Agent)
    (g : globals) : state :=
  let h := (history ++ [ {| role := "user"; content := user_msg; metadata := None |} ])
           ++ [assistant "### ..."] in
  {| shared := {| running_agent := Some (agent_id agent);
                  current_run_id := current_run_id g |};
     chat_history := h;
     stream_response := "";
     yielded := [ {| placeholder := "..."; interactive := false;
                     shown := h; stop_visible := false |} ] |}.

(** Where the loop over the stream stops: at its end, or at the event
    whose handling raises. *)
Definition stream_end (agent : Agent) (chat_event_metadata_radio : string) (s : state)
  : result unit * state :=
  for_ (streamed agent) (on_chunk chat_event_metadata_radio) (set_stream_response "" s).

(** The stream ends in an exception: the agent raises, or handling one of
    its events does. *)
Definition stream_fails (agent : Agent) (chat_event_metadata_radio : string) (s : state)
  : Prop :=
  stream_raises agent = true
  ∨ ∃ e, (stream_end agent chat_event_metadata_radio s).1 = Raise e.

(** The transcript that the specification expects after a failure: the
    error entry stands for everything the turn has produced. *)
Definition failure_transcript (history : list ChatMessage) (user_msg : string)
  : list ChatMessage :=
  history ++ [ {| role := "user"; content := user_msg; metadata := None |};
               assistant error_msg ].

(** A transcript without what the loading marker leaves: the marker
    itself, and the empty assistant entry that takes its place. *)
Definition without_placeholder (h : list ChatMessage) : list ChatMessage :=
  List.filter (λ m, negb (bool_decide (m = assistant "### ...") || bool_decide (m = assistant ""))) h.

(** A stream event that is not about a tool. *)
Definition quiet (c : chunk) : Prop :=
  event c ≠ tool_call_started ∧ event c ≠ tool_call_completed.

(** A content event carrying text. *)
Definition speaks (c : chunk) : Prop :=
  event c = run_content ∧ is_Some (chunk_content c).

(** The text of the content events of a stream, in order. *)
Fixpoint said (cs : list chunk) : string :=
  match cs with
  | [] => ""
  | c :: cs' =>
      match event c, chunk_content c with
      | run_content, Some text => text +:+ said cs'
      | _, _ => said cs'
      end
  end.

(** An entry like the one that a completed tool call adds (lines
    195-204): it has a title, and its content is what line 195 gives for
    some tool. *)
Definition completion (m : ChatMessage) : Prop :=
  is_Some (metadata m) ∧ ∃ t, completed_content t = Return (content m).

(** The transcript holds such an entry, and it is not the last one. *)
Definition completed_inside (h : list ChatMessage) : Prop :=
  ∃ pre m post, h = pre ++ m :: post ∧ post ≠ [] ∧ completion m.

(** A statement that leaves the globals alone, also when it raises. *)
Definition keeps_shared {A} (m : stmt A) : Prop :=
  ∀ s, shared (m s).2 = shared s.

(** What lines 164-165 leave of a transcript: the loading marker, when it
    is the last entry, gives way to an empty assistant entry. *)
Definition cleared (h : list ChatMessage) : list ChatMessage :=
  match last h with
  | Some m =>
      if decide (content m = "### ...")
      then <[pred (length h) := assistant ""]> h
      else h
  | None => h
  end.

(** The last entry exists and is an assistant entry. *)
Definition trailing_assistant (h : list ChatMessage) : Prop :=
  match last h with
  | Some m => role m = "assistant"
  | None => False
  end.

End Chat.

(** ** A worked conversation

    One turn: the user says hi, the agent calls the tool search with the
    argument q = x, which answers in one second, and then replies. *)

Module Scenario.

Definition stored_user : Session.message :=
  {| Session.msg_role := Some "user";
     Session.msg_content := Value (Session.Text "hi");
     Session.msg_tool_name := None;
     Session.msg_tool_args := None;
     Session.msg_tool_call_id := None |}.

Definition stored_tool : Session.message :=
  {| Session.msg_role := Some "tool";
     Session.msg_content := Value (Session.Text "3 results");
     Session.msg_tool_name := Some "search";
     Session.msg_tool_args := Some "{'q': 'x'}";
     Session.msg_tool_call_id := Some "1" |}.

Definition stored_reply : Session.message :=
  {| Session.msg_role := Some "assistant";
     Session.msg_content := Value (Session.Text "found it");
     Session.msg_tool_name := None;
     Session.msg_tool_args := None;
     Session.msg_tool_call_id := None |}.

Definition stored_run : Session.run :=
  {| Session.messages := [stored_user; stored_tool; stored_reply];
     Session.events := [ Session.tool_event "ToolCallStarted" "1" (Py.Int 0);
                         Session.tool_event "ToolCallCompleted" "1" (Py.Int 1) ] |}.

Definition search : Chat.ToolExecution :=
  {| Chat.tool_name := Some "search";
     Chat.tool_args := Some "{'q': 'x'}";
     Chat.tool_result := Some "3 results";
     Chat.metrics := Some {| Chat.duration := Some (Py.Float 1) |} |}.

Definition search_unmeasured : Chat.ToolExecution :=
  {| Chat.tool_name := Some "search";
     Chat.tool_args := Some "{'q': 'x'}";
     Chat.tool_result := Some "3 results";
     Chat.metrics := None |}.

Definition tool_chunk (e : Chat.RunEvent) (t : Chat.ToolExecution) : Chat.chunk :=
  {| Chat.run_id := Some "run-1"; Chat.event := e; Chat.tool := Some t;
     Chat.chunk_content := None |}.

Definition text_chunk (text : string) : Chat.chunk :=
  {| Chat.run_id := Some "run-1"; Chat.event := Chat.run_content; Chat.tool := None;
     Chat.chunk_content := Some text |}.

Definition stored_text (who text : string) : Session.message :=
  {| Session.msg_role := Some who;
     Session.msg_content := Value (Session.Text text);
     Session.msg_tool_name := None;
     Session.msg_tool_args := None;
     Session.msg_tool_call_id := None |}.

(** The stored run of a turn without tools: the user's message, then an
    assistant message holding the whole answer. *)
Definition stored_turn (user_msg text : string) (evs : list Session.event) : Session.run :=
  {| Session.messages := [stored_text "user" user_msg; stored_text "assistant" text];
     Session.events := evs |}.

(** An agent that streams an event of another kind and two text
    fragments. *)
Definition quiet_agent : Chat.Agent :=
  {| Chat.agent_id := 1%nat;
     Chat.streamed := [ {| Chat.run_id := Some "run-1"; Chat.event := Chat.other_event;
                           Chat.tool := None; Chat.chunk_content := None |};
                        text_chunk "found"; text_chunk " it" ];
     Chat.stream_raises := false;
     Chat.awaited := Raise AgentError |}.

(** A session in which the same question got the same answer twice. *)
Definition repeated_turn : list Session.run :=
  [ {| Session.messages := [stored_text "user" "q"; stored_text "assistant" "a"];
       Session.events := [] |};
    {| Session.messages := [stored_text "user" "q"; stored_text "assistant" "a"];
       Session.events := [] |} ].

(** The agent of the worked conversation, streamed. *)
Definition live_agent : Chat.Agent :=
  {| Chat.agent_id := 1%nat;
     Chat.streamed := [ tool_chunk Chat.tool_call_started search;
                        tool_chunk Chat.tool_call_completed search;
                        text_chunk "found it" ];
     Chat.stream_raises := false;
     Chat.awaited := Raise AgentError |}.

(** An agent whose stream gives some text, starts the tool and raises. *)
Definition failing_agent : Chat.Agent :=
  {| Chat.agent_id := 1%nat;
     Chat.streamed := [ text_chunk "Let me look"; tool_chunk Chat.tool_call_started search ];
     Chat.stream_raises := true;
     Chat.awaited := Raise AgentError |}.

(** The transcript and the locals when the stream starts. *)
Definition waiting : Chat.state :=
  {| Chat.shared := {| Chat.running_agent := Some 1%nat; Chat.current_run_id := None |};
     Chat.chat_history :=
       [ {| role := "user"; content := "hi"; metadata := None |};
         assistant "### ..." ];
     Chat.stream_response := "";
     Chat.yielded := [] |}.

End Scenario.

(** ** Summaries of a live turn *)

Module Turn.

(** A statement that keeps a property of the state, whether it returns or
    raises. *)
Definition keeps {A} (P : Chat.state → Prop) (m : Chat.stmt A) : Prop :=
  ∀ s, P s → P (m s).2.

(** A property of the transcript alone. *)
Definition of_transcript (Q : list ChatMessage → Prop) (s : Chat.state) : Prop :=
  Q (Chat.chat_history s).

(** The transcript [h] starts with [base] and goes on with assistant
    entries, at least one. *)
Definition extension (base h : list ChatMessage) : Prop :=
  ∃ rest, h = base ++ rest ∧ rest ≠ [] ∧ Forall (λ m, role m = "assistant") rest.

(** The yield of line 97. *)
Definition first_output (user_msg : string) (history : list ChatMessage) : Chat.output :=
  {| Chat.placeholder := "..."; Chat.interactive := false;
     Chat.shown := (history ++ [ {| role := "user"; content := user_msg; metadata := None |} ])
                   ++ [assistant "### ..."];
     Chat.stop_visible := false |}.

(** The yields of lines 313 and 329. *)
Definition last_output (h : list ChatMessage) : Chat.output :=
  {| Chat.placeholder := "Ask something..."; Chat.interactive := true;
     Chat.shown := h; Chat.stop_visible := false |}.

(** A yield made while the agent runs: the text box is locked and the
    stop button is shown. *)
Definition busy (o : Chat.output) : Prop :=
  Chat.placeholder o = "..." ∧ Chat.interactive o = false ∧ Chat.stop_visible o = true.

(** The yields so far: the first one, then busy ones. *)
Definition running (user_msg : string) (history : list ChatMessage) (s : Chat.state) : Prop :=
  ∃ middle, Chat.yielded s = first_output user_msg history :: middle ∧ Forall busy middle.

(** The event makes [on_chunk] yield, when nothing raises: a content
    event carrying text, or a tool event when tool metadata is shown. *)
Definition visible (chat_event_metadata_radio : string) (c : Chat.chunk) : bool :=
  match Chat.event c with
  | Chat.run_content => bool_decide (is_Some (Chat.chunk_content c))
  | Chat.tool_call_started | Chat.tool_call_completed =>
      bool_decide (chat_event_metadata_radio = "ON")
  | Chat.other_event => false
  end.

(** What the stream does to the buffer and to the last entry when tool
    metadata is off: a tool start adds a line break to the buffer, a text
    fragment is added to the buffer, which is then shown. *)
Fixpoint terse (buffer : string) (text : option string) (cs : list Chat.chunk)
  : option string :=
  match cs with
  | [] => text
  | c :: cs' =>
      match Chat.event c, Chat.chunk_content c with
      | Chat.tool_call_started, _ => terse (buffer +:+ "
") text cs'
      | Chat.run_content, Some fragment =>
          terse (buffer +:+ fragment) (Some (buffer +:+ fragment)) cs'
      | _, _ => terse buffer text cs'
      end
  end.

(** The entries that the awaited branch adds for a message (lines
    258-292 and 304-310). *)
Definition batch_entries (chat_event_metadata_radio : string) (m : Chat.Message)
  : list ChatMessage :=
  if decide (chat_event_metadata_radio = "ON") then
    if decide (Chat.m_role m = "tool") then
      [ {| role := "assistant"; content := Chat.custom_content_started m;
           metadata := Some Chat.title_started |};
        {| role := "assistant"; content := Chat.custom_content_completed m "N/A";
           metadata := Some Chat.title_completed |} ]
    else if decide (Chat.m_role m = "assistant") then
      [ assistant (default "" (Chat.m_content m)) ]
    else []
  else
    if decide (Chat.m_role m = "assistant") then
      [ assistant (default "" (Chat.m_content m)) ]
    else [].

(** An entry without metadata: not one of the two entries of a tool. *)
Definition plain (m : ChatMessage) : bool :=
  bool_decide (metadata m = None).

(** What the [try] statement does before its last yield (lines 135-310,
    after the buffer is set). *)
Definition work (agent : Chat.Agent) (chat_event_metadata_radio chat_stream_radio : string)
  : Chat.stmt unit :=
  if decide (chat_stream_radio = "ON") then
    Chat.for_ (Chat.streamed agent) (Chat.on_chunk chat_event_metadata_radio);;
    Chat.when (Chat.stream_raises agent) (Chat.raise AgentError)
  else if decide (chat_stream_radio = "OFF") then
    agent_response ← Chat.lift (Chat.awaited agent);
    Chat.clear_loading;;
    if decide (chat_event_metadata_radio = "ON")
    then Chat.for_ (Chat.after_last_user agent_response) Chat.show_with_tools
    else Chat.for_ (Chat.after_last_user agent_response) Chat.show_assistant_only
  else mret tt.

End Turn.

(** ** More sample values *)

Module Sample.

(** The response of the worked conversation, awaited. *)
Definition response : list Chat.Message :=
  [ {| Chat.m_role := "user"; Chat.m_content := Some "hi";
       Chat.m_tool_name := None; Chat.m_tool_args := None |};
    {| Chat.m_role := "tool"; Chat.m_content := Some " 3 results ";
       Chat.m_tool_name := Some "search"; Chat.m_tool_args := Some "{'q': 'x'}" |};
    {| Chat.m_role := "assistant"; Chat.m_content := Some "found it";
       Chat.m_tool_name := None; Chat.m_tool_args := None |} ].

Definition awaited_agent : Chat.Agent :=
  {| Chat.agent_id := 1%nat; Chat.streamed := []; Chat.stream_raises := false;
     Chat.awaited := Return response |}.

End Sample.

(** ** More of [str] *)

Module Str.

(** [s.split(sep)] for a separator of one character: the pieces between
    the separators, at least one piece. *)
Fixpoint split (sep : ascii) (s : string) : list string :=
  match s with
  | EmptyString => [""]
  | String c s' =>
      if Ascii.eqb c sep then "" :: split sep s'
      else
        match split sep s' with
        | piece :: pieces => String c piece :: pieces
        | [] => [String c ""]
        end
  end.

(** [s.split(sep, 1)]: the text before the first separator and the text
    after it, or the whole text when there is no separator. *)
Fixpoint split_once (sep : ascii) (s : string) : list string :=
  match s with
  | EmptyString => [""]
  | String c s' =>
      if Ascii.eqb c sep then [""; s']
      else
        match split_once sep s' with
        | piece :: pieces => String c piece :: pieces
        | [] => [String c ""]
        end
  end.

(** [s[n:]] *)
Fixpoint from (n : nat) (s : string) : string :=
  match n, s with
  | O, _ => s
  | S n', String _ s' => from n' s'
  | S _, EmptyString => ""
  end.

(** [l[i]] for [0 <= i] *)
Definition item {A} (l : list A) (i : nat) : result A :=
  match l !! i with
  | Some a => Return a
  | None => Raise IndexError
  end.

(** [s.startswith(p)] *)
Definition startswith (p s : string) : bool := String.prefix p s.

(** [sep in s] for a separator of one character. *)
Fixpoint contains (sep : ascii) (s : string) : bool :=
  match s with
  | EmptyString => false
  | String c s' => Ascii.eqb c sep || contains sep s'
  end.

End Str.

(** ** Choosing a model (utils/model_dropdown.py, utils/models.py, app.py) *)

Module Models.

(** Line 22 of utils/model_dropdown.py: the text before the first
    underscore. *)
Definition owner_of (model : string) : string :=
  match Str.split "_" model with
  | owner :: _ => owner
  | [] => ""
  end.

(** Line 24: the text after the owner and one more character. *)
Definition model_name_of (model : string) : string :=
  Str.from (String.length (owner_of model) + 1) model.

(** [d[key].append(value)] on a [defaultdict(list)], kept as the list of
    its items in the order the keys were first used. *)
Fixpoint append_to (key value : string) (d : list (string * list string))
  : list (string * list string) :=
  match d with
  | [] => [(key, [value])]
  | (k, values) :: d' =>
      if decide (k = key) then (k, values ++ [value]) :: d'
      else (k, values) :: append_to key value d'
  end.

(** [d[key]] on a [defaultdict(list)]: an unknown key reads as the empty
    list. *)
Fixpoint lookup (key : string) (d : list (string * list string)) : list string :=
  match d with
  | [] => []
  | (k, values) :: d' => if decide (k = key) then values else lookup key d'
  end.

(** The loop of lines 20-25, from a dictionary [owner_to_models]. *)
Definition grouped (owner_to_models : list (string * list string)) (MODELS : list string)
  : list (string * list string) :=
  foldl (λ owner_to_models model,
           let owner := owner_of model in
           let model_name := model_name_of model in
           append_to owner model_name owner_to_models)
        owner_to_models MODELS.

(** [get_owners_to_models], for the list [settings.MODELS]. *)
Definition get_owners_to_models (MODELS : list string) : list (string * list string) :=
  grouped [] MODELS.

(** [gr.Dropdown(choices=.., value=..)] *)
Record dropdown : Type := {
  choices : list string;
  value : string;
}.

Definition update_model_name_dropdown (MODELS : list string) (selected_owner : string)
  : result dropdown :=
  let owner_to_models := get_owners_to_models MODELS in
  let models := lookup selected_owner owner_to_models in
  first ← Str.item models 0;
  Return {| choices := models; value := first |}.

Definition get_full_model_name (owner model_name : string) : string :=
  owner +:+ "_" +:+ model_name.

(** Lines 37-39 of app.py: the model selected when the page opens. *)
Definition first_full_model_name (MODELS : list string) : result string :=
  let owner_to_models := get_owners_to_models MODELS in
  let owners := owner_to_models.*1 in
  owner ← Str.item owners 0;
  first ← Str.item (lookup owner owner_to_models) 0;
  Return (owner +:+ "_" +:+ first).

(** Lines 405-412 of app.py: the handler of a change of owner. *)
Definition owner_changed (MODELS : list string) (selected_owner : string)
  : result (dropdown * string) :=
  let owner_to_models := get_owners_to_models MODELS in
  d ← update_model_name_dropdown MODELS selected_owner;
  first ← Str.item (lookup selected_owner owner_to_models) 0;
  Return (d, get_full_model_name selected_owner first).

(** The model objects of utils/models.py, with the arguments they are
    built with. *)
Inductive model : Type :=
  | OpenAIChat (id : string) (api_key : option string) (temperature top_p : Py.number)
      (max_retries : Z) (max_completion_tokens : Z)
  | Gemini (id : string) (api_key : option string) (temperature top_p top_k : Py.number)
      (max_output_tokens : Z)
  | Groq (id : string) (api_key : option string) (temperature top_p : Py.number)
      (max_retries : Z) (max_tokens : Z)
  | Nvidia (id : string) (api_key : option string) (temperature top_p : Py.number)
      (max_retries : Z) (max_completion_tokens : Z)
  | Ollama (id : string) (host : string).

(** [get_model]; [environ] is the process environment and [OLLAMA_URL]
    the setting of that name.  The result is [None] when no branch
    returns. *)
Definition get_model (environ : gmap string string) (OLLAMA_URL : string)
    (llm_type : string) (llm_temp llm_top_p llm_top_k : Py.number) (max_tokens : Z)
  : result (option model) :=
  if Str.startswith "OpenAI" llm_type then
    model ← Str.item (Str.split_once "_" llm_type) 1;
    Return (Some (OpenAIChat model (environ !! "OPENAI_API_KEY") llm_temp llm_top_p 3 max_tokens))
  else if Str.startswith "Google" llm_type then
    model ← Str.item (Str.split_once "_" llm_type) 1;
    Return (Some (Gemini model (environ !! "GOOGLE_API_KEY") llm_temp llm_top_p llm_top_k
                    max_tokens))
  else if Str.startswith "Groq" llm_type then
    model ← Str.item (Str.split_once "_" llm_type) 1;
    Return (Some (Groq model (environ !! "GROQ_API_KEY") llm_temp llm_top_p 3 max_tokens))
  else if Str.startswith "Nvidia" llm_type then
    model ← Str.item (Str.split_once "_" llm_type) 1;
    Return (Some (Nvidia model (environ !! "NVIDIA_API_KEY") llm_temp llm_top_p 3 max_tokens))
  else if Str.startswith "Ollama" llm_type then
    model ← Str.item (Str.split_once "_" llm_type) 1;
    Return (Some (Ollama model OLLAMA_URL))
  else Return None.

(** The name of the class of a model. *)
Definition provider (m : model) : string :=
  match m with
  | OpenAIChat _ _ _ _ _ _ => "OpenAI"
  | Gemini _ _ _ _ _ _ => "Google"
  | Groq _ _ _ _ _ _ => "Groq"
  | Nvidia _ _ _ _ _ _ => "Nvidia"
  | Ollama _ _ => "Ollama"
  end.

Definition id_of (m : model) : string :=
  match m with
  | OpenAIChat id _ _ _ _ _ | Gemini id _ _ _ _ _ | Groq id _ _ _ _ _
  | Nvidia id _ _ _ _ _ | Ollama id _ => id
  end.

(** The prefixes [get_model] tests, in its order. *)
Definition providers : list string := ["OpenAI"; "Google"; "Groq"; "Nvidia"; "Ollama"].

Definition known (llm_type : string) : bool :=
  existsb (λ p, Str.startswith p llm_type) providers.

End Models.

(** ** The reasoning selection (app.py, utils/agent.py, utils/process_chat.py) *)

Module Reasoning.

(** [l[-1]] *)
Definition last_item {A} (l : list A) : result A :=
  match last l with
  | Some a => Return a
  | None => Raise IndexError
  end.

(** Line 385 of app.py, the handler of a change of the check boxes. *)
Definition keep_one (selected : list string) : result (list string) :=
  if bool_decide (selected ≠ []) && bool_decide (1 < length selected)%nat then
    item ← last_item selected;
    Return [item]
  else Return selected.

(** Lines 59-62 of utils/agent.py: the [reasoning] argument of the
    agent. *)
Definition reasonig_var (chat_event_reasoning : list string) : bool :=
  match chat_event_reasoning with
  | [] => false
  | first :: _ => bool_decide (first = "Agent")
  end.

Inductive tool : Type :=
  | ReasoningTools (add_instructions : bool)
  | MultiMCPTools.

#[global] Instance tool_eq_dec : EqDecision tool.
Proof. solve_decision. Defined.

(** Lines 128-141 of utils/process_chat.py: [agent.tools] when the run
    starts. *)
Definition tools (chat_event_reasoning : list string) (mcp_tools_radio : string)
  : list tool :=
  let tools := [] in
  let tools :=
    match chat_event_reasoning with
    | first :: _ =>
        if bool_decide (first = "Tool") && bool_decide (mcp_tools_radio = "ON")
        then tools ++ [ReasoningTools true] else tools
    | [] => tools
    end in
  if decide (mcp_tools_radio = "ON") then tools ++ [MultiMCPTools] else tools.

End Reasoning.

(** ** New session identifiers (utils/process_session.py) *)

Module Fresh.

(** The fields of [datetime.now()] that the identifier uses. *)
Record datetime : Type := {
  year : Z;
  month : Z;
  day : Z;
  hour : Z;
  minute : Z;
  second : Z;
}.

(** [%d], [%m], [%H], [%M], [%S]: two digits. *)
Definition two (n : Z) : string :=
  if decide (n < 10) then "0" +:+ pretty n else pretty n.

(** [strftime("%d-%m-%Y_%H:%M:%S")], for a year of four digits. *)
Definition strftime (now : datetime) : string :=
  two (day now) +:+ "-" +:+ two (month now) +:+ "-" +:+ pretty (year now) +:+ "_"
  +:+ two (hour now) +:+ ":" +:+ two (minute now) +:+ ":" +:+ two (second now).

(** [get_unique_session_id], from the time and the text of the UUID that
    the call draws. *)
Definition get_unique_session_id (now : datetime) (uuid4 : string) : string :=
  let timestamp := strftime now in
  let parts := Str.split "-" uuid4 in
  let short_hash := Py.join "-" (take 4 parts) in
  timestamp +:+ "___" +:+ short_hash.

End Fresh.

(** ** The database file (utils/process_session.py, utils/process_memory.py) *)

Module Store.

(** A row of [agent_sessions] and a row of [user_memories], with the
    columns the code names; [None] is SQL's [NULL]. *)
Record session_row : Type := {
  session_id : string;
  user_id : option string;
  runs : option string;
}.

Record memory_row : Type := {
  memory_user_id : option string;
  memory : string;
}.

(** The tables of the file; a table is [None] until the agent creates it,
    and its rows are in the order a query returns them. *)
Record tables : Type := {
  agent_sessions : option (list session_row);
  user_memories : option (list memory_row);
}.

(** The file [settings.DB_FILE]: not there (and whether its directory is
    there or can be made), not an SQLite database, or a database, which
    may refuse writes (a read-only or locked file). *)
Inductive file : Type :=
  | NoFile (directory : bool)
  | Corrupt
  | Database (t : tables) (read_only : bool).

#[global] Instance session_row_eq_dec : EqDecision session_row.
Proof. solve_decision. Defined.
#[global] Instance memory_row_eq_dec : EqDecision memory_row.
Proof. solve_decision. Defined.
#[global] Instance tables_eq_dec : EqDecision tables.
Proof. solve_decision. Defined.
#[global] Instance file_eq_dec : EqDecision file.
Proof. solve_decision. Defined.

(** [ensure_tmp_directory] and [sqlite3.connect], with the first
    statement run on the connection: a new file is an empty database;
    without the directory, or on a file that is no database, an
    [sqlite3.Error] is raised. *)
Definition connect (db : file) : result tables * file :=
  match db with
  | NoFile true =>
      let t := {| agent_sessions := None; user_memories := None |} in
      (Return t, Database t false)
  | NoFile false => (Raise Sqlite3Error, db)
  | Corrupt => (Raise Sqlite3Error, db)
  | Database t _ => (Return t, db)
  end.

(** A [DELETE] and its [commit] on an open database, leaving the tables
    [t]: an [sqlite3.Error] when the file refuses writes. *)
Definition write (t : tables) (db : file) : result unit * file :=
  match db with
  | Database _ false => (Return tt, Database t false)
  | _ => (Raise Sqlite3Error, db)
  end.

(** [column = ?] with a bound parameter: [NULL] equals nothing. *)
Definition sql_eq (column parameter : option string) : bool :=
  match column, parameter with
  | Some a, Some b => bool_decide (a = b)
  | _, _ => false
  end.

(** [gr.update(choices=..)], and [gr.update(choices=.., value=None)]
    which also clears the selection. *)
Record radio : Type := {
  choices : list string;
  clears_value : bool;
}.

(** [gr.update(visible=..)] *)
Record visibility : Type := {
  visible : bool;
}.

(** A message shown by [gr.Warning], [gr.Success] or [gr.Error]. *)
Inductive notice : Type :=
  | Warning (text : string)
  | Success (text : string)
  | Error (text : string).

(** What a handler that shows a message does: the value it returns, the
    message, and the file it leaves. *)
Record outcome (A : Type) : Type := {
  returned : A;
  shown : notice;
  left_file : file;
}.
Arguments returned {A} o.
Arguments shown {A} o.
Arguments left_file {A} o.

Definition owned_by (username : option string) (row : session_row) : bool :=
  sql_eq (user_id row) username.

Definition get_session_ids_from_db (username : option string) (db : file)
  : radio * file :=
  match connect db with
  | (Return t, db) =>
      let session_ids :=
        match agent_sessions t with
        | Some rows => session_id <$> List.filter (owned_by username) rows
        | None => []
        end in
      ({| choices := reverse session_ids; clears_value := false |}, db)
  | (Raise _, db) => ({| choices := reverse []; clears_value := false |}, db)
  end.

(** [not session_id] *)
Definition unselected (session_id : option string) : bool :=
  match session_id with
  | Some s => negb (Py.truthy s)
  | None => true
  end.

(** The rows the [WHERE] clause of lines 142-148 and 291-297 selects. *)
Definition selected (session username : option string) (row : session_row) : bool :=
  sql_eq (Some (session_id row)) session && sql_eq (user_id row) username.

Definition small : update :=
  {| min_height := 350; max_height := 350; latex_delimiters := None |}.

Definition delete_session_from_db (session_id username : option string) (db : file)
  : outcome (radio * list ChatMessage * update) :=
  let failed db :=
    let '(ids, db) := get_session_ids_from_db username db in
    {| returned := (ids, [], small);
       shown := Error "Database error deleting session.";
       left_file := db |} in
  if unselected session_id then
    let '(ids, db) := get_session_ids_from_db username db in
    {| returned := (ids, [], small);
       shown := Warning "No session selected for deletion.";
       left_file := db |}
  else
    match connect db with
    | (Return t, db) =>
        match agent_sessions t with
        | Some rows =>
            let kept :=
              List.filter (λ row, negb (selected session_id (Some (Py.fmt username)) row))
                          rows in
            match write {| agent_sessions := Some kept;
                           user_memories := user_memories t |} db with
            | (Return _, db) =>
                let '(ids, db) := get_session_ids_from_db username db in
                {| returned := (ids, [], small);
                   shown := Success "Deleted session.";
                   left_file := db |}
            | (Raise _, db) => failed db
            end
        | None => failed db
        end
    | (Raise _, db) => failed db
    end.

(** [DB_FILE] is [settings.DB_FILE], the name the error branch lists the
    sessions of. *)
Definition delete_all_sessions_from_db (DB_FILE : string) (username : option string)
    (db : file)
  : outcome (radio * list ChatMessage * visibility) :=
  let failed db :=
    let '(ids, db) := get_session_ids_from_db (Some DB_FILE) db in
    {| returned := (ids, [], {| visible := false |});
       shown := Error "Database error deleting all sessions.";
       left_file := db |} in
  match connect db with
  | (Return t, db) =>
      match agent_sessions t with
      | Some rows =>
          let kept := List.filter (λ row, negb (owned_by username row)) rows in
          match write {| agent_sessions := Some kept;
                         user_memories := user_memories t |} db with
          | (Return _, db) =>
              {| returned := ({| choices := []; clears_value := true |}, [],
                              {| visible := false |});
                 shown := Success "Deleted ALL sessions.";
                 left_file := db |}
          | (Raise _, db) => failed db
          end
      | None => failed db
      end
  | (Raise _, db) => failed db
  end.

(** Lines 137-150 of [load_sessions_history]: the query for the runs of a
    session. *)
Definition fetch_runs (session_id username : option string) (db : file)
  : Session.fetched * file :=
  match connect db with
  | (Return t, db) =>
      match agent_sessions t with
      | Some rows =>
          (Session.Row (runs <$> head (List.filter (selected session_id username) rows)), db)
      | None => (Session.DbError, db)
      end
  | (Raise _, db) => (Session.DbError, db)
  end.

Section Load.

Variable json_loads_twice : string → result (list Session.run).

(** [load_sessions_history] on the file. *)
Definition load_sessions_history (session_id username : option string)
    (chat_event_metadata_radio latex_mode_radio : string) (db : file)
  : (list ChatMessage * update) * file :=
  let '(result, db) := fetch_runs session_id username db in
  (Session.load_sessions_history json_loads_twice result
     chat_event_metadata_radio latex_mode_radio, db).

End Load.

Definition init_user_and_sessions (username : option string) (db : file)
  : (option string * radio * string) * file :=
  let '(session_ids, db) := get_session_ids_from_db username db in
  ((username, session_ids, "<h3><b>" +:+ Py.fmt username +:+ "</b></h3>"), db).

(** [os.path.exists(db_path)] *)
Definition exists_ (db : file) : bool :=
  match db with
  | NoFile _ => false
  | Corrupt | Database _ _ => true
  end.

Definition remembered_by (username : option string) (row : memory_row) : bool :=
  sql_eq (memory_user_id row) username.

(** [clear_long_term_memory] of utils/process_memory.py. *)
Definition clear_long_term_memory (DB_FILE : string) (username : option string)
    (db : file) : outcome visibility :=
  let hidden := {| visible := false |} in
  let failed db :=
    {| returned := hidden; shown := Error "Error clearing memory."; left_file := db |} in
  if negb (exists_ db) then
    {| returned := hidden;
       shown := Warning ("Database not found: " +:+ DB_FILE);
       left_file := db |}
  else
    match connect db with
    | (Return t, db) =>
        match user_memories t with
        | None =>
            {| returned := hidden;
               shown := Warning "Table 'user_memories' does not exist.";
               left_file := db |}
        | Some rows =>
            let count := length (List.filter (remembered_by username) rows) in
            if decide (count = 0%nat) then
              {| returned := hidden;
                 shown := Warning ("No records found for user '" +:+ Py.fmt username +:+ "'");
                 left_file := db |}
            else
              let kept := List.filter (λ row, negb (remembered_by username row)) rows in
              match write {| agent_sessions := agent_sessions t;
                             user_memories := Some kept |} db with
              | (Return _, db) =>
                  {| returned := hidden;
                     shown := Success ("Long-term memory erased for the user '"
                                       +:+ Py.fmt username +:+ "'.");
                     left_file := db |}
              | (Raise _, db) => failed db
              end
        end
    | (Raise _, db) => failed db
    end.

(** The rows of the two tables of a file, none where there is no table. *)
Definition sessions (db : file) : list session_row :=
  match db with
  | Database t _ => default [] (agent_sessions t)
  | _ => []
  end.

Definition memories (db : file) : list memory_row :=
  match db with
  | Database t _ => default [] (user_memories t)
  | _ => []
  end.

(** The sessions table of a file, if it has one. *)
Definition agent_sessions_of (db : file) : option (list session_row) :=
  match db with
  | Database t _ => agent_sessions t
  | _ => None
  end.

(** Whether the file is a database that refuses writes. *)
Definition refuses_writes (db : file) : bool :=
  match db with
  | Database _ read_only => read_only
  | _ => false
  end.

End Store.

Module Stored.

(** A file with three sessions of two users and two memories. *)
Definition rows : list Store.session_row :=
  [ {| Store.session_id := "s1"; Store.user_id := Some "ann"; Store.runs := Some "[]" |};
    {| Store.session_id := "s2"; Store.user_id := Some "bob"; Store.runs := None |};
    {| Store.session_id := "s3"; Store.user_id := Some "ann"; Store.runs := None |} ].

Definition notes : list Store.memory_row :=
  [ {| Store.memory_user_id := Some "ann"; Store.memory := "likes tea" |};
    {| Store.memory_user_id := Some "bob"; Store.memory := "likes coffee" |} ].

Definition file : Store.file :=
  Store.Database {| Store.agent_sessions := Some rows; Store.user_memories := Some notes |}
                 false.

End Stored.

(** * Properties *)

(** ** Running statements *)

Section Running.
Import Chat.

Lemma run_bind {A B} (m : stmt A) (k : A → stmt B) (s : state) :
  (m ≫= k) s =
  match m s with
  | (Return a, s') => k a s'
  | (Raise e, s') => (Raise e, s')
  end.
Proof. reflexivity. Qed.

Lemma run_modify f s : modify f s = (Return tt, f s).
Proof. reflexivity. Qed.

Lemma run_append m s :
  append m s = (Return tt, set_chat_history (chat_history s ++ [m]) s).
Proof. reflexivity. Qed.

Lemma run_yield ph i st s :
  yield ph i st s =
  (Return tt, add_yielded {| placeholder := ph; interactive := i;
                             shown := chat_history s; stop_visible := st |} s).
Proof. reflexivity. Qed.

Lemma run_ret {A} (a : A) (s : state) : (mret a : stmt A) s = (Return a, s).
Proof. reflexivity. Qed.

Lemma run_lift {A} (r : result A) (s : state) : lift r s = (r, s).
Proof. reflexivity. Qed.

Lemma run_get s : get s = (Return s, s).
Proof. reflexivity. Qed.

Lemma last_insert_pred (h : list ChatMessage) (m : ChatMessage) :
  h ≠ [] → <[pred (length h) := m]> h = removelast h ++ [m].
Proof.
  intros Hne. destruct (exists_last Hne) as (h' & a & ->).
  rewrite removelast_last, length_app. simpl.
  replace (pred (length h' + 1)) with (length h' + 0)%nat by lia.
  by rewrite insert_app_r.
Qed.

Lemma run_set_last m s :
  chat_history s ≠ [] →
  set_last m s =
  (Return tt,
   set_chat_history (<[pred (length (chat_history s)) := m]> (chat_history s)) s).
Proof. intros. unfold set_last. by destruct (chat_history s). Qed.

Lemma run_clear_loading s :
  chat_history s ≠ [] →
  clear_loading s = (Return tt, set_chat_history (cleared (chat_history s)) s).
Proof.
  intros Hne. unfold clear_loading, cleared, last_entry, mbind, stmt_bind.
  destruct (last (chat_history s)) as [m|] eqn:Hl.
  - unfold when. case_bool_decide; destruct (decide _); try done.
    + unfold set_last. destruct (chat_history s) eqn:E; done.
    + unfold mret, stmt_ret. destruct s; done.
  - apply last_None in Hl. done.
Qed.

End Running.

Ltac run :=
  repeat first
    [ rewrite run_bind
    | rewrite run_modify
    | rewrite run_append
    | rewrite run_yield
    | rewrite run_ret
    | rewrite run_lift
    | rewrite run_get
    | rewrite run_clear_loading by (simpl; done)
    | rewrite run_set_last by (simpl; done) ];
  simpl.

(** ** The trailing entry during streaming *)

Section Trailing.
Import Chat.

Lemma trailing_assistant_nonempty h : trailing_assistant h → h ≠ [].
Proof. by destruct h. Qed.

Lemma trailing_assistant_snoc h m :
  role m = "assistant" → trailing_assistant (h ++ [m]).
Proof. intros. unfold trailing_assistant. by rewrite last_snoc. Qed.

Lemma trailing_assistant_set_last h m :
  h ≠ [] → role m = "assistant" → trailing_assistant (<[pred (length h) := m]> h).
Proof. intros. rewrite last_insert_pred by done. by apply trailing_assistant_snoc. Qed.

Lemma trailing_assistant_cleared h :
  trailing_assistant h → trailing_assistant (cleared h).
Proof.
  intros H. unfold cleared. destruct (last h) eqn:E; [|done].
  destruct (decide _); [|done].
  apply trailing_assistant_set_last; [|done]. by apply trailing_assistant_nonempty.
Qed.

(** Whatever an event does, and even when handling it raises, the last
    entry stays an assistant entry. *)
Lemma on_chunk_trailing_assistant meta c s :
  trailing_assistant (chat_history s) →
  trailing_assistant (chat_history (on_chunk meta c s).2).
Proof.
  intros Hinv. pose proof (trailing_assistant_nonempty _ Hinv) as Hne.
  pose proof (trailing_assistant_cleared _ Hinv) as Hcl.
  unfold on_chunk, when, the_tool.
  destruct (event c); simpl; run.
  - case_bool_decide; run; [|done].
    destruct (tool c); run; [|done].
    by apply trailing_assistant_snoc.
  - case_bool_decide; run; [|done].
    destruct (tool c) as [t|]; run; [|done].
    destruct (completed_content t); run; [|done].
    by apply trailing_assistant_snoc.
  - destruct (chunk_content c); run; [|done].
    by apply trailing_assistant_set_last.
  - done.
Qed.

End Trailing.

(** ** Content events *)

Section Content.
Import Chat.

(** C8.  A content event whose content is text extends the buffer by the
    fragment, writes the whole buffer over the last entry of the
    transcript, which is an assistant entry and stays one, without
    changing the number of entries, and yields the transcript; the
    metadata switch [meta] plays no part. *)
Theorem run_content_overwrites_trailing_entry
    (meta : string) (c : chunk) (text : string) (s : state) :
  event c = run_content → chunk_content c = Some text →
  trailing_assistant (chat_history s) →
  let buffer := stream_response s +:+ text in
  let h := removelast (chat_history s) ++ [assistant buffer] in
  on_chunk meta c s =
    (Return tt,
     {| shared := {| running_agent := running_agent (shared s);
                     current_run_id := run_id c |};
        chat_history := h;
        stream_response := buffer;
        yielded := yielded s ++
          [ {| placeholder := "..."; interactive := false;
               shown := h; stop_visible := true |} ] |})
  ∧ length h = length (chat_history s)
  ∧ trailing_assistant h.
Proof.
  intros He Hc Hinv buffer h. pose proof (trailing_assistant_nonempty _ Hinv) as Hne.
  split; [|split].
  - unfold on_chunk. rewrite He, Hc. simpl. run.
    rewrite last_insert_pred by done. done.
  - subst h. destruct (exists_last Hne) as (h' & a & ->).
    rewrite removelast_last. by rewrite !length_app.
  - by apply trailing_assistant_snoc.
Qed.

Lemma run_content_overwrites_trailing_entry_witness :
  trailing_assistant (chat_history Scenario.waiting) ∧
  (on_chunk "OFF" (Scenario.text_chunk "found") Scenario.waiting).1 = Return tt ∧
  chat_history (on_chunk "OFF" (Scenario.text_chunk "found") Scenario.waiting).2 =
    [ {| role := "user"; content := "hi"; metadata := None |}; assistant "found" ].
Proof.
  assert (Hinv : trailing_assistant (chat_history Scenario.waiting)) by reflexivity.
  split; [exact Hinv|].
  destruct (run_content_overwrites_trailing_entry "OFF" (Scenario.text_chunk "found")
              "found" Scenario.waiting eq_refl eq_refl Hinv) as (-> & _ & _).
  split; reflexivity.
Defined.

(** C10.  With the metadata switch on, a completed tool call without
    metrics adds an entry whose content is the execution-time line alone:
    the result of the tool is not in it. *)
Theorem completed_without_metrics_shows_only_na
    (c : chunk) (t : ToolExecution) (s : state) :
  event c = tool_call_completed → tool c = Some t → metrics t = None →
  chat_history s ≠ [] →
  ∃ s', on_chunk "ON" c s = (Return tt, s') ∧
    chat_history s' = cleared (chat_history s) ++
      [ {| role := "assistant";
           content := "**Execution time:** N/A
";
           metadata := Some Chat.title_completed |};
        assistant "" ].
Proof.
  intros He Ht Hm Hne.
  unfold on_chunk. rewrite He. simpl.
  unfold the_tool, completed_content. rewrite Ht.
  run. rewrite Hm. run.
  eexists; split; [reflexivity|]. simpl. by rewrite <- app_assoc.
Qed.

Lemma completed_without_metrics_shows_only_na_witness :
  chat_history Scenario.waiting ≠ [] ∧
  ∃ s', on_chunk "ON" (Scenario.tool_chunk tool_call_completed Scenario.search_unmeasured)
          Scenario.waiting = (Return tt, s') ∧
    chat_history s' =
      [ {| role := "user"; content := "hi"; metadata := None |};
        assistant "";
        {| role := "assistant";
           content := "**Execution time:** N/A
";
           metadata := Some Chat.title_completed |};
        assistant "" ].
Proof.
  split; [discriminate|].
  apply (completed_without_metrics_shows_only_na
           (Scenario.tool_chunk tool_call_completed Scenario.search_unmeasured)
           Scenario.search_unmeasured Scenario.waiting);
    [reflexivity | reflexivity | reflexivity | discriminate].
Defined.

End Content.

(** ** The duplicate filter *)

Section Dedupe.
Import Session.

Lemma foldl_keep_unseen l seen acc :
  (foldl keep_unseen (seen, acc) l).2 = acc ++ unseen seen l.
Proof.
  revert seen acc. induction l as [|msg l IH]; intros seen acc; simpl.
  - by rewrite app_nil_r.
  - fold (identifier msg). destruct (decide (identifier msg ∉ seen)).
    + rewrite IH. by rewrite <- app_assoc.
    + apply IH.
Qed.

Lemma dedupe_unseen l : dedupe l = unseen ∅ l.
Proof. unfold dedupe. by rewrite foldl_keep_unseen. Qed.

Lemma unseen_retain_first seen before l :
  (∀ i, i ∈ seen ↔ i ∈ identifier <$> before) →
  unseen seen l = retain_first before l.
Proof.
  revert seen before. induction l as [|msg l IH]; intros seen before Hs; simpl; [done|].
  assert (∀ i, i ∈ {[identifier msg]} ∪ seen ↔ i ∈ identifier <$> (before ++ [msg])) as Hs'.
  { intros i. rewrite fmap_app, elem_of_app, elem_of_union, Hs. simpl.
    rewrite list_elem_of_singleton, elem_of_singleton. tauto. }
  destruct (decide (identifier msg ∉ seen)) as [Hn|Hn];
    destruct (decide (identifier msg ∈ identifier <$> before)) as [Hb|Hb].
  - exfalso. apply Hn. by apply Hs.
  - f_equal. by apply IH.
  - apply IH. intros i. rewrite <- Hs', elem_of_union, elem_of_singleton.
    split; [tauto|]. intros [->|?]; [|done]. by apply Hs.
  - exfalso. apply Hn. intros Hin. apply Hb. by apply Hs.
Qed.

Lemma unseen_sublist seen l : sublist (unseen seen l) l.
Proof.
  revert seen. induction l as [|msg l IH]; intros seen; simpl; [constructor|].
  destruct (decide _); by constructor.
Qed.

Lemma unseen_fresh seen l msg : msg ∈ unseen seen l → identifier msg ∉ seen.
Proof.
  revert seen. induction l as [|m l IH]; intros seen; simpl; [by intros ?%elem_of_nil|].
  destruct (decide _) as [Hn|Hn].
  - intros [->|Hin]%elem_of_cons; [done|]. apply IH in Hin.
    intros ?. apply Hin, elem_of_union. by right.
  - apply IH.
Qed.

Lemma unseen_fixed seen l :
  NoDup (identifier <$> l) → (∀ msg, msg ∈ l → identifier msg ∉ seen) →
  unseen seen l = l.
Proof.
  revert seen. induction l as [|m l IH]; intros seen Hnd Hfresh; simpl; [done|].
  apply NoDup_cons in Hnd as [Hm Hnd].
  destruct (decide _) as [Hn|Hn].
  - f_equal. apply IH; [done|]. intros msg Hin.
    pose proof (Hfresh msg ltac:(by right)).
    assert (identifier msg ≠ identifier m).
    { intros E. apply Hm. rewrite <- E. by apply list_elem_of_fmap_2. }
    rewrite elem_of_union, elem_of_singleton. tauto.
  - exfalso. apply Hn. apply Hfresh. by left.
Qed.

Lemma unseen_NoDup seen l : NoDup (identifier <$> unseen seen l).
Proof.
  revert seen. induction l as [|m l IH]; intros seen; simpl; [constructor|].
  destruct (decide _) as [Hn|Hn]; [|apply IH].
  simpl. apply NoDup_cons. split; [|apply IH].
  intros (msg & E & Hin)%list_elem_of_fmap. apply unseen_fresh in Hin.
  apply Hin, elem_of_union. left. by apply elem_of_singleton.
Qed.

Lemma unseen_complete seen l msg :
  msg ∈ l → identifier msg ∈ seen ∨ identifier msg ∈ identifier <$> unseen seen l.
Proof.
  revert seen. induction l as [|m l IH]; intros seen; [by intros ?%elem_of_nil|].
  simpl. intros [->|Hin]%elem_of_cons.
  - destruct (decide _) as [Hn|Hn].
    + right. simpl. by left.
    + left. by apply dec_stable.
  - destruct (decide _) as [Hn|Hn].
    + destruct (IH ({[identifier m]} ∪ seen) Hin) as [[E|?]%elem_of_union|?].
      * right. apply elem_of_singleton in E. rewrite E. simpl. by left.
      * by left.
      * right. simpl. by right.
    + by apply IH.
Qed.

Lemma retain_first_snoc before l msg :
  retain_first before (l ++ [msg]) =
  retain_first before l ++
  (if decide (identifier msg ∈ identifier <$> (before ++ l)) then [] else [msg]).
Proof.
  revert before. induction l as [|m l IH]; intros before; simpl.
  - rewrite app_nil_r. by destruct (decide _).
  - rewrite IH. rewrite <- app_assoc. simpl. by destruct (decide (identifier m ∈ _)).
Qed.

Lemma dedupe_first_occurrences l : dedupe l = first_occurrences l.
Proof.
  rewrite dedupe_unseen. apply unseen_retain_first.
  intros i. simpl. split; [by intros ?%elem_of_empty|by intros ?%elem_of_nil].
Qed.

(** C5.  The filter keeps, in their order, the entries that no earlier
    entry matches in role and content: it agrees with the filter of the
    specification, filtering twice changes nothing, what is kept is a
    subsequence of the transcript in which no role and content occur
    twice and every role and content of the transcript occur, and an
    added entry is kept exactly when its role and content are new,
    whatever its metadata. *)
Theorem dedupe_keeps_first_occurrences (x : list ChatMessage) :
  dedupe x = first_occurrences x
  ∧ dedupe (dedupe x) = dedupe x
  ∧ sublist (dedupe x) x
  ∧ NoDup (identifier <$> dedupe x)
  ∧ (∀ msg, msg ∈ x → identifier msg ∈ identifier <$> dedupe x)
  ∧ (∀ msg, dedupe (x ++ [msg]) =
       if decide (identifier msg ∈ identifier <$> x) then dedupe x else dedupe x ++ [msg])
  ∧ (∀ r c m1 m2,
       dedupe [ {| role := r; content := c; metadata := m1 |};
                {| role := r; content := c; metadata := m2 |} ] =
       [ {| role := r; content := c; metadata := m1 |} ]).
Proof.
  repeat split.
  - apply dedupe_first_occurrences.
  - rewrite !dedupe_unseen. apply unseen_fixed; [apply unseen_NoDup|].
    intros msg _. apply not_elem_of_empty.
  - rewrite dedupe_unseen. apply unseen_sublist.
  - rewrite dedupe_unseen. apply unseen_NoDup.
  - intros msg Hin. rewrite dedupe_unseen.
    destruct (unseen_complete ∅ x msg Hin) as [?%elem_of_empty|?]; done.
  - intros msg. rewrite !dedupe_first_occurrences. unfold first_occurrences.
    rewrite retain_first_snoc. simpl.
    destruct (decide _); [by rewrite app_nil_r|done].
  - intros r c m1 m2. rewrite dedupe_first_occurrences.
    unfold first_occurrences. cbn [retain_first fmap list_fmap app].
    case_decide as H1; [by apply elem_of_nil in H1|].
    case_decide as H2; [done|]. exfalso. apply H2. by left.
Qed.

Lemma dedupe_keeps_first_occurrences_witness :
  dedupe [ {| role := "user"; content := "hi"; metadata := None |};
           {| role := "assistant"; content := "hi"; metadata := None |};
           {| role := "user"; content := "hi"; metadata := Some Session.title_started |} ] =
  [ {| role := "user"; content := "hi"; metadata := None |};
    {| role := "assistant"; content := "hi"; metadata := None |} ].
Proof.
  rewrite (proj1 (dedupe_keeps_first_occurrences _)). vm_compute. reflexivity.
Defined.

End Dedupe.

(** ** Execution times *)

Section Timing.
Import Session.

Lemma for_each_app {S A} (body : S → A → result S) l1 l2 s :
  for_each body (l1 ++ l2) s = for_each body l1 s ≫= for_each body l2.
Proof.
  revert s. induction l1 as [|a l1 IH]; intros s; simpl; [done|].
  destruct (body s a); simpl; [apply IH|done].
Qed.

Lemma record_event_readable tool_times ev :
  readable ev → ∃ tool_times', record_event tool_times ev = Return tool_times'.
Proof.
  intros (Ht & Hk & Hc). unfold record_event, event_tool_call_id.
  destruct (ev_tool ev) as [| |[[id|]]]; simpl; eauto; [done|].
  destruct (Py.truthy id); simpl; eauto.
  destruct (ev_event ev) as [| |kind]; simpl; [done| |].
  - repeat case_decide; try done. eauto.
  - destruct (ev_created_at ev); [done|..]; repeat case_decide; simpl; eauto.
Qed.

Lemma record_event_other id tool_times tool_times' ev :
  ¬ of_call id ev → record_event tool_times ev = Return tool_times' →
  tool_times' !! id = tool_times !! id.
Proof.
  unfold of_call, record_event. intros Hid.
  destruct (event_tool_call_id ev) as [[id'|]|]; simpl; [| congruence | done].
  assert (id' ≠ id) as Hne by congruence.
  destruct (Py.truthy id'); simpl; [|congruence].
  assert (∀ t : gmap string timing,
    match t !! id' with
    | Some _ => t
    | None => <[id' := {| start := None; end_ := None |}]> t
    end !! id = t !! id) as Hkeep.
  { intros t. destruct (t !! id'); [done|]. by rewrite lookup_insert_ne. }
  destruct (subscript (ev_event ev)) as [kind|]; simpl; [|done].
  repeat case_decide;
    (destruct (subscript (ev_created_at ev)); simpl; [|done]) || idtac;
    intros [= <-]; rewrite ?lookup_alter_ne by done; apply Hkeep.
Qed.

Lemma record_event_started id at_ tool_times :
  id ≠ "" →
  ∃ tool_times', record_event tool_times (tool_event "ToolCallStarted" id at_) = Return tool_times'
    ∧ bound start id tool_times' = Some at_
    ∧ bound end_ id tool_times' = bound end_ id tool_times.
Proof.
  intros Hid. unfold record_event, bound. simpl.
  assert (Py.truthy id = true) as ->.
  { unfold Py.truthy. by destruct id. }
  simpl. eexists. split; [done|].
  rewrite !lookup_alter_eq.
  destruct (tool_times !! id) eqn:E; rewrite ?E, ?lookup_insert_eq; done.
Qed.

Lemma record_event_completed id at_ tool_times :
  id ≠ "" →
  ∃ tool_times', record_event tool_times (tool_event "ToolCallCompleted" id at_) = Return tool_times'
    ∧ bound start id tool_times' = bound start id tool_times
    ∧ bound end_ id tool_times' = Some at_.
Proof.
  intros Hid. unfold record_event, bound. simpl.
  assert (Py.truthy id = true) as ->.
  { unfold Py.truthy. by destruct id. }
  simpl. eexists. split; [done|].
  rewrite !lookup_alter_eq.
  destruct (tool_times !! id) eqn:E; rewrite ?E, ?lookup_insert_eq; done.
Qed.

Lemma record_events_other id evs tool_times :
  Forall (λ ev, readable ev ∧ ¬ of_call id ev) evs →
  ∃ tool_times', for_each record_event evs tool_times = Return tool_times'
    ∧ tool_times' !! id = tool_times !! id.
Proof.
  intros H. revert tool_times. induction H as [|ev evs [Hr Hn] _ IH]; intros tool_times; simpl.
  - eauto.
  - destruct (record_event_readable tool_times ev Hr) as [t1 E1]. rewrite E1. simpl.
    destruct (IH t1) as (t2 & E2 & Hl). exists t2. split; [done|].
    rewrite Hl. by eapply record_event_other.
Qed.

Lemma record_event_start_unset id tool_times tool_times' ev :
  ¬ marks "ToolCallStarted" id ev →
  record_event tool_times ev = Return tool_times' →
  bound start id tool_times = None → bound start id tool_times' = None.
Proof.
  intros Hm Hrun Hunset.
  destruct (decide (of_call id ev)) as [Hc|Hc];
    [|unfold bound; by rewrite (record_event_other _ _ _ _ Hc Hrun)].
  revert Hrun. unfold record_event. rewrite Hc. simpl.
  destruct (Py.truthy id); simpl; [|by intros [= <-]].
  assert (bound start id
    match tool_times !! id with
    | Some _ => tool_times
    | None => <[id := {| start := None; end_ := None |}]> tool_times
    end = None) as Hkeep.
  { revert Hunset. unfold bound. destruct (tool_times !! id) eqn:E; rewrite ?E; [done|].
    by rewrite lookup_insert_eq. }
  destruct (ev_event ev) as [| |kind] eqn:Hk; simpl; [done|..].
  - repeat case_decide; try done. by intros [= <-].
  - case_decide as Hs; [exfalso; apply Hm; split; congruence|].
    case_decide; [|by intros [= <-]].
    destruct (subscript (ev_created_at ev)); simpl; [|done].
    intros [= <-]. revert Hkeep. unfold bound. rewrite lookup_alter_eq.
    by destruct (_ !! id).
Qed.

Lemma record_event_end_unset id tool_times tool_times' ev :
  ¬ marks "ToolCallCompleted" id ev →
  record_event tool_times ev = Return tool_times' →
  bound end_ id tool_times = None → bound end_ id tool_times' = None.
Proof.
  intros Hm Hrun Hunset.
  destruct (decide (of_call id ev)) as [Hc|Hc];
    [|unfold bound; by rewrite (record_event_other _ _ _ _ Hc Hrun)].
  revert Hrun. unfold record_event. rewrite Hc. simpl.
  destruct (Py.truthy id); simpl; [|by intros [= <-]].
  assert (bound end_ id
    match tool_times !! id with
    | Some _ => tool_times
    | None => <[id := {| start := None; end_ := None |}]> tool_times
    end = None) as Hkeep.
  { revert Hunset. unfold bound. destruct (tool_times !! id) eqn:E; rewrite ?E; [done|].
    by rewrite lookup_insert_eq. }
  destruct (ev_event ev) as [| |kind] eqn:Hk; simpl; [done|..].
  - repeat case_decide; try done. by intros [= <-].
  - case_decide as Hs.
    + destruct (subscript (ev_created_at ev)); simpl; [|done].
      intros [= <-]. revert Hkeep. unfold bound. rewrite lookup_alter_eq.
      by destruct (_ !! id).
    + case_decide; [exfalso; apply Hm; split; congruence|]. by intros [= <-].
Qed.

Lemma record_events_unset {A} (get : timing → option A) kind id evs :
  (∀ tool_times tool_times' ev, ¬ marks kind id ev →
     record_event tool_times ev = Return tool_times' →
     bound get id tool_times = None → bound get id tool_times' = None) →
  Forall readable evs → Forall (λ ev, ¬ marks kind id ev) evs →
  ∀ tool_times, bound get id tool_times = None →
  ∃ tool_times', for_each record_event evs tool_times = Return tool_times'
    ∧ bound get id tool_times' = None.
Proof.
  intros Hstep Hr. induction Hr as [|ev evs Hr _ IH]; intros Hm tool_times Hunset; simpl.
  - eauto.
  - apply Forall_cons in Hm as [Hm Hms].
    destruct (record_event_readable tool_times ev Hr) as [t1 E1]. rewrite E1. simpl.
    apply (IH Hms). by eapply Hstep.
Qed.

Lemma exec_time_unset tool_times id :
  bound start id tool_times = None ∨ bound end_ id tool_times = None →
  exec_time tool_times (Some id) = Return "N/A".
Proof.
  unfold bound, exec_time. simpl.
  destruct (tool_times !! id) as [[[s|] [e|]]|]; simpl; intros [?|?]; done.
Qed.

Lemma exec_time_set tool_times id s e :
  bound start id tool_times = Some s → bound end_ id tool_times = Some e →
  exec_time tool_times (Some id) =
  Py.sub e s ≫= λ d, Py.format_f 3 d ≫= λ text, Return (text +:+ "s").
Proof.
  unfold bound, exec_time. simpl.
  destruct (tool_times !! id) as [[[s'|] [e'|]]|]; simpl; intros [= ->] [= ->]; done.
Qed.

Lemma dedupe_pair (a b : ChatMessage) :
  identifier a ≠ identifier b → dedupe [a; b] = [a; b].
Proof.
  intros Hne. rewrite dedupe_first_occurrences. unfold first_occurrences.
  cbn [retain_first fmap list_fmap app].
  case_decide as H1; [by apply elem_of_nil in H1|].
  case_decide as H2; [|done].
  apply list_elem_of_singleton in H2. congruence.
Qed.

Lemma rebuild_tool_message msg evs tool_times id time :
  build_tool_times evs = Return tool_times →
  exec_time tool_times (Some id) = Return time →
  msg_role msg = Some "tool" → msg_tool_call_id msg = Some id →
  rebuild "ON" "OFF" [ {| messages := [msg]; events := evs |} ] =
  Return
    [ {| role := "assistant";
         content := Session.custom_content_started (msg_tool_name msg) (msg_tool_args msg);
         metadata := Some Session.title_started |};
      {| role := "assistant";
         content := Session.custom_content_completed (result_text (msg_content msg)) time;
         metadata := Some Session.title_completed |} ].
Proof.
  intros Hb Ht Hr Hid. unfold rebuild, collect, add_run. simpl. rewrite Hb. simpl.
  unfold add_message, show_message. rewrite Hr, Hid, Ht. simpl.
  rewrite dedupe_pair; [done|].
  unfold identifier. cbn [role content]. intros [=].
Qed.

(** C2.  When the events of a run hold a start of the tool call [id]
    created at 10 (the int, or the float) and a completion of it created
    at 12.5, among events of other calls, the time shown for a tool
    message of that call is 2.500s; when no event starts the call, or none
    completes it, the time shown is N/A. *)
Theorem tool_execution_time (id : string) (ten : Py.number)
    (pre mid post : list event) (msg : message) :
  id ≠ "" → ten = Py.Int 10 ∨ ten = Py.Float 10 →
  Forall (λ ev, readable ev ∧ ¬ of_call id ev) (pre ++ mid ++ post) →
  msg_role msg = Some "tool" → msg_tool_call_id msg = Some id →
  let shown time :=
    [ {| role := "assistant";
         content := Session.custom_content_started (msg_tool_name msg) (msg_tool_args msg);
         metadata := Some Session.title_started |};
      {| role := "assistant";
         content := Session.custom_content_completed (result_text (msg_content msg)) time;
         metadata := Some Session.title_completed |} ] in
  let evs :=
    pre ++ tool_event "ToolCallStarted" id ten ::
    mid ++ tool_event "ToolCallCompleted" id (Py.Float 12.5) :: post in
  (∃ tool_times, build_tool_times evs = Return tool_times
     ∧ exec_time tool_times (Some id) = Return "2.500s")
  ∧ rebuild "ON" "OFF" [ {| messages := [msg]; events := evs |} ] = Return (shown "2.500s")
  ∧ (∀ evs',
       Forall readable evs' →
       Forall (λ ev, ¬ marks "ToolCallStarted" id ev) evs'
       ∨ Forall (λ ev, ¬ marks "ToolCallCompleted" id ev) evs' →
       (∃ tool_times, build_tool_times evs' = Return tool_times
          ∧ exec_time tool_times (Some id) = Return "N/A")
       ∧ rebuild "ON" "OFF" [ {| messages := [msg]; events := evs' |} ] = Return (shown "N/A")).
Proof.
  intros Hid Hten Hothers Hrole Hcall shown evs.
  apply Forall_app in Hothers as [Hpre Hothers].
  apply Forall_app in Hothers as [Hmid Hpost].
  assert (∃ tool_times, build_tool_times evs = Return tool_times
            ∧ exec_time tool_times (Some id) = Return "2.500s") as Hfirst.
  { unfold build_tool_times, evs.
    destruct (record_events_other id pre ∅ Hpre) as (t1 & E1 & L1).
    destruct (record_event_started id ten t1 Hid) as (t2 & E2 & S2 & F2).
    destruct (record_events_other id mid t2 Hmid) as (t3 & E3 & L3).
    destruct (record_event_completed id (Py.Float 12.5) t3 Hid) as (t4 & E4 & S4 & F4).
    destruct (record_events_other id post t4 Hpost) as (t5 & E5 & L5).
    exists t5. split.
    - rewrite for_each_app, E1. simpl. rewrite E2. simpl.
      rewrite for_each_app, E3. simpl. rewrite E4. simpl. done.
    - rewrite (exec_time_set t5 id ten (Py.Float 12.5)).
      + destruct Hten as [->| ->]; vm_compute; reflexivity.
      + unfold bound in *. by rewrite L5, S4, L3.
      + unfold bound in *. by rewrite L5. }
  split; [exact Hfirst|]. split.
  - destruct Hfirst as (tool_times & Hb & Ht). by eapply rebuild_tool_message.
  - intros evs' Hread Hmissing.
    assert (∃ tool_times, build_tool_times evs' = Return tool_times
              ∧ exec_time tool_times (Some id) = Return "N/A") as Hna.
    { unfold build_tool_times. destruct Hmissing as [Hs|He].
      - destruct (record_events_unset start "ToolCallStarted" id evs'
                    (record_event_start_unset id) Hread Hs ∅) as (t & E & U); [done|].
        exists t. split; [done|]. apply exec_time_unset. by left.
      - destruct (record_events_unset end_ "ToolCallCompleted" id evs'
                    (record_event_end_unset id) Hread He ∅) as (t & E & U); [done|].
        exists t. split; [done|]. apply exec_time_unset. by right. }
    split; [exact Hna|].
    destruct Hna as (tool_times & Hb & Ht). by eapply rebuild_tool_message.
Qed.

Lemma tool_execution_time_witness :
  rebuild "ON" "OFF"
    [ {| messages := [Scenario.stored_tool];
         events := [ tool_event "ToolCallStarted" "2" (Py.Int 3);
                     tool_event "ToolCallStarted" "1" (Py.Int 10);
                     tool_event "ToolCallCompleted" "1" (Py.Float 12.5) ] |} ] =
  Return
    [ {| role := "assistant";
         content := "
**Tool:** `search`
**Arguments:** `{'q': 'x'}`
";
         metadata := Some Session.title_started |};
      {| role := "assistant";
         content := "**Results:**
3 results
**Execution time:** 2.500s";
         metadata := Some Session.title_completed |} ].
Proof.
  refine (proj1 (proj2 (tool_execution_time "1" (Py.Int 10)
            [tool_event "ToolCallStarted" "2" (Py.Int 3)] [] [] Scenario.stored_tool
            _ _ _ eq_refl eq_refl))).
  - discriminate.
  - left. reflexivity.
  - repeat constructor; discriminate.
Defined.

End Timing.

(** ** Loading a session *)

Section Loading.
Import Session.

Lemma rebuild_nil meta latex : rebuild meta latex [] = Return [].
Proof. reflexivity. Qed.

(** C7.  [load_sessions_history] gives the empty transcript when the
    database raises, when there is no row, when the column is [NULL] or
    empty, when the column does not decode, when it decodes to no run, and
    when rebuilding raises; it has no other outcome than a transcript. *)
Theorem load_sessions_history_never_raises
    (json_loads_twice : string → result (list run))
    (db : fetched) (meta latex : string) :
  db = DbError
  ∨ db = Row None
  ∨ db = Row (Some None)
  ∨ db = Row (Some (Some ""))
  ∨ (∃ text e, db = Row (Some (Some text)) ∧ json_loads_twice text = Raise e)
  ∨ (∃ text, db = Row (Some (Some text)) ∧ json_loads_twice text = Return [])
  ∨ (∃ text runs e, db = Row (Some (Some text))
       ∧ json_loads_twice text = Return runs ∧ rebuild meta latex runs = Raise e) →
  (load_sessions_history json_loads_twice db meta latex).1 = [].
Proof.
  intros [->|[->|[->|[->|[(text & e & -> & E)|[(text & -> & E)|(text & runs & e & -> & E & R)]]]]]];
    try reflexivity; unfold load_sessions_history;
    destruct (Py.truthy text); simpl; try reflexivity; rewrite E; simpl; try reflexivity.
  by rewrite R.
Qed.

Lemma load_sessions_history_never_raises_witness :
  (load_sessions_history (λ _, Raise JSONDecodeError) (Row (Some (Some "{not json"))) "ON" "OFF").1 = [].
Proof.
  apply load_sessions_history_never_raises.
  do 4 right. left. exists "{not json", JSONDecodeError. split; reflexivity.
Defined.

End Loading.

(** ** User messages *)

Section Users.
Import Session.

Lemma last_user_index_spec (l : list Chat.Message) (j b : Z) :
  b < j →
  let k := foldl Z.max b (Chat.user_indices j l) in
  (k = b ∧ Forall (λ m, Chat.m_role m ≠ "user") l)
  ∨ (j ≤ k ∧ Forall (λ m, Chat.m_role m ≠ "user") (drop (Z.to_nat (k - j + 1)) l)).
Proof.
  revert j b. induction l as [|m l IH]; intros j b Hb; simpl.
  - left. by split.
  - destruct (decide (Chat.m_role m = "user")) as [Hu|Hu]; simpl.
    + replace (Z.max b j) with j by lia.
      destruct (IH (j + 1) j ltac:(lia)) as [[-> Hall]|[Hk Hall]]; right.
      * split; [lia|]. by replace (j - j + 1) with 1 by lia.
      * split; [lia|].
        replace (Z.to_nat (foldl Z.max j (Chat.user_indices (j + 1) l) - j + 1))
          with (S (Z.to_nat (foldl Z.max j (Chat.user_indices (j + 1) l) - (j + 1) + 1)))
          by lia.
        done.
    + destruct (IH (j + 1) b ltac:(lia)) as [[-> Hall]|[Hk Hall]].
      * left. split; [done|]. by constructor.
      * right. split; [lia|].
        replace (Z.to_nat (foldl Z.max b (Chat.user_indices (j + 1) l) - j + 1))
          with (S (Z.to_nat (foldl Z.max b (Chat.user_indices (j + 1) l) - (j + 1) + 1)))
          by lia.
        done.
Qed.

Lemma after_last_user_no_user (l : list Chat.Message) :
  Forall (λ m, Chat.m_role m ≠ "user") (Chat.after_last_user l).
Proof.
  unfold Chat.after_last_user, Chat.last_user_index.
  destruct (last_user_index_spec l 0 (-1) ltac:(lia)) as [[-> Hall]|[Hk Hall]]; simpl in *.
  - done.
  - by rewrite Z.sub_0_r in Hall.
Qed.




End Users.

(** ** The LaTeX trigger *)

Section Latex.
Import Session.

Lemma append_assoc (a b c : string) : (a +:+ b) +:+ c = a +:+ b +:+ c.
Proof.
  induction a as [|x a IH]; [done|].
  change (String x ((a +:+ b) +:+ c) = String x (a +:+ b +:+ c)). by rewrite IH.
Qed.

Lemma append_empty_r (a : string) : a +:+ "" = a.
Proof.
  induction a as [|x a IH]; [done|].
  change (String x (a +:+ "") = String x a). by rewrite IH.
Qed.

Lemma for_each_related {S A} (R : S → S → Prop) (body body' : S → A → result S) :
  (∀ s s' a s1, R s s' → body s a = Return s1 →
     ∃ s1', body' s' a = Return s1' ∧ R s1 s1') →
  ∀ l s s' s1, R s s' → for_each body l s = Return s1 →
    ∃ s1', for_each body' l s' = Return s1' ∧ R s1 s1'.
Proof.
  intros Hstep l. induction l as [|a l IH]; intros s s' s1 Hs; simpl.
  - intros [= <-]. eauto.
  - destruct (body s a) as [s2|] eqn:E; simpl; [|done].
    destruct (Hstep _ _ _ _ Hs E) as (s2' & -> & Hs2). simpl.
    by apply IH.
Qed.

Lemma dedupe_singleton (m : ChatMessage) : dedupe [m] = [m].
Proof.
  rewrite dedupe_first_occurrences. unfold first_occurrences.
  cbn [retain_first fmap list_fmap]. case_decide as H; [by apply elem_of_nil in H|done].
Qed.

(** C9.  The trigger is part of the loop over the stored messages and
    comes before the duplicate filter.  On a session in which the same
    question got the same answer twice, the transcript returned with the
    LaTeX mode off has the question and the answer once; with the mode on
    it has the answer twice, the first with two spaces at its end and the
    second with one, where the filter followed by one trigger gives the
    question and the answer once, the answer with one space. *)
Theorem latex_trigger_keeps_duplicates :
  rebuild "OFF" "OFF" Scenario.repeated_turn =
    Return [ {| role := "user"; content := "q"; metadata := None |}; assistant "a" ]
  ∧ rebuild "OFF" "ON" Scenario.repeated_turn =
    Return [ {| role := "user"; content := "q"; metadata := None |};
             assistant "a  "; assistant "a " ]
  ∧ rebuild_then_trigger "OFF" Scenario.repeated_turn =
    Return [ {| role := "user"; content := "q"; metadata := None |}; assistant "a " ]
  ∧ rebuild "OFF" "ON" Scenario.repeated_turn
    ≠ rebuild_then_trigger "OFF" Scenario.repeated_turn.
Proof. repeat split; by vm_compute. Qed.

End Latex.

(** ** The stop button *)

Section Stop.
Import Chat.

Lemma keeps_shared_bind {A B} (m : stmt A) (k : A → stmt B) :
  keeps_shared m → (∀ a, keeps_shared (k a)) → keeps_shared (m ≫= k).
Proof.
  intros Hm Hk s. rewrite run_bind. specialize (Hm s).
  destruct (m s) as [[a|e] s']; simpl in *; [|done].
  by rewrite Hk.
Qed.

Lemma keeps_shared_modify f :
  (∀ s, shared (f s) = shared s) → keeps_shared (modify f).
Proof. intros H s. apply H. Qed.

Lemma keeps_shared_ret {A} (a : A) : keeps_shared (mret a).
Proof. done. Qed.

Lemma keeps_shared_raise {A} e : keeps_shared (raise e : stmt A).
Proof. done. Qed.

Lemma keeps_shared_lift {A} (r : result A) : keeps_shared (lift r).
Proof. done. Qed.

Lemma keeps_shared_when b m : keeps_shared m → keeps_shared (when b m).
Proof. by destruct b. Qed.

Lemma keeps_shared_append m : keeps_shared (append m).
Proof. done. Qed.

Lemma keeps_shared_yield ph i st : keeps_shared (yield ph i st).
Proof. done. Qed.

Lemma keeps_shared_get : keeps_shared get.
Proof. done. Qed.

Lemma keeps_shared_last_entry : keeps_shared last_entry.
Proof. intros s. unfold last_entry. by destruct (last _). Qed.

Lemma keeps_shared_set_last m : keeps_shared (set_last m).
Proof. intros s. unfold set_last. by destruct (chat_history s). Qed.

Lemma keeps_shared_clear_loading : keeps_shared clear_loading.
Proof.
  apply keeps_shared_bind; [apply keeps_shared_last_entry|].
  intros m. apply keeps_shared_when, keeps_shared_set_last.
Qed.

Lemma keeps_shared_the_tool c : keeps_shared (the_tool c).
Proof. unfold the_tool. by destruct (tool c). Qed.

Lemma keeps_shared_for {A} (l : list A) body :
  (∀ a, keeps_shared (body a)) → keeps_shared (for_ l body).
Proof.
  intros H. induction l as [|a l IH]; simpl; [done|].
  by apply keeps_shared_bind.
Qed.

Ltac keeps_shared_tac :=
  repeat first
    [ apply keeps_shared_clear_loading
    | apply keeps_shared_the_tool
    | apply keeps_shared_set_last
    | apply keeps_shared_last_entry
    | apply keeps_shared_append
    | apply keeps_shared_yield
    | apply keeps_shared_lift
    | apply keeps_shared_get
    | apply keeps_shared_ret
    | apply keeps_shared_raise
    | apply keeps_shared_when
    | apply keeps_shared_modify; intros ?; reflexivity
    | apply keeps_shared_bind; [|intros ?] ].

Lemma on_chunk_shared meta c s :
  shared (on_chunk meta c s).2 =
  {| running_agent := running_agent (shared s); current_run_id := run_id c |}.
Proof.
  unfold on_chunk. rewrite run_bind, run_modify.
  match goal with |- shared (?m ?s').2 = _ => assert (keeps_shared m) as H end.
  { repeat case_decide; keeps_shared_tac; destruct (chunk_content c); keeps_shared_tac. }
  by rewrite H.
Qed.

Lemma perform_chunks w observed :
  Forall is_chunk observed →
  running_agent (now (foldl perform w observed)) = running_agent (now w)
  ∧ cancel_calls (foldl perform w observed) = cancel_calls w.
Proof.
  intros H. revert w. induction H as [|a observed Ha _ IH]; intros w; simpl; [done|].
  destruct a; try done. destruct (IH (perform w (Chunk conversation run))) as [-> ->]. done.
Qed.

(** C3, as the code has it.  The handle is one pair of module globals
    shared by all conversations.  Pressing stop does the same whoever
    presses it: when an agent is registered, [cancel_run] is called on the
    agent that began last, for the run of the event received last (from
    any conversation), and the handle is dropped; without a registered
    agent nothing happens.  Each event handled by [get_response] stores
    its run in the globals and [get_response] drops the agent when it
    ends. *)
Theorem stop_cancels_the_latest_run :
  (∀ w c c', perform w (PressStop c) = perform w (PressStop c'))
  ∧ (∀ w conv agent observed c,
       Forall is_chunk observed →
       let w1 := foldl perform w (Begin conv agent :: observed) in
       perform w1 (PressStop c) =
       {| now := {| running_agent := None; current_run_id := current_run_id (now w1) |};
          cancel_calls := cancel_calls w ++ [(agent, current_run_id (now w1))] |})
  ∧ (∀ w conv run, current_run_id (now (perform w (Chunk conv run))) = run)
  ∧ (∀ w c, running_agent (now w) = None →
       now (perform w (PressStop c)) = now w
       ∧ cancel_calls (perform w (PressStop c)) = cancel_calls w)
  ∧ (∀ meta c s,
       shared (on_chunk meta c s).2 =
       {| running_agent := running_agent (shared s); current_run_id := run_id c |})
  ∧ (∀ agent meta stream s,
       running_agent (shared (answer agent meta stream s).2) = None).
Proof.
  split; [|split; [|split; [|split; [|split]]]].
  - done.
  - intros w conv agent observed c Hobs w1.
    destruct (perform_chunks (perform w (Begin conv agent)) observed Hobs) as [Hr Hc].
    subst w1. cbn [foldl].
    set (w1 := foldl perform (perform w (Begin conv agent)) observed) in *.
    unfold perform at 1, stop_agent_running_stream. rewrite Hr, Hc. done.
  - done.
  - intros w c H. unfold perform, stop_agent_running_stream. rewrite H. simpl.
    by rewrite app_nil_r.
  - apply on_chunk_shared.
  - intros agent meta stream s. unfold answer, try_finally.
    by destruct (try_except _ _ s).
Qed.

Lemma stop_cancels_the_latest_run_witness :
  perform (foldl perform start_world
             [ Begin 1 10; Begin 2 20; Chunk 1 (Some "run-of-1"); Chunk 2 (Some "run-of-2") ])
    (PressStop 1) =
  {| now := {| running_agent := None; current_run_id := Some "run-of-2" |};
     cancel_calls := [(20%nat, Some "run-of-2")] |}.
Proof.
  apply (proj1 (proj2 stop_cancels_the_latest_run)
           (perform start_world (Begin 1 10)) 2%nat 20%nat
           [Chunk 1 (Some "run-of-1"); Chunk 2 (Some "run-of-2")] 1%nat).
  repeat constructor.
Defined.

(** C3, as the claim has it, fails with two conversations in flight: the
    stop pressed in the first one cancels the run of the second one on the
    second one's agent and drops the handle, where a handle per
    conversation would cancel the first one's run and keep the second
    one's handle. *)
Lemma stop_reaches_the_other_conversation :
  cancel_calls (foldl perform start_world two_in_flight) = [(20%nat, Some "run-of-2")]
  ∧ running_agent (now (foldl perform start_world two_in_flight)) = None
  ∧ scoped_cancel_calls (foldl scoped_perform scoped_start two_in_flight)
    = [(10%nat, Some "run-of-1")]
  ∧ handles (foldl scoped_perform scoped_start two_in_flight) !! 2%nat
    = Some {| running_agent := Some 20%nat; current_run_id := Some "run-of-2" |}
  ∧ cancel_calls (foldl perform start_world two_in_flight)
    ≠ scoped_cancel_calls (foldl scoped_perform scoped_start two_in_flight).
Proof. repeat split; by vm_compute. Qed.

End Stop.

(** ** Failures *)

Section Failures.
Import Chat.

Lemma get_response_ready user_msg history meta stream agent g :
  get_response user_msg history meta stream (Return agent) (initial g) =
  answer agent meta stream (ready user_msg history agent g).
Proof. reflexivity. Qed.

Lemma for_chunks_trailing_assistant meta cs s :
  trailing_assistant (chat_history s) →
  trailing_assistant (chat_history (for_ cs (on_chunk meta) s).2).
Proof.
  revert s. induction cs as [|c cs IH]; intros s Hs; simpl; [done|].
  rewrite run_bind. pose proof (on_chunk_trailing_assistant meta c s Hs) as H.
  destruct (on_chunk meta c s) as [[[]|e] s']; simpl in *; [by apply IH|done].
Qed.

Lemma ready_trailing_assistant user_msg history agent g :
  trailing_assistant (chat_history (ready user_msg history agent g)).
Proof. simpl. by apply trailing_assistant_snoc. Qed.

(** What the streaming branch of the [try] statement leaves. *)
Lemma answer_streamed agent meta s :
  trailing_assistant (chat_history s) →
  let s2 := (stream_end agent meta s).2 in
  (stream_fails agent meta s →
     answer agent meta "ON" s =
     (Return tt,
      set_running_agent None
        (add_yielded {| placeholder := "Ask something..."; interactive := true;
                        shown := removelast (chat_history s2) ++ [assistant error_msg];
                        stop_visible := false |}
           (set_chat_history (removelast (chat_history s2) ++ [assistant error_msg]) s2))))
  ∧ (¬ stream_fails agent meta s →
     answer agent meta "ON" s =
     (Return tt,
      set_running_agent None
        (add_yielded {| placeholder := "Ask something..."; interactive := true;
                        shown := chat_history s2; stop_visible := false |} s2))).
Proof.
  intros Hs s2.
  assert (trailing_assistant (chat_history s2)) as Hs2.
  { apply for_chunks_trailing_assistant. done. }
  pose proof (trailing_assistant_nonempty _ Hs2) as Hne.
  unfold stream_fails. subst s2. revert Hs2 Hne.
  unfold answer, try_finally, try_except, stream_end.
  rewrite run_bind, run_modify. simpl. rewrite run_bind, run_bind.
  destruct (for_ (streamed agent) (on_chunk meta) (set_stream_response "" s))
    as [[[]|e] s2]; simpl; intros Hs2 Hne.
  - destruct (stream_raises agent); simpl.
    + split; [intros _|intros []; by left]. run. by rewrite last_insert_pred.
    + split; [intros [?|[? ?]]; done|intros _]. by run.
  - split; [intros _|intros []; right; eauto]. run. by rewrite last_insert_pred.
Qed.

Lemma for_show_returns (show : Message → stmt unit) msgs s :
  (∀ m s, (show m s).1 = Return tt) → (for_ msgs show s).1 = Return tt.
Proof.
  intros H. revert s. induction msgs as [|m msgs IH]; intros s; simpl; [done|].
  rewrite run_bind. specialize (H m s). destruct (show m s) as [[[]|e] s']; [apply IH|done].
Qed.

Lemma show_with_tools_returns m s : (show_with_tools m s).1 = Return tt.
Proof. unfold show_with_tools. by repeat case_decide. Qed.

Lemma show_assistant_only_returns m s : (show_assistant_only m s).1 = Return tt.
Proof. unfold show_assistant_only, when. by case_bool_decide. Qed.

(** The awaited branch when the agent raises. *)
Lemma answer_awaited_raises agent meta s e :
  chat_history s ≠ [] → awaited agent = Raise e →
  answer agent meta "OFF" s =
  (Return tt,
   set_running_agent None
     (add_yielded {| placeholder := "Ask something..."; interactive := true;
                     shown := removelast (chat_history s) ++ [assistant error_msg];
                     stop_visible := false |}
        (set_chat_history (removelast (chat_history s) ++ [assistant error_msg])
           (set_stream_response "" s)))).
Proof.
  intros Hne He. unfold answer, try_finally, try_except.
  rewrite run_bind, run_modify. simpl. rewrite He. run. by rewrite last_insert_pred.
Qed.

Lemma answer_returns agent meta stream s :
  trailing_assistant (chat_history s) → (answer agent meta stream s).1 = Return tt.
Proof.
  intros Hs. pose proof (trailing_assistant_nonempty _ Hs) as Hne.
  destruct (decide (stream = "ON")) as [->|Hon].
  { destruct (answer_streamed agent meta s Hs) as [Hf Hok].
    destruct (decide (stream_raises agent = true)) as [Hr|Hr].
    - rewrite Hf; [done|by left].
    - destruct (stream_end agent meta s).1 as [[]|e] eqn:E.
      + rewrite Hok; [done|]. intros [?|[? ?]]; congruence.
      + rewrite Hf; [done|]. right. eauto. }
  destruct (decide (stream = "OFF")) as [->|Hoff].
  { destruct (awaited agent) as [msgs|e] eqn:E.
    - unfold answer, try_finally, try_except.
      rewrite run_bind, run_modify. simpl. rewrite E. run.
      destruct (decide (meta = "ON")).
      + pose proof (for_show_returns show_with_tools (after_last_user msgs)
          (set_chat_history (cleared (chat_history s)) (set_stream_response "" s))
          show_with_tools_returns) as H.
        destruct (for_ _ _ _) as [[[]|?] ?]; done.
      + pose proof (for_show_returns show_assistant_only (after_last_user msgs)
          (set_chat_history (cleared (chat_history s)) (set_stream_response "" s))
          show_assistant_only_returns) as H.
        destruct (for_ _ _ _) as [[[]|?] ?]; done.
    - by erewrite answer_awaited_raises. }
  unfold answer, try_finally, try_except.
  rewrite run_bind, run_modify. simpl.
  rewrite decide_False by done. rewrite decide_False by done. done.
Qed.

Lemma on_chunk_terse meta c s base m :
  meta ≠ "ON" → chat_history s = base ++ [m] →
  ∃ m', chat_history (on_chunk meta c s).2 = base ++ [m'].
Proof.
  intros Hm Hh. unfold on_chunk, when.
  rewrite (bool_decide_eq_false_2 _ Hm).
  destruct (event c); simpl; run; eauto.
  destruct (chunk_content c); run; eauto.
  rewrite run_set_last by (simpl; rewrite Hh; by destruct base). simpl.
  rewrite last_insert_pred by (rewrite Hh; by destruct base).
  rewrite Hh, removelast_last. eauto.
Qed.

Lemma for_chunks_terse meta cs s base m :
  meta ≠ "ON" → chat_history s = base ++ [m] →
  ∃ m', chat_history (for_ cs (on_chunk meta) s).2 = base ++ [m'].
Proof.
  intros Hm. revert s m. induction cs as [|c cs IH]; intros s m Hh; simpl; [eauto|].
  rewrite run_bind. destruct (on_chunk_terse meta c s base m Hm Hh) as [m' H].
  destruct (on_chunk meta c s) as [[[]|e] s']; simpl in *; eauto.
Qed.

(** C4, as the code has it.  Once [get_agent] has returned, a call of
    [get_response] raises nothing and drops the agent, whatever the agent
    does.  When the stream ends in an exception, the last entry of the
    transcript as it is at that point, whatever it holds, is overwritten
    by the error entry, and the transcript is yielded a last time with the
    text box enabled and the stop button hidden; the entries before the
    last one are kept.  When tool metadata is off, and when the agent is
    awaited and raises, the result is the transcript of the
    specification: the history, the user's message and the error entry.
    An exception of [get_agent], raised before the [try] statement, is
    the one exception that the call lets through. *)
Theorem failure_overwrites_last_entry
    (user_msg : string) (history : list ChatMessage) (meta : string)
    (agent : Agent) (g : globals) :
  let s := ready user_msg history agent g in
  let final stream :=
    (get_response user_msg history meta stream (Return agent) (initial g)).2 in
  (∀ stream,
     (get_response user_msg history meta stream (Return agent) (initial g)).1 = Return tt
     ∧ running_agent (shared (final stream)) = None)
  ∧ (stream_fails agent meta s →
       chat_history (final "ON") =
         removelast (chat_history (stream_end agent meta s).2) ++ [assistant error_msg]
       ∧ last (yielded (final "ON")) =
         Some {| placeholder := "Ask something..."; interactive := true;
                 shown := chat_history (final "ON"); stop_visible := false |})
  ∧ (stream_fails agent meta s → meta ≠ "ON" →
       chat_history (final "ON") = failure_transcript history user_msg)
  ∧ (∀ e, awaited agent = Raise e →
       chat_history (final "OFF") = failure_transcript history user_msg)
  ∧ (∀ stream e,
       (get_response user_msg history meta stream (Raise e) (initial g)).1 = Raise e).
Proof.
  intros s final. subst final. cbn beta.
  pose proof (ready_trailing_assistant user_msg history agent g) as Hs. fold s in Hs.
  destruct (answer_streamed agent meta s Hs) as [Hfail _].
  split; [|split; [|split; [|split]]]; [| | | |done].
  - intros stream. rewrite get_response_ready. fold s. split.
    + by apply answer_returns.
    + unfold answer, try_finally. by destruct (try_except _ _ s).
  - intros Hf. rewrite get_response_ready. fold s. rewrite (Hfail Hf). simpl.
    split; [done|]. by rewrite last_snoc.
  - intros Hf Hm. rewrite get_response_ready. fold s. rewrite (Hfail Hf). simpl.
    destruct (for_chunks_terse meta (streamed agent) (set_stream_response "" s)
                (history ++ [ {| role := "user"; content := user_msg; metadata := None |} ])
                (assistant "### ...") Hm eq_refl) as [m' Hm'].
    unfold stream_end. rewrite Hm', removelast_last.
    unfold failure_transcript. by rewrite <- app_assoc.
  - intros e He. rewrite get_response_ready. fold s.
    rewrite (answer_awaited_raises agent meta s e); [|by apply trailing_assistant_nonempty|done].
    simpl. rewrite removelast_last. unfold failure_transcript. by rewrite <- app_assoc.
Qed.

Lemma failure_overwrites_last_entry_witness :
  chat_history
    (get_response "hi" [] "ON" "ON" (Return Scenario.failing_agent) (initial idle)).2 =
  [ {| role := "user"; content := "hi"; metadata := None |};
    assistant "Let me look";
    assistant error_msg ].
Proof.
  refine (eq_trans (proj1 (proj1 (proj2
    (failure_overwrites_last_entry "hi" [] "ON" Scenario.failing_agent idle)) _)) _).
  - left. reflexivity.
  - vm_compute. reflexivity.
Defined.

(** C4, as the claim has it, fails when the agent raises after text and
    the start of a tool call, tool metadata being shown: the error entry
    takes the place of the tool entry, and the text streamed before stays
    in the transcript. *)
Lemma streamed_text_survives_failure :
  chat_history
    (get_response "hi" [] "ON" "ON" (Return Scenario.failing_agent) (initial idle)).2 =
  [ {| role := "user"; content := "hi"; metadata := None |};
    assistant "Let me look";
    assistant error_msg ]
  ∧ chat_history
      (get_response "hi" [] "ON" "ON" (Return Scenario.failing_agent) (initial idle)).2
    ≠ failure_transcript [] "hi".
Proof. split; by vm_compute. Qed.

End Failures.

(** * Further properties *)

(** ** Properties kept by statements *)

Section Keeping.
Import Chat Turn.

Lemma keeps_bind {A B} P (m : stmt A) (k : A → stmt B) :
  keeps P m → (∀ a, keeps P (k a)) → keeps P (m ≫= k).
Proof.
  intros Hm Hk s Hs. rewrite run_bind. specialize (Hm s Hs).
  destruct (m s) as [[a|e] s']; simpl in *; [by apply Hk|done].
Qed.

Lemma keeps_ret {A} P (a : A) : keeps P (mret a).
Proof. by intros s. Qed.

Lemma keeps_raise {A} P e : keeps P (raise e : stmt A).
Proof. by intros s. Qed.

Lemma keeps_lift {A} P (r : result A) : keeps P (lift r).
Proof. by intros s. Qed.

Lemma keeps_get P : keeps P get.
Proof. by intros s. Qed.

Lemma keeps_when P b m : keeps P m → keeps P (when b m).
Proof. destruct b; [done|]. intros _. apply keeps_ret. Qed.

Lemma keeps_for {A} P (l : list A) body :
  (∀ a, keeps P (body a)) → keeps P (for_ l body).
Proof.
  intros H. induction l as [|a l IH]; simpl; [apply keeps_ret|].
  by apply keeps_bind.
Qed.

Lemma keeps_modify P f : (∀ s, P s → P (f s)) → keeps P (modify f).
Proof. intros H s. apply H. Qed.

Lemma keeps_last_entry P : keeps P last_entry.
Proof. intros s Hs. unfold last_entry. by destruct (last _). Qed.

Lemma keeps_the_tool P c : keeps P (the_tool c).
Proof. intros s Hs. unfold the_tool. by destruct (tool c). Qed.

Lemma keeps_and {A} P Q (m : stmt A) : keeps P m → keeps Q m → keeps (λ s, P s ∧ Q s) m.
Proof. intros HP HQ s [? ?]. split; [by apply HP|by apply HQ]. Qed.

End Keeping.

Section KeepingMore.
Import Chat Turn.

Lemma keeps_try_except P body handler :
  keeps P body → keeps P handler → keeps P (try_except body handler).
Proof.
  intros Hb Hh s Hs. unfold try_except. specialize (Hb s Hs).
  destruct (body s) as [[[]|e] s']; simpl in *; [done|by apply Hh].
Qed.

Lemma keeps_try_finally P body cleanup :
  keeps P body → (∀ s, P s → P (cleanup s)) → keeps P (try_finally body cleanup).
Proof.
  intros Hb Hc s Hs. unfold try_finally. specialize (Hb s Hs).
  destruct (body s) as [r s']. simpl in *. by apply Hc.
Qed.

Lemma keeps_append_transcript Q m :
  (∀ h, Q h → Q (h ++ [m])) → keeps (of_transcript Q) (append m).
Proof. intros H s Hs. by apply H. Qed.

Lemma keeps_set_last_transcript Q m :
  (∀ h, Q h → h ≠ [] → Q (removelast h ++ [m])) → keeps (of_transcript Q) (set_last m).
Proof.
  intros H s Hs. unfold of_transcript in *.
  destruct (decide (chat_history s = [])) as [E|E].
  - unfold set_last. by rewrite E.
  - rewrite run_set_last by done. cbn [snd chat_history set_chat_history].
    rewrite last_insert_pred by done. by apply H.
Qed.

End KeepingMore.

(** ** Properties of the transcript kept by a turn *)

Section Transcript.
Import Chat Turn.

(** A property of transcripts that adding an assistant entry and
    overwriting the last entry with one both keep. *)
Variable Q : list ChatMessage → Prop.
Hypothesis Q_append : ∀ h m, role m = "assistant" → Q h → Q (h ++ [m]).
Hypothesis Q_set_last :
  ∀ h m, role m = "assistant" → Q h → h ≠ [] → Q (removelast h ++ [m]).

Lemma keeps_transcript_modify f :
  (∀ s, chat_history (f s) = chat_history s) → keeps (of_transcript Q) (modify f).
Proof. intros H. apply keeps_modify. intros s Hs. unfold of_transcript. by rewrite H. Qed.

Lemma keeps_transcript_yield ph i st : keeps (of_transcript Q) (yield ph i st).
Proof. by apply keeps_transcript_modify. Qed.

Lemma keeps_transcript_append m :
  role m = "assistant" → keeps (of_transcript Q) (append m).
Proof. intros. apply keeps_append_transcript. auto. Qed.

Lemma keeps_transcript_set_last m :
  role m = "assistant" → keeps (of_transcript Q) (set_last m).
Proof. intros. apply keeps_set_last_transcript. auto. Qed.

Lemma keeps_transcript_clear_loading : keeps (of_transcript Q) clear_loading.
Proof.
  apply keeps_bind; [apply keeps_last_entry|]. intros m.
  by apply keeps_when, keeps_transcript_set_last.
Qed.

Lemma keeps_transcript_on_chunk meta c : keeps (of_transcript Q) (on_chunk meta c).
Proof.
  unfold on_chunk.
  repeat first
    [ apply keeps_transcript_clear_loading
    | apply keeps_the_tool
    | apply keeps_transcript_yield
    | apply keeps_lift
    | apply keeps_get
    | apply keeps_ret
    | apply keeps_transcript_append; reflexivity
    | apply keeps_transcript_set_last; reflexivity
    | apply keeps_transcript_modify; intros ?; reflexivity
    | apply keeps_when
    | apply keeps_bind; [|intros ?]
    | case_decide
    | destruct (chunk_content c) ].
Qed.

Lemma keeps_transcript_show_with_tools m : keeps (of_transcript Q) (show_with_tools m).
Proof.
  unfold show_with_tools.
  repeat case_decide;
    repeat first [ apply keeps_ret
                 | apply keeps_transcript_append; reflexivity
                 | apply keeps_bind; [|intros ?] ].
Qed.

Lemma keeps_transcript_show_assistant_only m :
  keeps (of_transcript Q) (show_assistant_only m).
Proof.
  unfold show_assistant_only. by apply keeps_when, keeps_transcript_append.
Qed.

Lemma keeps_transcript_answer agent meta stream :
  keeps (of_transcript Q) (answer agent meta stream).
Proof.
  unfold answer. apply keeps_try_finally; [|done].
  apply keeps_try_except.
  - apply keeps_bind; [by apply keeps_transcript_modify|intros _].
    apply keeps_bind; [|intros _; apply keeps_transcript_yield].
    destruct (decide (stream = "ON")); [|destruct (decide (stream = "OFF"))].
    + apply keeps_bind; [|intros _; apply keeps_when, keeps_raise].
      apply keeps_for. intros c. apply keeps_transcript_on_chunk.
    + apply keeps_bind; [apply keeps_lift|intros msgs].
      apply keeps_bind; [apply keeps_transcript_clear_loading|intros _].
      destruct (decide (meta = "ON")).
      * apply keeps_for, keeps_transcript_show_with_tools.
      * apply keeps_for, keeps_transcript_show_assistant_only.
    + apply keeps_ret.
  - apply keeps_bind; [by apply keeps_transcript_set_last|intros _].
    apply keeps_transcript_yield.
Qed.

End Transcript.

Section History.
Import Chat Turn.

Lemma extension_append base h m :
  role m = "assistant" → extension base h → extension base (h ++ [m]).
Proof.
  intros Hm (rest & -> & Hne & Hall). exists (rest ++ [m]).
  rewrite app_assoc. split; [done|]. split; [by destruct rest|].
  apply Forall_app. split; [done|]. by constructor.
Qed.

Lemma extension_set_last base h m :
  role m = "assistant" → extension base h → h ≠ [] →
  extension base (removelast h ++ [m]).
Proof.
  intros Hm (rest & -> & Hne & Hall) _.
  destruct (exists_last Hne) as (rest' & a & ->).
  rewrite app_assoc, removelast_last. exists (rest' ++ [m]).
  rewrite app_assoc. split; [done|]. split; [by destruct rest'|].
  apply Forall_app in Hall as [Hall _]. apply Forall_app. split; [done|]. by constructor.
Qed.

(** X1.  Whatever the agent does, a turn leaves the earlier transcript
    and the user's message as they were and adds assistant entries only,
    at least one: the final transcript is the history, the user's message,
    and one or more assistant entries.  This also holds when [get_agent]
    raises. *)
Theorem turn_extends_transcript
    (user_msg : string) (history : list ChatMessage) (meta stream : string)
    (got_agent : result Agent) (g : globals) :
  extension (history ++ [ {| role := "user"; content := user_msg; metadata := None |} ])
    (chat_history (get_response user_msg history meta stream got_agent (initial g)).2).
Proof.
  destruct got_agent as [agent|e].
  - rewrite get_response_ready.
    apply (keeps_transcript_answer (extension _)
             (extension_append _) (extension_set_last _) agent meta stream).
    exists [assistant "### ..."]. by repeat constructor.
  - exists [assistant "### ..."]. by repeat constructor.
Qed.

End History.

(** ** The two ways a turn ends *)

Section Ending.
Import Chat Turn.

Lemma answer_returned agent meta stream s s1 :
  work agent meta stream (set_stream_response "" s) = (Return tt, s1) →
  answer agent meta stream s =
  (Return tt, set_running_agent None (add_yielded (last_output (chat_history s1)) s1)).
Proof.
  intros H. unfold answer, try_finally, try_except.
  rewrite run_bind, run_modify. cbn beta iota. rewrite run_bind.
  change (if decide (stream = "ON") then _ else _) with (work agent meta stream).
  by rewrite H.
Qed.

Lemma answer_raised agent meta stream s s1 e :
  work agent meta stream (set_stream_response "" s) = (Raise e, s1) →
  chat_history s1 ≠ [] →
  answer agent meta stream s =
  (Return tt,
   set_running_agent None
     (add_yielded (last_output (removelast (chat_history s1) ++ [assistant error_msg]))
        (set_chat_history (removelast (chat_history s1) ++ [assistant error_msg]) s1))).
Proof.
  intros H Hne. unfold answer, try_finally, try_except.
  rewrite run_bind, run_modify. cbn beta iota. rewrite run_bind.
  change (if decide (stream = "ON") then _ else _) with (work agent meta stream).
  rewrite H. run. by rewrite last_insert_pred.
Qed.

End Ending.

Section Working.
Import Chat Turn.

Lemma keeps_work P agent meta stream :
  (∀ c, keeps P (on_chunk meta c)) → keeps P clear_loading →
  (∀ m, keeps P (show_with_tools m)) → (∀ m, keeps P (show_assistant_only m)) →
  keeps P (work agent meta stream).
Proof.
  intros Hc Hl Ht Ha. unfold work.
  destruct (decide (stream = "ON")); [|destruct (decide (stream = "OFF"))].
  - apply keeps_bind; [|intros _; apply keeps_when, keeps_raise].
    by apply keeps_for.
  - apply keeps_bind; [apply keeps_lift|intros msgs].
    apply keeps_bind; [done|intros _].
    destruct (decide (meta = "ON")); by apply keeps_for.
  - apply keeps_ret.
Qed.

Lemma keeps_running_modify u h f :
  (∀ s, yielded (f s) = yielded s) → keeps (running u h) (modify f).
Proof. intros H. apply keeps_modify. intros s Hs. unfold running. by rewrite H. Qed.

Lemma keeps_running_yield u h : keeps (running u h) (yield "..." false true).
Proof.
  intros s (middle & Hy & Hb). exists (middle ++ [ {| placeholder := "..."; interactive := false;
    shown := chat_history s; stop_visible := true |} ]).
  cbn [snd yield modify yielded add_yielded]. rewrite Hy. split; [done|].
  apply Forall_app. split; [done|]. by repeat constructor.
Qed.

Lemma keeps_running_set_last u h m : keeps (running u h) (set_last m).
Proof. intros s Hs. unfold set_last. by destruct (chat_history s). Qed.

Lemma keeps_running_clear_loading u h : keeps (running u h) clear_loading.
Proof.
  apply keeps_bind; [apply keeps_last_entry|]. intros m.
  apply keeps_when, keeps_running_set_last.
Qed.

Ltac keeps_running :=
  repeat first
    [ apply keeps_running_clear_loading
    | apply keeps_the_tool
    | apply keeps_running_yield
    | apply keeps_running_set_last
    | apply keeps_lift
    | apply keeps_get
    | apply keeps_ret
    | apply keeps_running_modify; intros ?; reflexivity
    | apply keeps_when
    | apply keeps_bind; [|intros ?] ].

Lemma keeps_running_on_chunk u h meta c : keeps (running u h) (on_chunk meta c).
Proof.
  unfold on_chunk, append.
  repeat case_decide; keeps_running; destruct (chunk_content c); keeps_running.
Qed.

Lemma keeps_running_show_with_tools u h m : keeps (running u h) (show_with_tools m).
Proof. unfold show_with_tools, append. repeat case_decide; keeps_running. Qed.

Lemma keeps_running_show_assistant_only u h m :
  keeps (running u h) (show_assistant_only m).
Proof. unfold show_assistant_only, append. keeps_running. Qed.

Lemma keeps_trailing_work agent meta stream :
  keeps (of_transcript trailing_assistant) (work agent meta stream).
Proof.
  assert (∀ h m, role m = "assistant" → trailing_assistant h → trailing_assistant (h ++ [m]))
    as Ha by (intros; by apply trailing_assistant_snoc).
  assert (∀ h m, role m = "assistant" → trailing_assistant h → h ≠ [] →
                 trailing_assistant (removelast h ++ [m]))
    as Hs by (intros; by apply trailing_assistant_snoc).
  apply keeps_work.
  - intros c. by apply keeps_transcript_on_chunk.
  - by apply keeps_transcript_clear_loading.
  - intros m. by apply keeps_transcript_show_with_tools.
  - intros m. by apply keeps_transcript_show_assistant_only.
Qed.

(** X2.  The yields of a turn, once [get_agent] has returned: first the
    transcript with the user's message and the loading marker, the text
    box locked and the stop button hidden; then yields with the text box
    locked and the stop button shown; last, always, the final transcript
    with the text box unlocked and the stop button hidden. *)
Theorem turn_yields
    (user_msg : string) (history : list ChatMessage) (meta stream : string)
    (agent : Agent) (g : globals) :
  let final := (get_response user_msg history meta stream (Return agent) (initial g)).2 in
  ∃ middle,
    yielded final =
      first_output user_msg history :: middle ++ [last_output (chat_history final)]
    ∧ Forall busy middle.
Proof.
  cbn zeta. rewrite get_response_ready.
  set (s := ready user_msg history agent g).
  assert (running user_msg history (set_stream_response "" s)
          ∧ of_transcript trailing_assistant (set_stream_response "" s)) as Hs.
  { split; [by exists []|]. apply ready_trailing_assistant. }
  pose proof (keeps_and _ _ _
    (keeps_work _ agent meta stream
       (keeps_running_on_chunk user_msg history meta) (keeps_running_clear_loading _ _)
       (keeps_running_show_with_tools _ _) (keeps_running_show_assistant_only _ _))
    (keeps_trailing_work agent meta stream) _ Hs) as [(middle & Hy & Hb) Ht].
  destruct (work agent meta stream (set_stream_response "" s)) as [[[]|e] s1] eqn:E;
    cbn [snd] in *.
  - rewrite (answer_returned _ _ _ _ _ E). exists middle. simpl. by rewrite Hy.
  - rewrite (answer_raised _ _ _ _ _ _ E) by (by apply trailing_assistant_nonempty).
    exists middle. simpl. by rewrite Hy.
Qed.

End Working.

(** ** Counting the yields of a stream *)

Section Counting.
Import Chat Turn.

Lemma on_chunk_yields meta c s s' :
  chat_history s ≠ [] → on_chunk meta c s = (Return tt, s') →
  length (yielded s') =
  (length (yielded s) + if visible meta c then 1 else 0)%nat.
Proof.
  intros Hne. unfold on_chunk, visible, when, the_tool.
  destruct (event c); simpl; run.
  - case_bool_decide; run; [|intros [= <-]; simpl; lia].
    destruct (tool c); run; [|done]. intros [= <-]. simpl. by rewrite length_app.
  - case_bool_decide; run; [|intros [= <-]; simpl; lia].
    destruct (tool c) as [t|]; run; [|done].
    destruct (completed_content t); run; [|done].
    intros [= <-]. simpl. by rewrite length_app.
  - destruct (chunk_content c) as [text|]; run.
    + intros [= <-]. simpl. by rewrite length_app.
    + intros [= <-]. simpl. lia.
  - intros [= <-]. simpl. lia.
Qed.

Lemma for_chunks_yields meta cs s s' :
  trailing_assistant (chat_history s) →
  for_ cs (on_chunk meta) s = (Return tt, s') →
  length (yielded s') = (length (yielded s) + length (List.filter (visible meta) cs))%nat.
Proof.
  revert s. induction cs as [|c cs IH]; intros s Hs; simpl.
  - intros [= <-]. lia.
  - rewrite run_bind.
    pose proof (on_chunk_trailing_assistant meta c s Hs) as Hs1.
    pose proof (on_chunk_yields meta c s) as H1.
    destruct (on_chunk meta c s) as [[[]|e] s1]; [|done].
    intros H. rewrite (IH s1 Hs1 H).
    rewrite (H1 s1 (trailing_assistant_nonempty _ Hs) eq_refl).
    destruct (visible meta c); simpl; lia.
Qed.

(** X3.  When the stream ends without an exception, a turn yields once
    at its start, once for each event that is visible (a content event
    carrying text; a tool start or completion when tool metadata is
    shown) and once at its end. *)
Theorem stream_yields_once_per_visible_event
    (user_msg : string) (history : list ChatMessage) (meta : string)
    (agent : Agent) (g : globals) :
  ¬ stream_fails agent meta (ready user_msg history agent g) →
  length (yielded (get_response user_msg history meta "ON" (Return agent) (initial g)).2)
  = (2 + length (List.filter (visible meta) (streamed agent)))%nat.
Proof.
  intros Hok. rewrite get_response_ready.
  set (s := ready user_msg history agent g) in *.
  destruct (for_ (streamed agent) (on_chunk meta) (set_stream_response "" s))
    as [[[]|e] s1] eqn:E.
  - assert (stream_raises agent = false) as Hr.
    { destruct (stream_raises agent) eqn:Hr; [|done]. exfalso. apply Hok. by left. }
    rewrite (answer_returned agent meta "ON" s s1).
    + cbn [snd yielded set_running_agent add_yielded]. rewrite length_app.
      rewrite (for_chunks_yields meta _ _ _ (ready_trailing_assistant _ _ _ _) E).
      simpl. lia.
    + unfold work. simpl. rewrite run_bind, E, Hr. done.
  - exfalso. apply Hok. right. exists e. unfold stream_end. by rewrite E.
Qed.

Lemma stream_yields_once_per_visible_event_witness :
  length (yielded
    (get_response "hi" [] "ON" "ON" (Return Scenario.live_agent) (initial idle)).2) = 5%nat.
Proof.
  refine (stream_yields_once_per_visible_event "hi" [] "ON" Scenario.live_agent idle _).
  intros [H|[e H]]; [discriminate H|]. vm_compute in H. discriminate H.
Defined.

End Counting.

(** ** What a turn shows without tool metadata, and when awaited *)

Section Shown.
Import Chat Turn.

Lemma terse_some buffer x cs :
  terse buffer (Some x) cs = Some (default x (terse buffer None cs)).
Proof.
  revert buffer x. induction cs as [|c cs IH]; intros buffer x; simpl; [done|].
  destruct (event c), (chunk_content c); try apply IH.
  rewrite !IH. simpl. by destruct (terse _ None cs).
Qed.

Lemma on_chunk_terse_step meta c s base e :
  meta ≠ "ON" → chat_history s = base ++ [e] →
  ∃ s' e', on_chunk meta c s = (Return tt, s')
    ∧ chat_history s' = base ++ [e']
    ∧ (∀ cs, default e' (assistant <$> terse (stream_response s') None cs)
             = default e (assistant <$> terse (stream_response s) None (c :: cs))).
Proof.
  intros Hm Hh. unfold on_chunk, when.
  rewrite (bool_decide_eq_false_2 _ Hm).
  assert (chat_history s ≠ []) as Hne by (rewrite Hh; by destruct base).
  destruct (event c) eqn:He; simpl; run.
  - do 2 eexists. split; [done|]. split; [done|]. intros cs.
    cbn [terse]. by rewrite He.
  - do 2 eexists. split; [done|]. split; [done|]. intros cs.
    cbn [terse]. by rewrite He.
  - destruct (chunk_content c) as [text|] eqn:Hc; run.
    + rewrite last_insert_pred, Hh, removelast_last by done.
      do 2 eexists. split; [done|]. split; [done|]. intros cs.
      cbn [terse]. rewrite He. cbn beta iota. rewrite ?Hc, terse_some.
      cbn [stream_response add_yielded set_chat_history set_stream_response
           set_current_run_id].
      by destruct (terse _ None cs).
    + do 2 eexists. split; [done|]. split; [done|]. intros cs.
      cbn [terse]. rewrite He. cbn beta iota. by rewrite ?Hc.
  - do 2 eexists. split; [done|]. split; [done|]. intros cs.
    cbn [terse]. by rewrite He.
Qed.

Lemma for_chunks_terse_text meta cs s base e :
  meta ≠ "ON" → chat_history s = base ++ [e] →
  ∃ s', for_ cs (on_chunk meta) s = (Return tt, s')
    ∧ chat_history s' =
      base ++ [default e (assistant <$> terse (stream_response s) None cs)].
Proof.
  intros Hm. revert s e. induction cs as [|c cs IH]; intros s e Hh; simpl.
  - eauto.
  - rewrite run_bind.
    destruct (on_chunk_terse_step meta c s base e Hm Hh) as (s1 & e1 & -> & Hh1 & Ht).
    destruct (IH s1 e1 Hh1) as (s' & -> & Hs'). exists s'. split; [done|].
    rewrite Hs', (Ht cs). done.
Qed.

(** X4.  With tool metadata off, a stream that ends without an exception
    leaves one assistant entry after the user's message.  Its text is the
    buffer as it was at the last text fragment: the fragments in order,
    with a line break for each tool start before that fragment.  A stream
    without any text fragment leaves the loading marker in the
    transcript. *)
Theorem terse_stream_shows_the_buffer
    (user_msg : string) (history : list ChatMessage) (meta : string)
    (agent : Agent) (g : globals) :
  meta ≠ "ON" → stream_raises agent = false →
  chat_history (get_response user_msg history meta "ON" (Return agent) (initial g)).2
  = history ++
    [ {| role := "user"; content := user_msg; metadata := None |};
      match terse "" None (streamed agent) with
      | Some text => assistant text
      | None => assistant "### ..."
      end ].
Proof.
  intros Hm Hr. rewrite get_response_ready.
  set (s := ready user_msg history agent g).
  destruct (for_chunks_terse_text meta (streamed agent) (set_stream_response "" s)
              (history ++ [ {| role := "user"; content := user_msg; metadata := None |} ])
              (assistant "### ...") Hm eq_refl) as (s1 & E & Hh).
  rewrite (answer_returned agent meta "ON" s s1).
  - cbn [snd chat_history set_running_agent add_yielded]. rewrite Hh.
    cbn [stream_response set_stream_response]. rewrite <- app_assoc.
    by destruct (terse "" None (streamed agent)).
  - unfold work. simpl. by rewrite run_bind, E, Hr.
Qed.

Lemma terse_stream_shows_the_buffer_witness :
  chat_history
    (get_response "hi" [] "OFF" "ON" (Return Scenario.live_agent) (initial idle)).2
  = [ {| role := "user"; content := "hi"; metadata := None |};
      assistant "
found it" ].
Proof.
  refine (terse_stream_shows_the_buffer "hi" [] "OFF" Scenario.live_agent idle _ eq_refl).
  discriminate.
Defined.

Lemma for_show_appends (show : Message → stmt unit) (entries : Message → list ChatMessage)
    msgs s :
  (∀ m s, show m s = (Return tt, set_chat_history (chat_history s ++ entries m) s)) →
  for_ msgs show s =
  (Return tt, set_chat_history (chat_history s ++ mjoin (entries <$> msgs)) s).
Proof.
  intros H. revert s. induction msgs as [|m msgs IH]; intros s; simpl.
  - rewrite app_nil_r. by destruct s.
  - rewrite run_bind, H, IH. simpl. by rewrite <- app_assoc.
Qed.

Lemma show_with_tools_entries m s :
  show_with_tools m s =
  (Return tt, set_chat_history (chat_history s ++ batch_entries "ON" m) s).
Proof.
  unfold show_with_tools, batch_entries.
  rewrite (decide_True (P := "ON" = "ON")) by done.
  repeat case_decide; run.
  - by rewrite <- app_assoc.
  - done.
  - rewrite app_nil_r. by destruct s.
Qed.

Lemma show_assistant_only_entries meta m s :
  meta ≠ "ON" →
  show_assistant_only m s =
  (Return tt, set_chat_history (chat_history s ++ batch_entries meta m) s).
Proof.
  intros Hm. unfold show_assistant_only, batch_entries, when.
  rewrite (decide_False (P := meta = "ON")) by done.
  case_bool_decide.
  - rewrite decide_True by done. by run.
  - rewrite decide_False by done. run. rewrite app_nil_r. by destruct s.
Qed.

(** X5.  When the agent is awaited and returns, the loading marker
    gives way to an empty assistant entry, which stays, and the entries of
    the messages that follow the last user message of the response are
    added after it: one per assistant message and, when tool metadata is
    shown, two per tool message, the second with N/A as its time. *)
Theorem awaited_turn_shows_the_response
    (user_msg : string) (history : list ChatMessage) (meta : string)
    (agent : Agent) (g : globals) (msgs : list Message) :
  awaited agent = Return msgs →
  chat_history (get_response user_msg history meta "OFF" (Return agent) (initial g)).2
  = history ++
    [ {| role := "user"; content := user_msg; metadata := None |}; assistant "" ]
    ++ mjoin (batch_entries meta <$> after_last_user msgs).
Proof.
  intros Ha. rewrite get_response_ready.
  set (s := ready user_msg history agent g).
  set (s1 := set_chat_history (cleared (chat_history s)) (set_stream_response "" s)).
  assert (work agent meta "OFF" (set_stream_response "" s) =
          (Return tt,
           set_chat_history
             (chat_history s1 ++ mjoin (batch_entries meta <$> after_last_user msgs)) s1))
    as Hw.
  { unfold work. simpl. rewrite Ha. rewrite run_bind, run_lift. cbn beta iota.
    rewrite run_bind, run_clear_loading by (simpl; by destruct history).
    cbn beta iota. fold s1.
    destruct (decide (meta = "ON")) as [->|Hm].
    - apply for_show_appends. apply show_with_tools_entries.
    - apply for_show_appends. intros. by apply show_assistant_only_entries. }
  rewrite (answer_returned agent meta "OFF" s _ Hw).
  cbn [snd chat_history set_running_agent add_yielded set_chat_history
       set_stream_response s1 s ready].
  unfold cleared. rewrite last_snoc. simpl.
  rewrite last_insert_pred by (by destruct history).
  rewrite removelast_last. by rewrite <- !app_assoc.
Qed.

Lemma awaited_turn_shows_the_response_witness :
  chat_history
    (get_response "hi" [] "ON" "OFF" (Return Sample.awaited_agent) (initial idle)).2
  = [ {| role := "user"; content := "hi"; metadata := None |};
      assistant "";
      {| role := "assistant";
         content := "
**Tool:** `search`
**Arguments:** `{'q': 'x'}`
";
         metadata := Some Chat.title_started |};
      {| role := "assistant";
         content := "**Results:**
3 results
**Execution time:** N/A";
         metadata := Some Chat.title_completed |};
      assistant "found it" ].
Proof.
  exact (awaited_turn_shows_the_response "hi" [] "ON" Sample.awaited_agent idle
           Sample.response eq_refl).
Defined.

End Shown.

(** ** The handle of one turn *)

Section Handle.
Import Chat Turn.

(** X6.  Stopping twice makes at most one call of [cancel_run]: the
    second press finds no agent and changes nothing.  After a turn has
    ended, however it ended, the stop button finds no agent either, so it
    cancels nothing. *)
Theorem stop_finds_no_stale_agent :
  (∀ g, stop_agent_running_stream (stop_agent_running_stream g).2
        = (None, (stop_agent_running_stream g).2))
  ∧ (∀ user_msg history meta stream agent g,
       let after :=
         shared (get_response user_msg history meta stream (Return agent) (initial g)).2 in
       stop_agent_running_stream after = (None, after)).
Proof.
  split.
  - intros g. unfold stop_agent_running_stream.
    by destruct (running_agent g) eqn:E; simpl; rewrite ?E.
  - intros user_msg history meta stream agent g. cbn zeta.
    rewrite get_response_ready. unfold answer, try_finally, stop_agent_running_stream.
    by destruct (try_except _ _ _).
Qed.

Lemma for_chunks_stop_point meta cs : ∀ s,
  cs ≠ [] →
  let end_ := for_ cs (on_chunk meta) s in
  ∃ pre c post, cs = pre ++ c :: post
    ∧ (for_ pre (on_chunk meta) s).1 = Return tt
    ∧ match end_.1 with
      | Return _ => post = []
      | Raise e => (on_chunk meta c (for_ pre (on_chunk meta) s).2).1 = Raise e
      end
    ∧ shared end_.2
      = {| running_agent := running_agent (shared s); current_run_id := run_id c |}.
Proof.
  induction cs as [|c cs IH]; intros s Hne; [done|]. cbn zeta.
  cbn [for_]. rewrite run_bind.
  pose proof (on_chunk_shared meta c s) as Hc.
  destruct (on_chunk meta c s) as [[[]|e] s1] eqn:Hon; cbn [snd] in Hc.
  - destruct cs as [|c' cs].
    + exists [], c, []. cbn [for_ app]. rewrite !run_ret. cbn [fst snd]. done.
    + destruct (IH s1 ltac:(done)) as (pre & c0 & post & Hcs & Hpre & Hend & Hsh).
      exists (c :: pre), c0, post. rewrite Hcs. split; [done|].
      cbn [for_]. rewrite run_bind, Hon. split; [done|]. split; [by rewrite <- Hcs|].
      rewrite <- Hcs, Hsh, Hc. done.
  - exists [], c, cs. cbn [for_ app]. rewrite !run_ret. cbn [fst snd].
    rewrite Hon. done.
Qed.

(** X7.  While the events of a stream are handled, the globals keep the
    agent of the turn and name the run of the event handled last: the last
    event of the stream when all were handled, the event whose handling
    raised otherwise, the events before it having been handled without an
    exception.  A press of stop then asks that agent to cancel that
    run. *)
Theorem stop_names_the_latest_event (meta : string) (cs : list chunk) (s : state)
    (agent : nat) :
  cs ≠ [] → running_agent (shared s) = Some agent →
  let end_ := for_ cs (on_chunk meta) s in
  ∃ pre c post, cs = pre ++ c :: post
    ∧ (for_ pre (on_chunk meta) s).1 = Return tt
    ∧ match end_.1 with
      | Return _ => post = []
      | Raise e => (on_chunk meta c (for_ pre (on_chunk meta) s).2).1 = Raise e
      end
    ∧ (stop_agent_running_stream (shared end_.2)).1 = Some (agent, run_id c).
Proof.
  intros Hne Ha. cbn zeta.
  destruct (for_chunks_stop_point meta cs s Hne) as (pre & c & post & Hcs & Hpre & Hend & Hsh).
  exists pre, c, post. split; [done|]. split; [done|]. split; [done|].
  unfold stop_agent_running_stream. by rewrite Hsh, Ha.
Qed.

Lemma stop_names_the_latest_event_witness :
  streamed Scenario.live_agent ≠ []
  ∧ running_agent (shared Scenario.waiting) = Some 1%nat
  ∧ ∃ pre c post, streamed Scenario.live_agent = pre ++ c :: post
    ∧ (for_ pre (on_chunk "ON") Scenario.waiting).1 = Return tt
    ∧ match (for_ (streamed Scenario.live_agent) (on_chunk "ON") Scenario.waiting).1 with
      | Return _ => post = []
      | Raise e =>
          (on_chunk "ON" c (for_ pre (on_chunk "ON") Scenario.waiting).2).1 = Raise e
      end
    ∧ (stop_agent_running_stream
         (shared (for_ (streamed Scenario.live_agent) (on_chunk "ON") Scenario.waiting).2)).1
      = Some (1%nat, run_id c).
Proof.
  split; [discriminate|]. split; [reflexivity|].
  apply (stop_names_the_latest_event "ON" (streamed Scenario.live_agent) Scenario.waiting 1).
  - discriminate.
  - reflexivity.
Defined.

End Handle.

(** ** Stored transcripts with and without tool metadata *)

Section Toggle.
Import Session.

Lemma show_message_plain meta tool_times h msg h1 :
  meta ≠ "ON" →
  show_message "ON" tool_times h msg = Return h1 →
  show_message meta tool_times (List.filter Turn.plain h) msg = Return (List.filter Turn.plain h1).
Proof.
  intros Hm. unfold show_message.
  destruct (decide (meta = "ON" ∧ _)) as [[? _]|_]; [done|].
  destruct (decide ("ON" = "ON" ∧ msg_role msg = Some "tool")) as [[_ Hr]|Hn].
  - rewrite Hr. destruct (exec_time _ _); simpl; [|done].
    intros [= <-].
    destruct (decide ("tool" = "user" ∨ "tool" = "assistant")) as [[?|?]|_]; [done..|].
    rewrite List.filter_app. simpl. by rewrite app_nil_r.
  - destruct (msg_role msg) as [r|]; [|by intros [= <-]].
    destruct (decide _); [|by intros [= <-]].
    destruct (msg_content msg) as [| |[text|items]]; try done;
      intros [= <-]; by rewrite List.filter_app.
Qed.

Lemma add_message_plain meta latex tool_times h h' msg h1 :
  meta ≠ "ON" → latex ≠ "ON" → h' = List.filter Turn.plain h →
  add_message "ON" latex tool_times h msg = Return h1 →
  ∃ h1', add_message meta latex tool_times h' msg = Return h1'
         ∧ h1' = List.filter Turn.plain h1.
Proof.
  intros Hm Hl ->. unfold add_message.
  destruct (show_message "ON" tool_times h msg) as [h2|] eqn:E; simpl; [|done].
  rewrite (show_message_plain _ _ _ _ _ Hm E). simpl.
  rewrite !(decide_False (P := latex = "ON")) by done. intros [= <-]. eauto.
Qed.

Lemma add_run_plain meta latex h h' r h1 :
  meta ≠ "ON" → latex ≠ "ON" → h' = List.filter Turn.plain h →
  add_run "ON" latex h r = Return h1 →
  ∃ h1', add_run meta latex h' r = Return h1' ∧ h1' = List.filter Turn.plain h1.
Proof.
  intros Hm Hl Hh. unfold add_run.
  destruct (build_tool_times (events r)) as [tool_times|]; simpl; [|done].
  apply (for_each_related (λ h h', h' = List.filter Turn.plain h)); [|done].
  intros. by eapply add_message_plain.
Qed.

(** X8.  Switching tool metadata off removes the tool entries and
    nothing else: when the stored runs can be collected with tool metadata
    shown, and the LaTeX trigger is off, collecting them without tool
    metadata gives the same entries in the same order minus those that
    carry a title; the transcript returned is the duplicate filter applied
    to them. *)
Theorem metadata_off_drops_tool_entries (meta latex : string) (runs : list run)
    (h : list ChatMessage) :
  meta ≠ "ON" → latex ≠ "ON" →
  collect "ON" latex runs = Return h →
  collect meta latex runs = Return (List.filter Turn.plain h)
  ∧ rebuild meta latex runs = Return (dedupe (List.filter Turn.plain h)).
Proof.
  intros Hm Hl Hc.
  assert (collect meta latex runs = Return (List.filter Turn.plain h)) as E.
  { unfold collect in *.
    edestruct (for_each_related (λ h h', h' = List.filter Turn.plain h)
                 (add_run "ON" latex) (add_run meta latex)) as (h' & E & ->);
      [|reflexivity|exact Hc|exact E].
    intros h0 h0' r h1 Hh Hrun. by eapply add_run_plain. }
  split; [exact E|]. unfold rebuild. by rewrite E.
Qed.

Lemma metadata_off_drops_tool_entries_witness :
  collect "OFF" "OFF" [Scenario.stored_run] =
  Return [ {| role := "user"; content := "hi"; metadata := None |}; assistant "found it" ].
Proof.
  refine (proj1 (metadata_off_drops_tool_entries "OFF" "OFF" [Scenario.stored_run] _
                   _ _ eq_refl)); discriminate.
Defined.

End Toggle.

(** ** The LaTeX trigger on a transcript *)

Section Trigger.
Import Session.

Lemma touch_first_assistant_skip l m r :
  Forall (λ x, role x ≠ "assistant") l → role m = "assistant" →
  touch_first_assistant (l ++ m :: r) =
  l ++ {| role := role m; content := content m +:+ " "; metadata := metadata m |} :: r.
Proof.
  intros Hl Hm. induction Hl as [|x l Hx _ IH]; simpl.
  - by rewrite decide_True.
  - rewrite decide_False by done. by rewrite IH.
Qed.

Lemma touch_first_assistant_none l :
  Forall (λ x, role x ≠ "assistant") l → touch_first_assistant l = l.
Proof.
  intros Hl. induction Hl as [|x l Hx _ IH]; simpl; [done|].
  rewrite decide_False by done. by rewrite IH.
Qed.

(** X9.  The LaTeX trigger adds one space to the content of the last
    assistant entry of the transcript and changes nothing else: not the
    entries before it, not the ones after it, not its role or metadata.
    On a transcript without assistant entry it changes nothing. *)
Theorem trigger_latex_touches_last_assistant :
  (∀ pre m post,
     role m = "assistant" → Forall (λ x, role x ≠ "assistant") post →
     trigger_latex (pre ++ m :: post) =
     pre ++ {| role := role m; content := content m +:+ " "; metadata := metadata m |}
         :: post)
  ∧ (∀ h, Forall (λ x, role x ≠ "assistant") h → trigger_latex h = h).
Proof.
  split.
  - intros pre m post Hm Hpost. unfold trigger_latex.
    rewrite reverse_app, reverse_cons, <- app_assoc. simpl.
    rewrite touch_first_assistant_skip; [|by apply Forall_reverse|done].
    rewrite reverse_app, reverse_cons, !reverse_involutive, <- app_assoc. done.
  - intros h Hh. unfold trigger_latex.
    rewrite touch_first_assistant_none by (by apply Forall_reverse).
    apply reverse_involutive.
Qed.

Lemma trigger_latex_touches_last_assistant_witness :
  trigger_latex [ assistant "a"; assistant "b";
                  {| role := "user"; content := "q"; metadata := None |} ]
  = [ assistant "a"; assistant "b ";
      {| role := "user"; content := "q"; metadata := None |} ].
Proof.
  apply (proj1 trigger_latex_touches_last_assistant [assistant "a"] (assistant "b")
           [ {| role := "user"; content := "q"; metadata := None |} ]).
  - reflexivity.
  - repeat constructor. discriminate.
Defined.

End Trigger.

(** ** The database file *)

Section Files.
Import Store.

Lemma sql_eq_some (a b : string) : sql_eq (Some a) (Some b) = bool_decide (a = b).
Proof. reflexivity. Qed.

Lemma sql_eq_null_r (column : option string) : sql_eq column None = false.
Proof. by destruct column. Qed.

Lemma connect_sessions (db : file) : sessions (connect db).2 = sessions db.
Proof. by destruct db as [[]| |t ro]. Qed.

Lemma connect_memories (db : file) : memories (connect db).2 = memories db.
Proof. by destruct db as [[]| |t ro]. Qed.

Lemma get_session_ids_from_db_file (username : option string) (db : file) :
  (get_session_ids_from_db username db).2 = (connect db).2.
Proof. unfold get_session_ids_from_db. by destruct (connect db) as [[t|e] db']. Qed.

Lemma get_session_ids_from_db_choices (username : option string) (db : file) :
  (get_session_ids_from_db username db).1
  = {| choices := reverse (session_id <$> List.filter (owned_by username) (sessions db));
       clears_value := false |}.
Proof. by destruct db as [[]| |[[rows|] ?] []]. Qed.

Lemma filter_filter_and {A} (p q : A → bool) (l : list A) :
  List.filter p (List.filter q l) = List.filter (λ a, q a && p a) l.
Proof.
  induction l as [|a l IH]; [done|]. simpl.
  destruct (q a) eqn:Eq; simpl; [|done]. destruct (p a); by rewrite IH.
Qed.

Lemma filter_filter_comm {A} (p q : A → bool) (l : list A) :
  List.filter p (List.filter q l) = List.filter q (List.filter p l).
Proof.
  rewrite !filter_filter_and. apply List.filter_ext. intros a. apply andb_comm.
Qed.

Lemma filter_fmap {A B} (f : A → B) (p : B → bool) (l : list A) :
  List.filter p (f <$> l) = f <$> List.filter (λ a, p (f a)) l.
Proof.
  induction l as [|a l IH]; [done|]. csimpl. destruct (p (f a)); csimpl; by rewrite IH.
Qed.

Lemma filter_reverse {A} (p : A → bool) (l : list A) :
  List.filter p (reverse l) = reverse (List.filter p l).
Proof.
  induction l as [|a l IH]; [done|].
  rewrite reverse_cons, List.filter_app, IH. simpl.
  destruct (p a); [by rewrite reverse_cons|by rewrite app_nil_r].
Qed.

Lemma filter_none {A} (p : A → bool) (l : list A) :
  Forall (λ a, p a = false) l → List.filter p l = [].
Proof. induction 1 as [|a l Ha _ IH]; [done|]. simpl. by rewrite Ha. Qed.

Lemma filter_all {A} (p : A → bool) (l : list A) :
  Forall (λ a, p a = true) l → List.filter p l = l.
Proof. induction 1 as [|a l Ha _ IH]; [done|]. simpl. by rewrite Ha, IH. Qed.

Lemma filter_negb_idem {A} (p : A → bool) (l : list A) :
  List.filter p (List.filter (λ a, negb (p a)) l) = [].
Proof.
  apply filter_none, Forall_forall. intros a Ha.
  apply list_elem_of_In, filter_In in Ha as [_ Ha]. by destruct (p a).
Qed.

(** The file after [delete_session_from_db]. *)
Lemma delete_session_from_db_sessions (session username : option string) (db : file) :
  sessions (left_file (delete_session_from_db session username db))
  = if unselected session || refuses_writes db then sessions db
    else List.filter (λ row, negb (selected session (Some (Py.fmt username)) row))
                     (sessions db).
Proof.
  unfold delete_session_from_db.
  destruct (unselected session); simpl.
  - destruct (get_session_ids_from_db username db) as [ids db'] eqn:E. simpl.
    change db' with (ids, db').2. by rewrite <- E, get_session_ids_from_db_file, connect_sessions.
  - by destruct db as [[]| |[[rows|] ?] []].
Qed.

Lemma delete_session_from_db_memories (session username : option string) (db : file) :
  memories (left_file (delete_session_from_db session username db)) = memories db.
Proof.
  unfold delete_session_from_db.
  destruct (unselected session).
  - destruct (get_session_ids_from_db username db) as [ids db'] eqn:E. simpl.
    change db' with (ids, db').2. by rewrite <- E, get_session_ids_from_db_file, connect_memories.
  - by destruct db as [[]| |[[rows|] ?] []].
Qed.

Lemma delete_session_from_db_returned (session username : option string) (db : file) :
  returned (delete_session_from_db session username db)
  = ((get_session_ids_from_db username
        (left_file (delete_session_from_db session username db))).1, [], small).
Proof.
  rewrite get_session_ids_from_db_choices, delete_session_from_db_sessions.
  unfold delete_session_from_db.
  destruct (unselected session); simpl.
  - destruct (get_session_ids_from_db username db) as [ids db'] eqn:E. simpl.
    change ids with (ids, db').1. by rewrite <- E, get_session_ids_from_db_choices.
  - by destruct db as [[]| |[[rows|] ?] []].
Qed.

Lemma unselected_false (session : string) :
  session ≠ "" → unselected (Some session) = false.
Proof. by destruct session. Qed.

(** X10. Deleting the session [session] of user [username] and listing
    again: unless the file refuses writes, the list returned is the list
    of before without [session], the chat is emptied, and the list of
    every other user is as before. *)
Theorem delete_then_list (session username : string) (db : file)
    (Hsession : session ≠ "") (Hwrites : refuses_writes db = false) :
  let after := delete_session_from_db (Some session) (Some username) db in
  returned after
  = ({| choices :=
          List.filter (λ id, negb (bool_decide (id = session)))
            (choices (get_session_ids_from_db (Some username) db).1);
        clears_value := false |}, [], small)
  ∧ ∀ other, other ≠ username →
      (get_session_ids_from_db (Some other) (left_file after)).1
      = (get_session_ids_from_db (Some other) db).1.
Proof.
  intros after. subst after. split.
  - rewrite delete_session_from_db_returned, !get_session_ids_from_db_choices,
      delete_session_from_db_sessions, unselected_false, Hwrites by done.
    do 2 f_equal. simpl.
    rewrite filter_reverse, filter_fmap. do 3 f_equal.
    rewrite (filter_filter_comm (owned_by _)), !filter_filter_and.
    apply List.filter_ext. intros row. unfold owned_by, selected.
    destruct (user_id row) as [u|]; simpl; [|done].
    by destruct (bool_decide (u = username)), (bool_decide (session_id row = session)).
  - intros other Hother.
    rewrite !get_session_ids_from_db_choices, delete_session_from_db_sessions,
      unselected_false, Hwrites by done.
    cbn [orb]. f_equal. f_equal. f_equal. rewrite filter_filter_comm.
    apply filter_all, Forall_forall. intros row Hrow.
    apply list_elem_of_In, filter_In in Hrow as [_ Hrow].
    unfold owned_by in Hrow. unfold selected.
    destruct (user_id row) as [u|]; [|done]. simpl in *.
    apply bool_decide_eq_true in Hrow as ->.
    by rewrite (bool_decide_eq_false_2 (other = username)), andb_false_r.
Qed.

Lemma delete_then_list_witness :
  "s1" ≠ ""
  ∧ refuses_writes Stored.file = false
  ∧ let after := delete_session_from_db (Some "s1") (Some "ann") Stored.file in
    returned after
    = ({| choices :=
            List.filter (λ id, negb (bool_decide (id = "s1")))
              (choices (get_session_ids_from_db (Some "ann") Stored.file).1);
          clears_value := false |}, [], small)
    ∧ ∀ other, other ≠ "ann" →
        (get_session_ids_from_db (Some other) (left_file after)).1
        = (get_session_ids_from_db (Some other) Stored.file).1.
Proof.
  split; [done|]. split; [done|].
  exact (delete_then_list "s1" "ann" Stored.file ltac:(done) eq_refl).
Defined.

Lemma fetch_runs_result (session username : option string) (db : file) :
  (fetch_runs session username db).1 = Session.DbError
  ∨ (fetch_runs session username db).1
    = Session.Row (runs <$> head (List.filter (selected session username) (sessions db))).
Proof. destruct db as [[]| |[[rows|] ?] []]; by eauto. Qed.

Lemma selected_after_delete (session username : option string) (db : file) :
  session ≠ Some "" → refuses_writes db = false →
  List.filter (selected session username)
    (sessions (left_file (delete_session_from_db session username db))) = [].
Proof.
  intros Hsession Hwrites. rewrite delete_session_from_db_sessions, Hwrites, orb_false_r.
  destruct session as [session|].
  - rewrite unselected_false by congruence.
    destruct username as [username|]; simpl.
    + apply (filter_negb_idem (selected (Some session) (Some username))).
    + apply filter_none, Forall_forall. intros row _.
      unfold selected. by rewrite sql_eq_null_r, andb_false_r.
  - apply filter_none, Forall_forall. intros row _. unfold selected.
    by rewrite sql_eq_null_r.
Qed.

Section Reload.
Variable json_loads_twice : string → result (list Session.run).

(** X11. Unless the file refuses writes, a session that has just been
    deleted loads as the empty chat, whatever the user name and the two
    switches. *)
Theorem delete_then_load (session username : option string) (meta latex : string)
    (db : file) (Hsession : session ≠ Some "") (Hwrites : refuses_writes db = false) :
  (load_sessions_history json_loads_twice session username meta latex
     (left_file (delete_session_from_db session username db))).1
  = Session.empty_history.
Proof.
  unfold load_sessions_history.
  pose proof (fetch_runs_result session username
                (left_file (delete_session_from_db session username db))) as H.
  destruct (fetch_runs session username _) as [fetched db']. simpl in *.
  destruct H as [->| ->]; [done|].
  by rewrite selected_after_delete.
Qed.

End Reload.

Lemma delete_then_load_witness :
  Some "s1" ≠ Some ""
  ∧ refuses_writes Stored.file = false
  ∧ (load_sessions_history (λ _, Return [Scenario.stored_run]) (Some "s1") (Some "ann")
       "ON" "OFF"
       (left_file (delete_session_from_db (Some "s1") (Some "ann") Stored.file))).1
    = Session.empty_history.
Proof.
  split; [done|]. split; [done|].
  exact (delete_then_load (λ _, Return [Scenario.stored_run]) (Some "s1") (Some "ann")
           "ON" "OFF" Stored.file ltac:(done) eq_refl).
Defined.

Lemma elem_of_filter_bool {A} (p : A → bool) (l : list A) (a : A) :
  a ∈ List.filter p l ↔ a ∈ l ∧ p a = true.
Proof. by rewrite !list_elem_of_In, filter_In. Qed.

(** X12. The rows [delete_session_from_db] leaves are the rows of before
    except those of the given session whose user is the text of
    [username] ([None] reads as the text None); with no session given,
    or on a file that refuses writes, nothing is removed, and the
    memories are never touched. *)
Theorem delete_session_keeps_other_rows (session username : option string) (db : file)
    (row : session_row) :
  let after := left_file (delete_session_from_db session username db) in
  (row ∈ sessions after
   ↔ row ∈ sessions db
     ∧ (session = None ∨ session = Some "" ∨ refuses_writes db = true
        ∨ session ≠ Some (session_id row) ∨ user_id row ≠ Some (Py.fmt username)))
  ∧ memories after = memories db.
Proof.
  intros after. subst after.
  rewrite delete_session_from_db_memories, delete_session_from_db_sessions.
  split; [|done].
  destruct session as [[|c session]|]; simpl.
  - split; [intros H; split; [done|by right; left]|by intros [H _]].
  - destruct (refuses_writes db).
    { split; [intros H; split; [done|by right; right; left]|by intros [H _]]. }
    rewrite elem_of_filter_bool. unfold selected. simpl.
    rewrite negb_true_iff, andb_false_iff, !bool_decide_eq_false.
    split; intros [H H']; (split; [done|]).
    + destruct H' as [H'|H']; [right; right; right; left; congruence|].
      right; right; right; right. destruct (user_id row) as [u|]; [|done].
      simpl in H'. apply bool_decide_eq_false in H'. congruence.
    + destruct H' as [[=]|[[=]|[[=]|[H'|H']]]]; [left; congruence|right].
      destruct (user_id row) as [u|]; [|done].
      simpl. apply bool_decide_eq_false. congruence.
  - split; [intros H; split; [done|by left]|by intros [H _]].
Qed.

Lemma delete_all_sessions_from_db_sessions (DB_FILE : string) (username : option string)
    (db : file) :
  sessions (left_file (delete_all_sessions_from_db DB_FILE username db))
  = if refuses_writes db then sessions db
    else List.filter (λ row, negb (owned_by username row)) (sessions db).
Proof. by destruct db as [[]| |[[rows|] ?] []]. Qed.

Lemma delete_all_sessions_from_db_returned (DB_FILE : string) (username : option string)
    (db : file) :
  returned (delete_all_sessions_from_db DB_FILE username db)
  = (if refuses_writes db then (get_session_ids_from_db (Some DB_FILE) db).1
     else {| choices := []; clears_value := bool_decide (agent_sessions_of db ≠ None) |},
     [], {| visible := false |}).
Proof. by destruct db as [[]| |[[rows|] ?] []]. Qed.

(** X13. Unless the file refuses writes, [delete_all_sessions_from_db]
    returns an empty list of sessions and an empty chat, whatever the
    state of the file; afterwards the user has no session left and every
    other user has the list of before.  On a file that refuses writes
    the list returned is that of the user named as the file is
    ([settings.DB_FILE]), and nothing is removed. *)
Theorem delete_all_then_list (DB_FILE : string) (username : option string) (db : file) :
  let after := delete_all_sessions_from_db DB_FILE username db in
  (returned after).1.2 = []
  ∧ memories (left_file after) = memories db
  ∧ if refuses_writes db then
      (returned after).1.1 = (get_session_ids_from_db (Some DB_FILE) db).1
      ∧ sessions (left_file after) = sessions db
    else
      choices (returned after).1.1 = []
      ∧ ∀ user,
          choices (get_session_ids_from_db (Some user) (left_file after)).1
          = if decide (username = Some user) then []
            else choices (get_session_ids_from_db (Some user) db).1.
Proof.
  intros after. subst after.
  split; [by destruct db as [[]| |[[rows|] ?] []]|].
  split; [by destruct db as [[]| |[[rows|] ?] []]|].
  rewrite delete_all_sessions_from_db_returned.
  pose proof (delete_all_sessions_from_db_sessions DB_FILE username db) as Hs.
  destruct (refuses_writes db); [done|].
  split; [done|]. intros user.
  rewrite !get_session_ids_from_db_choices, Hs. simpl.
  case_decide as Hu.
  - subst username. by rewrite filter_negb_idem.
  - do 2 f_equal. rewrite filter_filter_comm.
    apply filter_all, Forall_forall. intros row Hrow.
    apply elem_of_filter_bool in Hrow as [_ Hrow].
    unfold owned_by in *. destruct (user_id row) as [u|]; [|done].
    destruct username as [username|]; [|done]. simpl in *.
    apply bool_decide_eq_true in Hrow as ->.
    rewrite bool_decide_eq_false_2; [done|congruence].
Qed.

(** X14. [clear_long_term_memory] removes the memories of the user and
    nothing else: the sessions and the memories of other users stay, and
    a missing file is not created; on a file that refuses writes nothing
    is removed.  The success message is shown exactly when the user had a
    memory and the file took the write. *)
Theorem clear_long_term_memory_erases (DB_FILE : string) (username : option string)
    (db : file) :
  let after := clear_long_term_memory DB_FILE username db in
  sessions (left_file after) = sessions db
  ∧ memories (left_file after)
    = (if refuses_writes db then memories db
       else List.filter (λ row, negb (remembered_by username row)) (memories db))
  ∧ exists_ (left_file after) = exists_ db
  ∧ ((∃ text, shown after = Success text)
     ↔ refuses_writes db = false
       ∧ ∃ row, row ∈ memories db ∧ username ≠ None ∧ memory_user_id row = username).
Proof.
  intros after. subst after.
  assert (Hcount : ∀ rows,
    length (List.filter (remembered_by username) rows) = 0%nat
    ↔ ¬ ∃ row, row ∈ rows ∧ username ≠ None ∧ memory_user_id row = username).
  { intros rows. rewrite length_zero_iff_nil. split.
    - intros E (row & Hrow & Hu & Hr).
      assert (row ∈ List.filter (remembered_by username) rows) as Hin.
      { apply elem_of_filter_bool. split; [done|]. unfold remembered_by. rewrite Hr.
        destruct username; [|done]. simpl. by apply bool_decide_eq_true. }
      rewrite E in Hin. by apply not_elem_of_nil in Hin.
    - intros H. apply filter_none, Forall_forall. intros row Hrow.
      destruct (remembered_by username row) eqn:E; [|done].
      destruct H. exists row. split; [done|]. unfold remembered_by in E.
      destruct (memory_user_id row), username; try done.
      simpl in E. apply bool_decide_eq_true in E as ->. done. }
  destruct db as [[]| |[sessions [rows|]] ro];
    try (split; [done|]; split; [first [done|by destruct ro]|]; split; [done|];
         split; [by intros [? [=]]
                |intros (_ & row & Hrow & _); by apply not_elem_of_nil in Hrow]).
  unfold clear_long_term_memory.
  cbn beta iota zeta delta [exists_ negb connect user_memories agent_sessions].
  destruct (decide _) as [Hc|Hc]; simpl.
  - split; [done|]. split; [|split; [done|]].
    + destruct ro; [done|]. symmetry. apply filter_all, Forall_forall. intros row Hrow.
      destruct (remembered_by username row) eqn:E; [|done].
      apply length_zero_iff_nil in Hc.
      assert (row ∈ List.filter (remembered_by username) rows) as Hin
        by (by apply elem_of_filter_bool).
      rewrite Hc in Hin. by apply not_elem_of_nil in Hin.
    + apply Hcount in Hc. split; [by intros [? [=]]|by intros [_ ?]].
  - destruct ro; simpl.
    { split; [done|]. split; [done|]. split; [done|].
      split; [by intros [? [=]]|by intros [[=] _]]. }
    split; [done|]. split; [done|]. split; [done|].
    split; [|by eauto]. intros _. split; [done|].
    destruct (List.filter (remembered_by username) rows) as [|row l] eqn:E; [done|].
    assert (row ∈ List.filter (remembered_by username) rows) as Hin
      by (rewrite E; apply list_elem_of_here).
    apply elem_of_filter_bool in Hin as [Hin Hr]. exists row. split; [done|].
    unfold remembered_by in Hr.
    destruct (memory_user_id row), username; try done.
    simpl in Hr. by apply bool_decide_eq_true in Hr as ->.
Qed.

End Files.

(** ** Choosing a model *)

Section Choosing.
Import Models.

Lemma append_cons (c : ascii) (a b : string) : String c a +:+ b = String c (a +:+ b).
Proof. reflexivity. Qed.

Lemma split_cons_sep (sep : ascii) (s : string) :
  Str.split sep (String sep s) = "" :: Str.split sep s.
Proof. simpl. by rewrite Ascii.eqb_refl. Qed.

Lemma split_not_nil (sep : ascii) (s : string) : Str.split sep s ≠ [].
Proof.
  induction s as [|c s IH]; [done|]. simpl.
  destruct (Ascii.eqb c sep); [done|]. by destruct (Str.split sep s).
Qed.

Lemma split_app (sep : ascii) (before after : string) :
  Str.contains sep before = false →
  Str.split sep (before +:+ String sep after) = before :: Str.split sep after.
Proof.
  induction before as [|c before IH]; intros H.
  - apply split_cons_sep.
  - simpl in H. apply orb_false_iff in H as [Hc H].
    rewrite append_cons. simpl. by rewrite Hc, IH.
Qed.

Lemma split_without (sep : ascii) (s : string) :
  Str.contains sep s = false → Str.split sep s = [s].
Proof.
  induction s as [|c s IH]; intros H; [done|].
  simpl in H. apply orb_false_iff in H as [Hc H]. simpl. by rewrite Hc, IH.
Qed.

Lemma split_once_app (sep : ascii) (before after : string) :
  Str.contains sep before = false →
  Str.split_once sep (before +:+ String sep after) = [before; after].
Proof.
  induction before as [|c before IH]; intros H.
  - simpl. by rewrite Ascii.eqb_refl.
  - simpl in H. apply orb_false_iff in H as [Hc H].
    rewrite append_cons. simpl. by rewrite Hc, IH.
Qed.

Lemma split_once_without (sep : ascii) (s : string) :
  Str.contains sep s = false → Str.split_once sep s = [s].
Proof.
  induction s as [|c s IH]; intros H; [done|].
  simpl in H. apply orb_false_iff in H as [Hc H]. simpl. by rewrite Hc, IH.
Qed.

Lemma contains_cut (sep : ascii) (s : string) :
  Str.contains sep s = true →
  ∃ before after, s = before +:+ String sep after ∧ Str.contains sep before = false.
Proof.
  induction s as [|c s IH]; intros H; [done|]. simpl in H.
  destruct (Ascii.eqb c sep) eqn:Hc.
  - apply Ascii.eqb_eq in Hc as ->. by exists "", s.
  - destruct (IH H) as (before & after & -> & Hb).
    exists (String c before), after. split; [done|]. simpl. by rewrite Hc.
Qed.

Lemma from_app (before after : string) (sep : ascii) :
  Str.from (String.length before + 1) (before +:+ String sep after) = after.
Proof. induction before as [|c before IH]; [done|]. by rewrite append_cons. Qed.

Lemma from_all (s : string) : Str.from (String.length s + 1) s = "".
Proof. by induction s as [|c s IH]. Qed.

Lemma owner_of_app (owner name : string) :
  Str.contains "_" owner = false → owner_of (owner +:+ String "_" name) = owner.
Proof. intros H. unfold owner_of. by rewrite split_app. Qed.

Lemma model_name_of_app (owner name : string) :
  Str.contains "_" owner = false → model_name_of (owner +:+ String "_" name) = name.
Proof. intros H. unfold model_name_of. by rewrite owner_of_app, from_app. Qed.

(** X15. Splitting a full model name made by [get_full_model_name] gives
    back the owner and the model name, when the owner has no
    underscore. *)
Theorem full_model_name_splits (owner model_name : string)
    (Howner : Str.contains "_" owner = false) :
  owner_of (get_full_model_name owner model_name) = owner
  ∧ model_name_of (get_full_model_name owner model_name) = model_name.
Proof.
  unfold get_full_model_name. change ("_" +:+ model_name) with (String "_" model_name).
  by rewrite owner_of_app, model_name_of_app.
Qed.

Lemma full_model_name_splits_witness :
  Str.contains "_" "Google" = false
  ∧ owner_of (get_full_model_name "Google" "gemini_2.5") = "Google"
  ∧ model_name_of (get_full_model_name "Google" "gemini_2.5") = "gemini_2.5".
Proof.
  split; [reflexivity|].
  exact (full_model_name_splits "Google" "gemini_2.5" eq_refl).
Defined.

Lemma owner_and_name_join (model : string) :
  get_full_model_name (owner_of model) (model_name_of model)
  = if Str.contains "_" model then model else model +:+ "_".
Proof.
  destruct (Str.contains "_" model) eqn:H.
  - destruct (contains_cut _ _ H) as (before & after & -> & Hb).
    by rewrite owner_of_app, model_name_of_app.
  - unfold model_name_of, owner_of. by rewrite split_without, from_all.
Qed.

(** X16. Joining the owner and the model name of a configured model
    gives the model back when it has an underscore; a model without one
    comes back with an underscore added at its end, and is listed under
    the empty model name. *)
Theorem split_model_joins (model : string) :
  get_full_model_name (owner_of model) (model_name_of model)
  = (if Str.contains "_" model then model else model +:+ "_")
  ∧ (Str.contains "_" model = false → owner_of model = model ∧ model_name_of model = "").
Proof.
  split; [apply owner_and_name_join|].
  intros H. unfold model_name_of, owner_of. by rewrite split_without, from_all.
Qed.

Lemma lookup_append_to (owner key value : string) (d : list (string * list string)) :
  lookup owner (append_to key value d)
  = if decide (key = owner) then lookup owner d ++ [value] else lookup owner d.
Proof.
  induction d as [|[k values] d IH]; simpl.
  - by destruct (decide (key = owner)).
  - destruct (decide (k = key)) as [->|Hk]; simpl.
    + by destruct (decide (key = owner)).
    + destruct (decide (k = owner)) as [->|Ho].
      * by rewrite decide_False by done.
      * apply IH.
Qed.

Lemma keys_append_to (key value : string) (d : list (string * list string)) :
  (append_to key value d).*1 = if decide (key ∈ d.*1) then d.*1 else d.*1 ++ [key].
Proof.
  induction d as [|[k values] d IH].
  - destruct (decide (key ∈ ([] : list (string * list string)).*1)) as [H|H];
      [by apply not_elem_of_nil in H|done].
  - cbn [append_to]. destruct (decide (k = key)) as [->|Hk].
    + destruct (decide (key ∈ ((key, values) :: d).*1)) as [H|H]; [reflexivity|].
      destruct H. apply list_elem_of_here.
    + change (k :: (append_to key value d).*1
              = if decide (key ∈ ((k, values) :: d).*1)
                then k :: d.*1 else k :: d.*1 ++ [key]).
      rewrite IH. destruct (decide (key ∈ d.*1)) as [Hin|Hin].
      * destruct (decide (key ∈ ((k, values) :: d).*1)) as [H|H]; [reflexivity|].
        destruct H. by apply list_elem_of_further.
      * destruct (decide (key ∈ ((k, values) :: d).*1)) as [H|H]; [|reflexivity].
        change (key ∈ k :: d.*1) in H.
        apply elem_of_cons in H as [?|?]; [congruence|done].
Qed.

Lemma lookup_grouped (owner : string) (MODELS : list string) d :
  lookup owner (grouped d MODELS)
  = lookup owner d
    ++ (model_name_of <$> List.filter (λ m, bool_decide (owner_of m = owner)) MODELS).
Proof.
  revert d. induction MODELS as [|m MODELS IH]; intros d; simpl.
  - by rewrite app_nil_r.
  - rewrite IH, lookup_append_to.
    destruct (decide (owner_of m = owner)) as [E|E].
    + rewrite (bool_decide_eq_true_2 _ E). csimpl. by rewrite <- app_assoc.
    + by rewrite (bool_decide_eq_false_2 _ E).
Qed.

Lemma keys_grouped (MODELS : list string) d :
  NoDup d.*1 →
  NoDup (grouped d MODELS).*1
  ∧ (∀ owner, owner ∈ (grouped d MODELS).*1
       ↔ owner ∈ d.*1 ∨ ∃ m, m ∈ MODELS ∧ owner_of m = owner)
  ∧ ∃ rest, (grouped d MODELS).*1 = d.*1 ++ rest.
Proof.
  revert d. induction MODELS as [|m MODELS IH]; intros d Hd; simpl.
  - split; [done|]. split; [|exists []; by rewrite app_nil_r].
    intros owner. split; [by left|]. intros [H|(m & H & _)]; [done|].
    by apply not_elem_of_nil in H.
  - assert (NoDup (append_to (owner_of m) (model_name_of m) d).*1) as Hd'.
    { rewrite keys_append_to. case_decide as Hin; [done|].
      apply NoDup_app. split; [done|]. split; [|apply NoDup_singleton].
      intros x Hx ->%list_elem_of_singleton. done. }
    destruct (IH _ Hd') as (Hn & Hk & rest & Hr).
    split; [done|]. split.
    + intros owner. rewrite Hk, keys_append_to. split.
      * intros [H|(m' & Hm' & E)].
        -- case_decide as Hin; [by left|].
           apply elem_of_app in H as [H|H]; [by left|].
           apply list_elem_of_singleton in H as ->.
           right. exists m. split; [apply list_elem_of_here|done].
        -- right. exists m'. split; [by apply list_elem_of_further|done].
      * intros [H|(m' & Hm' & E)].
        -- left. case_decide; [done|]. apply elem_of_app. by left.
        -- apply elem_of_cons in Hm' as [->|Hm'].
           ++ left. subst owner. case_decide; [done|].
              apply elem_of_app. right. apply list_elem_of_here.
           ++ right. by exists m'.
    + rewrite Hr, keys_append_to. case_decide.
      * by exists rest.
      * exists (owner_of m :: rest). by rewrite <- app_assoc.
Qed.

(** X17. [get_owners_to_models] lists each owner once, the owners are
    those of the configured models, and under an owner stand the names of
    that owner's models in the order of the configuration. *)
Theorem owners_to_models_groups (MODELS : list string) :
  NoDup (get_owners_to_models MODELS).*1
  ∧ (∀ owner, owner ∈ (get_owners_to_models MODELS).*1
       ↔ ∃ m, m ∈ MODELS ∧ owner_of m = owner)
  ∧ ∀ owner, lookup owner (get_owners_to_models MODELS)
      = model_name_of <$> List.filter (λ m, bool_decide (owner_of m = owner)) MODELS.
Proof.
  destruct (keys_grouped MODELS [] (NoDup_nil_2 (A := string))) as (Hn & Hk & _).
  split; [done|]. split.
  - intros owner. rewrite (Hk owner). split; [|by right].
    intros [H|H]; [by apply not_elem_of_nil in H|done].
  - intros owner. apply (lookup_grouped owner MODELS []).
Qed.

Lemma full_name_of_owned (owner m : string) :
  owner_of m = owner →
  get_full_model_name owner (model_name_of m)
  = if Str.contains "_" m then m else m +:+ "_".
Proof. intros <-. apply owner_and_name_join. Qed.

(** X18. The model selected when the page opens is the first configured
    model (with an underscore added at its end when it has none); with no
    model configured the page fails with an [IndexError]. *)
Theorem first_model_is_selected (MODELS : list string) :
  first_full_model_name MODELS
  = match MODELS with
    | [] => Raise IndexError
    | m :: _ => Return (if Str.contains "_" m then m else m +:+ "_")
    end.
Proof.
  destruct MODELS as [|m MODELS]; [done|].
  unfold first_full_model_name.
  set (d := get_owners_to_models (m :: MODELS)).
  assert (∃ rest, d.*1 = owner_of m :: rest) as [rest Hk].
  { destruct (keys_grouped MODELS (append_to (owner_of m) (model_name_of m) []))
      as (_ & _ & rest & Hk); [apply NoDup_singleton|].
    by exists rest. }
  assert (∃ names, lookup (owner_of m) d = model_name_of m :: names) as [names Hl].
  { subst d. unfold get_owners_to_models. rewrite lookup_grouped. simpl.
    rewrite (bool_decide_eq_true_2 (owner_of m = owner_of m)) by done. by eexists. }
  clearbody d. rewrite Hk. simpl. rewrite Hl. simpl.
  f_equal. by apply (full_name_of_owned (owner_of m) m).
Qed.

(** X19. Choosing an owner fills the model list with the names of that
    owner's configured models, selects the first of them, and makes that
    model the full model name; an owner without a model raises
    [IndexError]. *)
Theorem owner_changed_selects_first (MODELS : list string) (selected_owner : string) :
  owner_changed MODELS selected_owner
  = match List.filter (λ m, bool_decide (owner_of m = selected_owner)) MODELS with
    | [] => Raise IndexError
    | m :: ms =>
        Return ({| choices := model_name_of <$> m :: ms; value := model_name_of m |},
                if Str.contains "_" m then m else m +:+ "_")
    end.
Proof.
  unfold owner_changed, update_model_name_dropdown, get_owners_to_models.
  rewrite (lookup_grouped selected_owner MODELS []). simpl.
  destruct (List.filter _ MODELS) as [|m ms] eqn:E; [done|]. simpl.
  do 2 f_equal. apply full_name_of_owned.
  assert (m ∈ List.filter (λ m, bool_decide (owner_of m = selected_owner)) MODELS) as H
    by (rewrite E; apply list_elem_of_here).
  apply list_elem_of_In, filter_In in H as [_ H]. by apply bool_decide_eq_true in H.
Qed.

(** X20. What [get_model] does with a model name: nothing is built
    ([None]) exactly when the name starts with none of the five provider
    names; a name that starts with one but has no underscore raises
    [IndexError]; otherwise the model is of a provider whose name starts
    the text, and its id is all the text after the first underscore. *)
Theorem get_model_outcome (environ : gmap string string) (OLLAMA_URL llm_type : string)
    (llm_temp llm_top_p llm_top_k : Py.number) (max_tokens : Z) :
  match get_model environ OLLAMA_URL llm_type llm_temp llm_top_p llm_top_k max_tokens with
  | Return None => known llm_type = false
  | Return (Some m) =>
      Str.startswith (provider m) llm_type = true
      ∧ ∃ before, Str.contains "_" before = false
                  ∧ llm_type = before +:+ "_" +:+ id_of m
  | Raise e => e = IndexError ∧ known llm_type = true ∧ Str.contains "_" llm_type = false
  end.
Proof.
  unfold get_model, known, providers. cbn [existsb].
  assert (Hsplit :
    (Str.contains "_" llm_type = false ∧ Str.split_once "_" llm_type = [llm_type])
    ∨ ∃ before after, Str.contains "_" before = false
        ∧ llm_type = before +:+ "_" +:+ after
        ∧ Str.split_once "_" llm_type = [before; after]).
  { destruct (Str.contains "_" llm_type) eqn:H.
    - right. destruct (contains_cut _ _ H) as (before & after & -> & Hb).
      exists before, after. by rewrite split_once_app.
    - left. by rewrite split_once_without. }
  destruct (Str.startswith "OpenAI" llm_type) eqn:H1;
    [|destruct (Str.startswith "Google" llm_type) eqn:H2;
      [|destruct (Str.startswith "Groq" llm_type) eqn:H3;
        [|destruct (Str.startswith "Nvidia" llm_type) eqn:H4;
          [|destruct (Str.startswith "Ollama" llm_type) eqn:H5; [|done]]]]];
    (destruct Hsplit as [[Hc ->]|(before & after & Hb & E & ->)];
     [by rewrite ?orb_true_r|simpl; split; [done|by exists before]]).
Qed.

(** X21. The model built for a full model name made from one of the five
    provider names and a model name is of that provider and has that
    model name as its id. *)
Theorem get_model_of_selection (environ : gmap string string) (OLLAMA_URL : string)
    (owner model_name : string) (llm_temp llm_top_p llm_top_k : Py.number)
    (max_tokens : Z) (Howner : owner ∈ providers) :
  ∃ m, get_model environ OLLAMA_URL (get_full_model_name owner model_name)
         llm_temp llm_top_p llm_top_k max_tokens = Return (Some m)
       ∧ provider m = owner ∧ id_of m = model_name.
Proof.
  unfold providers in Howner.
  repeat (apply elem_of_cons in Howner as [->|Howner]; [by eexists|]).
  by apply not_elem_of_nil in Howner.
Qed.

Lemma get_model_of_selection_witness :
  "Groq" ∈ providers
  ∧ ∃ m, get_model ∅ "http://localhost:11434" (get_full_model_name "Groq" "llama_3")
           (Py.Int 1) (Py.Int 1) (Py.Int 40) 1024 = Return (Some m)
         ∧ provider m = "Groq" ∧ id_of m = "llama_3".
Proof.
  assert ("Groq" ∈ providers) as H by (unfold providers; do 2 right; left).
  split; [exact H|].
  exact (get_model_of_selection ∅ "http://localhost:11434" "Groq" "llama_3"
           (Py.Int 1) (Py.Int 1) (Py.Int 40) 1024 H).
Defined.

End Choosing.

(** ** The reasoning selection *)

Section Reasons.
Import Reasoning.

Lemma tools_reasoning (sel : list string) (mcp : string) :
  ReasoningTools true ∈ tools sel mcp ↔ head sel = Some "Tool" ∧ mcp = "ON".
Proof.
  unfold tools. destruct sel as [|first sel]; simpl head.
  - destruct (decide (mcp = "ON")); simpl; rewrite ?elem_of_cons, ?elem_of_nil;
      split; intros H; [destruct H as [[=]|[]]|destruct H as [[=] _]
                       |destruct H|destruct H as [[=] _]].
  - destruct (decide (first = "Tool")) as [->|H], (decide (mcp = "ON")) as [->|H'].
    + split; [done|]. intros _. apply list_elem_of_here.
    + rewrite (bool_decide_eq_false_2 _ H'), andb_false_r. simpl.
      rewrite elem_of_nil. split; [done|by intros [_ ?]].
    + rewrite (bool_decide_eq_false_2 _ H). simpl.
      rewrite elem_of_cons, elem_of_nil. split; [by intros [[=]|[]]|intros [[=] _]; done].
    + rewrite (bool_decide_eq_false_2 _ H). simpl.
      rewrite elem_of_nil. split; [done|by intros [_ ?]].
Qed.

Lemma reasonig_var_head (sel : list string) :
  reasonig_var sel = bool_decide (head sel = Some "Agent").
Proof.
  destruct sel as [|first sel]; [done|]. simpl.
  destruct (decide (first = "Agent")) as [->|H]; [done|].
  rewrite !bool_decide_eq_false_2; [done|congruence|done].
Qed.

Lemma keep_one_head (selected : list string) :
  ∃ kept, keep_one selected = Return kept
    ∧ (length kept ≤ 1)%nat ∧ head kept = last selected.
Proof.
  destruct selected as [|a [|b selected]].
  - exists []. split; [done|]. split; [simpl; lia|done].
  - exists [a]. split; [done|]. split; [simpl; lia|done].
  - unfold keep_one, last_item.
    rewrite bool_decide_eq_true_2 by done.
    rewrite bool_decide_eq_true_2 by (simpl; lia).
    destruct (last (a :: b :: selected)) as [box|] eqn:E.
    + exists [box]. split; [done|]. split; [simpl; lia|done].
    + by apply last_None in E.
Qed.

Lemma keep_one_short (kept : list string) :
  (length kept ≤ 1)%nat → keep_one kept = Return kept.
Proof.
  intros H. unfold keep_one.
  rewrite (bool_decide_eq_false_2 (1 < length kept)%nat) by lia.
  by rewrite andb_false_r.
Qed.

(** X22. After the handler of the check boxes, what the agent and the
    tools see is the last box of the selection alone: the agent reasons
    exactly when that box is Agent, and the reasoning tool is added
    exactly when it is Tool and the MCP tools are on; the selection is
    left with at most one box, and handling it again changes nothing. *)
Theorem last_box_decides (selected : list string) (mcp_tools_radio : string) :
  ∃ kept, keep_one selected = Return kept
    ∧ (length kept ≤ 1)%nat
    ∧ keep_one kept = Return kept
    ∧ reasonig_var kept = bool_decide (last selected = Some "Agent")
    ∧ (ReasoningTools true ∈ tools kept mcp_tools_radio
       ↔ last selected = Some "Tool" ∧ mcp_tools_radio = "ON").
Proof.
  destruct (keep_one_head selected) as (kept & Hk & Hlen & Hhead).
  exists kept. split; [done|]. split; [done|]. split; [by apply keep_one_short|].
  rewrite reasonig_var_head, tools_reasoning, Hhead. done.
Qed.

End Reasons.

(** ** New session identifiers *)

Section Identifiers.
Import Fresh.

(** X23. The identifier of a new session is the time stamp, three
    underscores and the first four groups of the UUID; the fifth group
    is not used. *)
Theorem unique_session_id_shape (now : datetime) (a b c d rest : string)
    (Ha : Str.contains "-" a = false) (Hb : Str.contains "-" b = false)
    (Hc : Str.contains "-" c = false) (Hd : Str.contains "-" d = false) :
  get_unique_session_id now (a +:+ "-" +:+ b +:+ "-" +:+ c +:+ "-" +:+ d +:+ "-" +:+ rest)
  = strftime now +:+ "___" +:+ a +:+ "-" +:+ b +:+ "-" +:+ c +:+ "-" +:+ d.
Proof.
  unfold get_unique_session_id.
  change (a +:+ "-" +:+ b +:+ "-" +:+ c +:+ "-" +:+ d +:+ "-" +:+ rest)
    with (a +:+ String "-" (b +:+ String "-" (c +:+ String "-" (d +:+ String "-" rest)))).
  rewrite !split_app by done.
  by destruct (Str.split "-" rest).
Qed.

Lemma unique_session_id_shape_witness :
  get_unique_session_id
    {| year := 2025; month := 3; day := 9; hour := 14; minute := 5; second := 0 |}
    ("1b4e28ba" +:+ "-" +:+ "2fa1" +:+ "-" +:+ "11d2" +:+ "-" +:+ "883f" +:+ "-"
     +:+ "0016d3cca427")
  = "09-03-2025_14:05:00___1b4e28ba-2fa1-11d2-883f".
Proof.
  exact (unique_session_id_shape
           {| year := 2025; month := 3; day := 9; hour := 14; minute := 5; second := 0 |}
           "1b4e28ba" "2fa1" "11d2" "883f" "0016d3cca427" eq_refl eq_refl eq_refl eq_refl).
Defined.

End Identifiers.

(** ** Live and stored transcripts *)

Section LiveReplay.
Import Chat.

(** The titles byte by byte, as the two files have them. *)
Lemma titles_as_written :
  Py.codes Session.title_started
  = ([195; 176; 197; 184; 226; 128; 186; 194; 160; 195; 175; 194; 184; 32]
     ++ Py.codes "ToolCallStarted")%N
  ∧ Py.codes Session.title_completed
    = ([195; 176; 197; 184; 226; 128; 186; 194; 160; 195; 175; 194; 184; 32]
       ++ Py.codes "ToolCallCompleted")%N
  ∧ Py.codes title_started
    = ([239; 163; 191; 195; 188; 195; 181; 226; 128; 160; 195; 148; 226; 136; 143;
        195; 168; 32] ++ Py.codes "ToolCallStarted")%N
  ∧ Py.codes title_completed
    = ([239; 163; 191; 195; 188; 195; 181; 226; 128; 160; 195; 148; 226; 136; 143;
        195; 168; 32] ++ Py.codes "ToolCallCompleted")%N.
Proof. repeat split; by vm_compute. Qed.

Lemma build_tool_times_readable evs :
  Forall Session.readable evs → ∃ tool_times, Session.build_tool_times evs = Return tool_times.
Proof.
  unfold Session.build_tool_times. generalize (∅ : gmap string Session.timing).
  intros t H. revert t. induction H as [|ev evs Hr _ IH]; intros t; simpl; [eauto|].
  destruct (record_event_readable t ev Hr) as [t1 ->]. simpl. apply IH.
Qed.

Lemma for_quiet_events meta cs : ∀ s base m,
  chat_history s = base ++ [m] → Forall quiet cs →
  ∃ s' m', for_ cs (on_chunk meta) s = (Return tt, s')
    ∧ chat_history s' = base ++ [m']
    ∧ stream_response s' = stream_response s +:+ said cs
    ∧ (m = assistant (stream_response s) ∨ Exists speaks cs →
       m' = assistant (stream_response s')).
Proof.
  induction cs as [|c cs IH]; intros s base m Hh Hq.
  - exists s, m. split; [done|]. split; [done|]. split; [by rewrite append_empty_r|].
    intros [->|H]; [done|by apply Exists_nil in H].
  - apply Forall_cons in Hq as [[Hs Hc] Hq]. cbn [for_]. rewrite run_bind.
    assert (Hstill :
      on_chunk meta c s = (Return tt, set_current_run_id (run_id c) s) →
      said (c :: cs) = said cs → ¬ speaks c →
      ∃ s' m', for_ cs (on_chunk meta) (set_current_run_id (run_id c) s) = (Return tt, s')
        ∧ chat_history s' = base ++ [m']
        ∧ stream_response s' = stream_response s +:+ said (c :: cs)
        ∧ (m = assistant (stream_response s) ∨ Exists speaks (c :: cs) →
           m' = assistant (stream_response s'))).
    { intros _ -> Hn.
      destruct (IH (set_current_run_id (run_id c) s) base m Hh Hq)
        as (s' & m' & Hrun & Hh' & Hsr & Hm').
      exists s', m'. split; [done|]. split; [done|]. split; [done|].
      intros [H|H]; apply Hm'; [by left|].
      apply Exists_cons in H as [H|H]; [done|by right]. }
    destruct (event c) eqn:E; try done.
    + destruct (chunk_content c) as [text|] eqn:Et.
      * assert (on_chunk meta c s =
          (Return tt,
           add_yielded {| placeholder := "..."; interactive := false;
                          shown := base ++ [assistant (stream_response s +:+ text)];
                          stop_visible := true |}
             (set_chat_history (base ++ [assistant (stream_response s +:+ text)])
                (set_stream_response (stream_response s +:+ text)
                   (set_current_run_id (run_id c) s))))) as ->.
        { unfold on_chunk. rewrite E, Et. simpl. run.
          rewrite run_set_last by (simpl; rewrite Hh; by destruct base). simpl.
          rewrite last_insert_pred by (rewrite Hh; by destruct base).
          by rewrite Hh, removelast_last. }
        match goal with |- context [for_ _ _ ?s1] =>
          destruct (IH s1 base (assistant (stream_response s +:+ text)) eq_refl Hq)
            as (s' & m' & Hrun & Hh' & Hsr & Hm')
        end.
        exists s', m'. split; [done|]. split; [done|]. split.
        -- rewrite Hsr. cbn [said stream_response add_yielded set_chat_history
             set_stream_response]. rewrite E, Et. by rewrite append_assoc.
        -- intros _. apply Hm'. by left.
      * assert (on_chunk meta c s = (Return tt, set_current_run_id (run_id c) s)) as Hon.
        { unfold on_chunk. rewrite E, Et. simpl. by run. }
        rewrite Hon. apply Hstill; [done| |].
        -- cbn [said]. by rewrite E, Et.
        -- intros [_ [? ?]]. congruence.
    + assert (on_chunk meta c s = (Return tt, set_current_run_id (run_id c) s)) as Hon.
      { unfold on_chunk. rewrite E. simpl. by run. }
      rewrite Hon. apply Hstill; [done| |].
      -- cbn [said]. by rewrite E.
      -- intros [? _]. congruence.
Qed.


Lemma completed_inside_append h m :
  role m = "assistant" → completed_inside h → completed_inside (h ++ [m]).
Proof.
  intros _ (pre & x & post & -> & Hne & Hx). exists pre, x, (post ++ [m]).
  split; [by rewrite <- app_assoc|]. split; [by destruct post|done].
Qed.

Lemma completed_inside_set_last h m :
  role m = "assistant" → completed_inside h → h ≠ [] →
  completed_inside (removelast h ++ [m]).
Proof.
  intros _ (pre & x & post & -> & Hne & Hx) _.
  destruct (exists_last Hne) as (post' & a & ->).
  exists pre, x, (post' ++ [m]).
  replace (pre ++ x :: post' ++ [a]) with ((pre ++ x :: post') ++ [a])
    by by rewrite <- app_assoc.
  rewrite removelast_last. split; [by rewrite <- app_assoc|].
  split; [by destruct post'|done].
Qed.

Lemma on_chunk_completed c s s1 :
  event c = tool_call_completed →
  on_chunk "ON" c s = (Return tt, s1) → completed_inside (chat_history s1).
Proof.
  intros E. unfold on_chunk. rewrite E. simpl. rewrite !run_bind, run_modify.
  cbn iota. rewrite !run_bind.
  destruct (clear_loading _) as [[[]|e] s2]; cbn iota; [|done].
  rewrite !run_bind. unfold the_tool at 1.
  destruct (tool c) as [t|]; [|done]. rewrite run_ret. cbn iota.
  rewrite !run_bind, run_lift.
  destruct (completed_content t) as [text|e] eqn:Et; cbn iota; [|done].
  run. intros [= <-]. simpl.
  exists (chat_history s2),
    {| role := "assistant"; content := text; metadata := Some title_completed |},
    [assistant ""].
  split; [by rewrite <- app_assoc|]. split; [done|]. split; [by eexists|]. by exists t.
Qed.

Lemma for_chunks_completed cs : ∀ s s1,
  Exists (λ c, event c = tool_call_completed) cs →
  for_ cs (on_chunk "ON") s = (Return tt, s1) → completed_inside (chat_history s1).
Proof.
  induction cs as [|c cs IH]; intros s s1 Hex; [by apply Exists_nil in Hex|].
  cbn [for_]. rewrite run_bind.
  destruct (on_chunk "ON" c s) as [[[]|e] s0] eqn:Hc; [|done].
  intros Hrun. apply Exists_cons in Hex as [E|Hex]; [|by eapply IH].
  pose proof (on_chunk_completed c s s0 E Hc) as H1.
  change s1 with (Return tt, s1).2. rewrite <- Hrun.
  apply (keeps_for (Turn.of_transcript completed_inside)); [|done].
  intros c'. apply keeps_transcript_on_chunk.
  - apply completed_inside_append.
  - apply completed_inside_set_last.
Qed.


Lemma for_each_keeps {S A} (P : S → Prop) (body : S → A → result S) :
  (∀ s a s1, P s → body s a = Return s1 → P s1) →
  ∀ l s s1, P s → Session.for_each body l s = Return s1 → P s1.
Proof.
  intros Hstep l. induction l as [|a l IH]; intros s s1 Hs; simpl.
  - by intros [= <-].
  - destruct (body s a) as [s2|] eqn:E; simpl; [|done]. eauto.
Qed.

Lemma touch_first_assistant_rebuilt h :
  Forall Session.rebuilt_entry h → Forall Session.rebuilt_entry (Session.touch_first_assistant h).
Proof.
  induction 1 as [|m h Hm Hh IH]; simpl; [done|].
  destruct (decide _); constructor; try done.
  destruct Hm as [Hm|[[rest Hm]|[rest Hm]]]; [by left|right; left|right; right];
    exists (rest +:+ " "); cbn [content]; by rewrite Hm, append_assoc.
Qed.

Lemma trigger_latex_rebuilt h :
  Forall Session.rebuilt_entry h → Forall Session.rebuilt_entry (Session.trigger_latex h).
Proof.
  intros H. unfold Session.trigger_latex.
  by apply Forall_reverse, touch_first_assistant_rebuilt, Forall_reverse.
Qed.

Lemma show_message_rebuilt meta tool_times h msg h1 :
  Forall Session.rebuilt_entry h →
  Session.show_message meta tool_times h msg = Return h1 → Forall Session.rebuilt_entry h1.
Proof.
  intros Hh. unfold Session.show_message. destruct (decide (meta = "ON" ∧ _)).
  - destruct (Session.exec_time tool_times _) as [time|]; simpl; [|done].
    intros [= <-]. apply Forall_app. split; [done|].
    constructor; [|constructor; [|done]]; right.
    + left. by eexists.
    + right. by eexists.
  - destruct (Session.msg_role msg) as [r|]; [destruct (decide _)|];
      [|by intros [= <-]..].
    destruct (Session.msg_content msg) as [| |[text|items]]; try done;
      intros [= <-]; apply Forall_app; (split; [done|]); by repeat constructor.
Qed.

Lemma rebuild_rebuilt meta latex runs h :
  Session.rebuild meta latex runs = Return h → Forall Session.rebuilt_entry h.
Proof.
  unfold Session.rebuild.
  destruct (Session.collect meta latex runs) as [h0|] eqn:E; simpl; [|done].
  intros [= <-].
  assert (Forall Session.rebuilt_entry h0) as H0.
  { revert E. unfold Session.collect. apply for_each_keeps; [|done].
    intros h1 r h2 H1. unfold Session.add_run.
    destruct (Session.build_tool_times _) as [tool_times|]; simpl; [|done].
    apply for_each_keeps; [|done].
    intros h3 msg h4 H3. unfold Session.add_message.
    destruct (Session.show_message _ _ _ _) as [h5|] eqn:E5; simpl; [|done].
    intros [= <-]. pose proof (show_message_rebuilt _ _ _ _ _ H3 E5).
    case_decide; [by apply trigger_latex_rebuilt|done]. }
  apply Forall_forall. intros m Hm. rewrite Forall_forall in H0. apply H0.
  rewrite dedupe_unseen in Hm. eapply elem_of_sublist; [done|apply unseen_sublist].
Qed.

Lemma completion_not_rebuilt m : completion m → ¬ Session.rebuilt_entry m.
Proof.
  intros [[title Hm] [t Ht]] [Hn|H]; [congruence|].
  unfold completed_content in Ht.
  destruct (metrics t) as [mt|].
  - destruct (duration mt) as [d|]; [|done].
    destruct (Py.format_f 4 d); simpl in Ht; [|done].
    destruct H as [[rest E]|[rest E]]; rewrite E in Ht; by injection Ht as [=].
  - destruct H as [[rest E]|[rest E]]; rewrite E in Ht; by injection Ht as [=].
Qed.


Lemma append_space_differs (s : string) : s +:+ " " ≠ s.
Proof. induction s as [|c s IH]; [done|]. intros [= H]. by apply IH. Qed.

Lemma rebuild_stored_turn latex user_msg text evs :
  Forall Session.readable evs →
  Session.rebuild "ON" latex [Scenario.stored_turn user_msg text evs]
  = Return [ {| role := "user"; content := user_msg; metadata := None |};
             assistant (if decide (latex = "ON") then text +:+ " " else text) ].
Proof.
  intros Hread. destruct (build_tool_times_readable evs Hread) as [tool_times Hb].
  unfold Session.rebuild, Session.collect, Session.add_run, Scenario.stored_turn.
  cbn [Session.for_each Session.events Session.messages]. rewrite Hb.
  cbn [mbind result_bind Session.for_each].
  unfold Session.add_message, Session.show_message. simpl.
  destruct (decide (latex = "ON")); simpl.
  - change (Session.trigger_latex _)
      with [ {| role := "user"; content := user_msg; metadata := None |};
             assistant (text +:+ " ") ].
    rewrite dedupe_pair; [done|]. unfold Session.identifier. by intros [=].
  - rewrite dedupe_pair; [done|]. unfold Session.identifier. by intros [=].
Qed.

Lemma live_quiet_turn user_msg agent g :
  stream_raises agent = false →
  Forall quiet (streamed agent) → Exists speaks (streamed agent) →
  chat_history (get_response user_msg [] "ON" "ON" (Return agent) (initial g)).2
  = [ {| role := "user"; content := user_msg; metadata := None |};
      assistant (said (streamed agent)) ].
Proof.
  intros Hr Hq Hs. rewrite get_response_ready.
  set (s := ready user_msg [] agent g).
  destruct (for_quiet_events "ON" (streamed agent) (set_stream_response "" s)
              [ {| role := "user"; content := user_msg; metadata := None |} ]
              (assistant "### ...") eq_refl Hq) as (s2 & m' & Hrun & Hh & Hsr & Hm').
  destruct (answer_streamed agent "ON" s (ready_trailing_assistant _ _ _ _)) as [_ Hok].
  rewrite Hok.
  2: { intros [?|[e He]]; [congruence|]. unfold stream_end in He. by rewrite Hrun in He. }
  unfold stream_end. rewrite Hrun. cbn [snd add_yielded set_running_agent chat_history].
  rewrite Hh, Hm' by by right. by rewrite Hsr.
Qed.

Lemma live_completed_turn user_msg history agent g :
  (stream_end agent "ON" (ready user_msg history agent g)).1 = Return tt →
  Exists (λ c, event c = tool_call_completed) (streamed agent) →
  completed_inside
    (chat_history (get_response user_msg history "ON" "ON" (Return agent) (initial g)).2).
Proof.
  intros Hend Hex. rewrite get_response_ready.
  set (s := ready user_msg history agent g) in *.
  assert (completed_inside (chat_history (stream_end agent "ON" s).2)) as H2.
  { apply (for_chunks_completed (streamed agent) (set_stream_response "" s)); [done|].
    unfold stream_end in *. by destruct (for_ _ _ _) as [[[]|e] s2]. }
  assert (chat_history (stream_end agent "ON" s).2 ≠ []) as Hne.
  { destruct H2 as (pre & x & post & -> & _). by destruct pre. }
  destruct (answer_streamed agent "ON" s (ready_trailing_assistant _ _ _ _)) as [Hf Hok].
  destruct (decide (stream_raises agent = true)) as [Hr|Hr].
  - rewrite Hf by by left. simpl. by apply completed_inside_set_last.
  - rewrite Hok; [done|]. intros [?|[e He]]; [done|congruence].
Qed.

Lemma completed_inside_elem h :
  completed_inside h → ∃ x, x ∈ h ∧ completion x.
Proof.
  intros (pre & x & post & -> & _ & Hx). exists x. split; [|done].
  apply elem_of_app. right. apply list_elem_of_here.
Qed.

Lemma completion_kept x h :
  x ∈ h → completion x → x ∈ without_placeholder h.
Proof.
  intros Hin [[title Hx] _]. unfold without_placeholder.
  apply elem_of_filter_bool. split; [done|].
  rewrite !bool_decide_eq_false_2; [done| |]; intros ->; done.
Qed.




End LiveReplay.
